(** * QuizMe: the adaptive review system (Leitner boxes)

    A shallow embedding of the Python sources

      - [quizme/ars/qtype/question.py], [shortanswer.py], [truefalse.py]
      - [quizme/ars/box.py]
      - [quizme/ars/boxmanager.py]
      - [quizme/ars/arcontroller.py]

    Python objects live in a heap and are named by references, because the
    boxes, the manager and the controller all share the same [Question]
    objects and [ask] mutates them in place.  The wall clock, [uuid.uuid4],
    [input] and [print] are the environment; they are fields of the [World]
    that every effectful function threads. *)

From Stdlib Require Import ZArith NArith Ascii String List Bool Lia.
From stdpp Require Import base option list sorting strings pretty gmap.

(** ** Python strings

    A [str] is modelled as a sequence of code points below 256 (the
    Latin-1 range), one [ascii] per code point. *)

Module PyStr.

Definition code (c : ascii) : N := N_of_ascii c.

Definition between (lo hi n : N) : bool := ((lo <=? n) && (n <=? hi))%N.

(** [str.isspace] on one character; also the class [\s] of [re]. *)
Definition isspace (c : ascii) : bool :=
  let n := code c in
  between 9 13 n || between 28 32 n || (n =? 133)%N || (n =? 160)%N.

(** Characters that [str.lower] changes. *)
Definition isupper (c : ascii) : bool :=
  let n := code c in
  between 65 90 n || (between 192 222 n && negb (n =? 215)%N).

Definition lower_char (c : ascii) : ascii :=
  if isupper c then ascii_of_N (code c + 32) else c.

(** The class [\w] of [re] for [str] patterns: alphanumeric or underscore. *)
Definition isword (c : ascii) : bool :=
  let n := code c in
  between 48 57 n || between 65 90 n || between 97 122 n || (n =? 95)%N
  || (n =? 170)%N || (n =? 178)%N || (n =? 179)%N || (n =? 181)%N
  || (n =? 185)%N || (n =? 186)%N || between 188 190 n
  || between 192 214 n || between 216 246 n || between 248 255 n.

Fixpoint lstrip (s : string) : string :=
  match s with
  | EmptyString => EmptyString
  | String c s' => if isspace c then lstrip s' else s
  end.

Fixpoint rstrip (s : string) : string :=
  match s with
  | EmptyString => EmptyString
  | String c s' =>
      match rstrip s' with
      | EmptyString => if isspace c then EmptyString else String c EmptyString
      | r => String c r
      end
  end.

(** [s.strip()] *)
Definition strip (s : string) : string := rstrip (lstrip s).

(** [s.lower()] *)
Fixpoint lower (s : string) : string :=
  match s with
  | EmptyString => EmptyString
  | String c s' => String (lower_char c) (lower s')
  end.

(** [re.sub(r'[^\w\s]', '', s)]: every character that is neither a word
    character nor white space is deleted. *)
Fixpoint sub_nonword_nonspace (s : string) : string :=
  match s with
  | EmptyString => EmptyString
  | String c s' =>
      if isword c || isspace c then String c (sub_nonword_nonspace s')
      else sub_nonword_nonspace s'
  end.

(** [x in [a, b]] for strings. *)
Definition in_list (x : string) (l : list string) : bool :=
  existsb (String.eqb x) l.



Fixpoint forallb_str (p : ascii -> bool) (s : string) : bool :=
  match s with
  | EmptyString => true
  | String c s' => p c && forallb_str p s'
  end.

End PyStr.

(** ** Python values that a question record can carry (JSON scalars) *)

Inductive pyval :=
| PNone
| PBool (b : bool)
| PInt (z : Z)
| PStr (s : string).

(** [str(v)], as an f-string formats it. *)
Definition py_str (v : pyval) : string :=
  match v with
  | PNone => "None"
  | PBool true => "True"
  | PBool false => "False"
  | PInt z => pretty z
  | PStr s => s
  end.

(** [type(v).__name__] *)
Definition type_name (v : pyval) : string :=
  match v with
  | PNone => "NoneType"
  | PBool _ => "bool"
  | PInt _ => "int"
  | PStr _ => "str"
  end.

(** [repr(v)] for the one case the program prints: the key of a [KeyError]. *)
Definition py_repr_str (s : string) : string := "'" +:+ s +:+ "'".

(** Truth value testing: [if v:] / [if not v:]. *)
Definition truthy (v : pyval) : bool :=
  match v with
  | PNone => false
  | PBool b => b
  | PInt z => negb (z =? 0)%Z
  | PStr s => negb (String.eqb s EmptyString)
  end.

Definition py_eq (a b : pyval) : bool :=
  match a, b with
  | PNone, PNone => true
  | PBool x, PBool y => Bool.eqb x y
  | PInt x, PInt y => (x =? y)%Z
  | PBool x, PInt y | PInt y, PBool x => ((if x then 1 else 0) =? y)%Z
  | PStr x, PStr y => String.eqb x y
  | _, _ => false
  end.

(** ** Time

    A [datetime] is the number of microseconds since [datetime.min]; a
    [timedelta] is a signed number of microseconds. *)

Definition datetime := N.
Definition timedelta := Z.

Definition datetime_min : datetime := 0%N.
Definition seconds (s : Z) : timedelta := (s * 1000000)%Z.
Definition timedelta_max : timedelta := 86399999999999999999%Z.
Definition dt_sub (a b : datetime) : timedelta := (Z.of_N a - Z.of_N b)%Z.

(** ** Identifiers: [uuid.UUID] as its 128-bit integer *)

Definition UUID := N.

Module Uuid.

Definition hex_char (d : N) : ascii :=
  if (d <? 10)%N then ascii_of_N (48 + d) else ascii_of_N (87 + d).

(** The [k] low hexadecimal digits of [n], least significant first. *)
Fixpoint hex_digits (k : nat) (n : N) : list N :=
  match k with
  | O => []
  | S k' => (n mod 16)%N :: hex_digits k' (n / 16)%N
  end.

Definition dash : ascii := "-"%char.

(** [str(u)]: 32 hexadecimal digits grouped 8-4-4-4-12. *)
Definition str (u : UUID) : string :=
  let ds := hex_char <$> rev (hex_digits 32 u) in
  string_of_list_ascii
    (take 8 ds ++ dash :: take 4 (drop 8 ds) ++ dash :: take 4 (drop 12 ds)
     ++ dash :: take 4 (drop 16 ds) ++ dash :: drop 20 ds).

Definition valid (u : UUID) : Prop := (u < 2 ^ 128)%N.

(** The number a list of digits stands for, least significant first. *)
Fixpoint of_digits (l : list N) : N :=
  match l with
  | [] => 0
  | d :: l' => d + 16 * of_digits l'
  end%N.

(** Reading the digits back out of the grouped form. *)
Definition ungroup (l : list ascii) : list ascii :=
  take 8 l ++ take 4 (drop 9 l) ++ take 4 (drop 14 l) ++ take 4 (drop 19 l) ++ drop 24 l.

End Uuid.

(** ** Questions ([qtype/question.py], [shortanswer.py], [truefalse.py]) *)

(** The exceptions the program can raise.  [DanglingReference] is not one of
    Python's: it is what reading an address outside the heap gives, which no
    run from the constructors can do. *)
Inductive exn :=
| KeyError (key : string)
| ValueError (msg : string)
| AttributeError (msg : string)
| IndexError
| EOFError
| DanglingReference.

Inductive result (A : Type) :=
| Ok (a : A)
| Raise (e : exn).
Arguments Ok {A} a.
Arguments Raise {A} e.

(** The concrete class of an instance with its own attributes. *)
Inductive qclass :=
| ShortAnswer (_case_sensitive : pyval)
| TrueFalse (_explanation : pyval).

Record Question := mkQuestion {
  _id : UUID;
  _question : pyval;
  _answer : pyval;
  _last_asked : datetime;
  _class : qclass
}.

Definition isinstance_ShortAnswer (q : Question) : bool :=
  match _class q with ShortAnswer _ => true | TrueFalse _ => false end.

Definition isinstance_TrueFalse (q : Question) : bool :=
  match _class q with TrueFalse _ => true | ShortAnswer _ => false end.

(** [ShortAnswer.__eq__] and [TrueFalse.__eq__], dispatched on [self]. *)
Definition question_eq (self other : Question) : bool :=
  match _class self with
  | ShortAnswer _ => if isinstance_ShortAnswer other then (_id self =? _id other)%N else false
  | TrueFalse _ => if isinstance_TrueFalse other then (_id self =? _id other)%N else false
  end.

(** [hash(uuid)] is [hash(uuid.int)]; CPython on a 64-bit build reduces a
    non-negative integer modulo the Mersenne prime [2^61 - 1]. *)
Definition uuid_hash (u : UUID) : N := (u mod (2 ^ 61 - 1))%N.

(** [__hash__] of either class. *)
Definition question_hash (self : Question) : N := uuid_hash (_id self).

(** [ShortAnswer._normalize] *)
Definition _normalize (case_sensitive : pyval) (text : string) : string :=
  let text := PyStr.strip text in
  let text := if negb (truthy case_sensitive) then PyStr.lower text else text in
  PyStr.sub_nonword_nonspace text.

(** [check_answer] of either class.  [str] methods on a canonical answer
    that is not a string raise [AttributeError]. *)
Definition check_answer (self : Question) (answer : string) : result bool :=
  match _class self with
  | ShortAnswer cs =>
      let normalized_provided_answer := _normalize cs answer in
      match _answer self with
      | PStr a =>
          let normalized_correct_answer := _normalize cs a in
          Ok (String.eqb normalized_provided_answer normalized_correct_answer)
      | v => Raise (AttributeError ("'" +:+ type_name v
                                    +:+ "' object has no attribute 'strip'"))
      end
  | TrueFalse _ =>
      let normalized_answer := PyStr.lower (PyStr.strip answer) in
      if PyStr.in_list normalized_answer ["true"; "t"] then
        Ok (py_eq (PBool true) (_answer self))
      else if PyStr.in_list normalized_answer ["false"; "f"] then
        Ok (py_eq (PBool false) (_answer self))
      else Raise (ValueError "Answer must be 'True' or 'False'.")
  end.

(** [incorrect_feedback] of either class. *)
Definition incorrect_feedback (self : Question) : string :=
  match _class self with
  | ShortAnswer _ => "Incorrect. The correct answer is: " +:+ py_str (_answer self)
  | TrueFalse e => "Incorrect. " +:+ (if truthy e then py_str e else EmptyString)
  end.

(** ** The world: heap, clock, identifier source, console *)

(** A reference is an address in the heap. *)
Abbreviation ref := nat (only parsing).

Record World := mkWorld {
  heap : list Question;          (* the Question objects, by address *)
  clock : nat -> datetime;       (* what the n-th [datetime.now()] returns *)
  ticks : nat;                   (* how often the clock has been read *)
  uuid4_src : nat -> UUID;       (* what the n-th [uuid.uuid4()] returns *)
  uuid4_calls : nat;
  stdin : list string;           (* lines still to be typed *)
  stdout : list string           (* lines written so far, oldest first *)
}.

Definition with_heap (h : list Question) (w : World) : World :=
  mkWorld h (clock w) (ticks w) (uuid4_src w) (uuid4_calls w) (stdin w) (stdout w).
Definition with_ticks (n : nat) (w : World) : World :=
  mkWorld (heap w) (clock w) n (uuid4_src w) (uuid4_calls w) (stdin w) (stdout w).
Definition with_uuid4_calls (n : nat) (w : World) : World :=
  mkWorld (heap w) (clock w) (ticks w) (uuid4_src w) n (stdin w) (stdout w).
Definition with_stdin (l : list string) (w : World) : World :=
  mkWorld (heap w) (clock w) (ticks w) (uuid4_src w) (uuid4_calls w) l (stdout w).
Definition with_stdout (l : list string) (w : World) : World :=
  mkWorld (heap w) (clock w) (ticks w) (uuid4_src w) (uuid4_calls w) (stdin w) l.

(** Computations that may raise and that change the world either way. *)
Definition M (A : Type) : Type := World -> result A * World.

Definition ret {A} (a : A) : M A := fun w => (Ok a, w).
Definition raise {A} (e : exn) : M A := fun w => (Raise e, w).
Definition bind {A B} (m : M A) (k : A -> M B) : M B :=
  fun w => match m w with
           | (Ok a, w') => k a w'
           | (Raise e, w') => (Raise e, w')
           end.

Declare Scope py_scope.
Delimit Scope py_scope with py.
Notation "'let*' x ':=' c1 'in' c2" := (bind c1 (fun x => c2))
  (at level 10, x name, c1 at level 100, c2 at level 200) : py_scope.
Notation "'do' c1 'then' c2" := (bind c1 (fun _ => c2))
  (at level 10, c1 at level 100, c2 at level 200) : py_scope.
Local Open Scope py_scope.

Definition lift {A} (r : result A) : M A := fun w => (r, w).

Definition get_heap : M (list Question) := fun w => (Ok (heap w), w).

Definition deref (r : ref) : M Question :=
  fun w => match heap w !! r with
           | Some q => (Ok q, w)
           | None => (Raise DanglingReference, w)
           end.

(** A new object gets the next free address. *)
Definition alloc (q : Question) : M ref :=
  fun w => (Ok (length (heap w)), with_heap (heap w ++ [q]) w).

(** [datetime.now()] *)
Definition datetime_now : M datetime :=
  fun w => (Ok (clock w (ticks w)), with_ticks (S (ticks w)) w).

(** [uuid.uuid4()] *)
Definition uuid4 : M UUID :=
  fun w => (Ok (uuid4_src w (uuid4_calls w)), with_uuid4_calls (S (uuid4_calls w)) w).

(** [print(s)] *)
Definition print (s : string) : M unit :=
  fun w => (Ok tt, with_stdout (stdout w ++ [s]) w).

(** [input(prompt)]: the prompt is written, then a line is read. *)
Definition input (prompt : string) : M string :=
  fun w => match stdin w with
           | [] => (Raise EOFError, with_stdout (stdout w ++ [prompt]) w)
           | l :: rest => (Ok l, with_stdin rest (with_stdout (stdout w ++ [prompt]) w))
           end.

Definition with_last_asked (t : datetime) (q : Question) : Question :=
  mkQuestion (_id q) (_question q) (_answer q) t (_class q).

(** [self._last_asked = t] on the object at [r]. *)
Definition set_last_asked (r : ref) (t : datetime) : M unit :=
  fun w => match heap w !! r with
           | Some q => (Ok tt, with_heap (<[r := with_last_asked t q]> (heap w)) w)
           | None => (Raise DanglingReference, w)
           end.

(** *** Constructors *)

(** [Question.__init__] *)
Definition Question_init (question answer : pyval) (cls : qclass) : M Question :=
  let* u := uuid4 in
  ret (mkQuestion u question answer datetime_min cls).

(** [ShortAnswer(question, answer, case_sensitive)] *)
Definition new_ShortAnswer (question answer case_sensitive : pyval) : M ref :=
  let* self := Question_init question answer (ShortAnswer case_sensitive) in
  alloc self.

Definition isinstance_bool (v : pyval) : bool :=
  match v with PBool _ => true | _ => false end.

(** [TrueFalse(question, answer, explanation)] *)
Definition new_TrueFalse (question answer explanation : pyval) : M ref :=
  let* self := Question_init question answer (TrueFalse explanation) in
  if negb (isinstance_bool answer) then
    raise (ValueError "The answer must be a boolean (True or False).")
  else alloc self.

(** [ShortAnswer.ask] and [TrueFalse.ask] *)
Definition ask (r : ref) : M string :=
  let* self := deref r in
  let* now := datetime_now in
  do set_last_asked r now then
  match _class self with
  | ShortAnswer _ => ret (py_str (_question self))
  | TrueFalse _ => ret (py_str (_question self) +:+ " (True/False)")
  end.

(** ** Boxes ([box.py]) *)

Record Box := mkBox {
  _name : string;
  _questions : list ref;
  _priority_interval : timedelta
}.

(** [Box(name, priority_interval)] *)
Definition Box_init (name : string) (priority_interval : timedelta) : Box :=
  mkBox name [] priority_interval.

(** The comparison a list uses for [in] and [remove]: identity first, then
    [__eq__]. *)
Definition same_object (h : list Question) (a b : ref) : bool :=
  (a =? b)%nat
  || match h !! a, h !! b with
     | Some x, Some y => question_eq x y
     | _, _ => false
     end.

(** [question in l] *)
Definition list_contains (h : list Question) (l : list ref) (question : ref) : bool :=
  existsb (fun e => same_object h e question) l.

(** [l.remove(question)], for a list that contains it: the first match goes. *)
Fixpoint list_remove (h : list Question) (l : list ref) (question : ref) : list ref :=
  match l with
  | [] => []
  | e :: l' => if same_object h e question then l' else e :: list_remove h l' question
  end.

Definition add_question (self : Box) (question : ref) : M Box :=
  let* h := get_heap in
  if negb (list_contains h (_questions self) question) then
    ret (mkBox (_name self) (_questions self ++ [question]) (_priority_interval self))
  else ret self.

Definition remove_question (self : Box) (question : ref) : M Box :=
  let* h := get_heap in
  if list_contains h (_questions self) question then
    ret (mkBox (_name self) (list_remove h (_questions self) question) (_priority_interval self))
  else ret self.

(** [sorted(l, key=...)] is stable: an element goes in front of the first
    one whose key is not smaller than its own key. *)
Fixpoint insert_by_key {A} (x : datetime * A) (l : list (datetime * A)) : list (datetime * A) :=
  match l with
  | [] => [x]
  | y :: l' => if (fst x <=? fst y)%N then x :: l else y :: insert_by_key x l'
  end.

Fixpoint sort_by_key {A} (l : list (datetime * A)) : list (datetime * A) :=
  match l with
  | [] => []
  | x :: l' => insert_by_key x (sort_by_key l')
  end.

Fixpoint mapM {A B} (f : A -> M B) (l : list A) : M (list B) :=
  match l with
  | [] => ret []
  | x :: l' =>
      let* y := f x in
      let* ys := mapM f l' in
      ret (y :: ys)
  end.

(** [sorted(questions, key=lambda x: x.last_asked)] *)
Definition sorted_by_last_asked (questions : list ref) : M (list ref) :=
  let* keyed := mapM (fun r => let* q := deref r in ret (_last_asked q, r)) questions in
  ret (snd <$> sort_by_key keyed).

(** The [for] loop of [get_next_priority_question]. *)
Fixpoint first_due (now : datetime) (interval : timedelta) (sorted_questions : list ref)
  : M (option ref) :=
  match sorted_questions with
  | [] => ret None
  | question :: rest =>
      let* q := deref question in
      if (dt_sub now (_last_asked q) >=? interval)%Z then ret (Some question)
      else first_due now interval rest
  end.

Definition get_next_priority_question (self : Box) : M (option ref) :=
  let* sorted_questions := sorted_by_last_asked (_questions self) in
  let* now := datetime_now in
  first_due now (_priority_interval self) sorted_questions.

(** [len(box)] *)
Definition Box_len (self : Box) : nat := length (_questions self).

(** ** The box manager ([boxmanager.py]) *)

Record BoxManager := mkBoxManager {
  _boxes : list Box;
  _question_location : gmap string nat
}.

(** [BoxManager()] *)
Definition BoxManager_init : BoxManager :=
  mkBoxManager
    [ Box_init "Missed Questions" (seconds 60);
      Box_init "Unasked Questions" (seconds 0);
      Box_init "Correctly Answered Once" (seconds 180);
      Box_init "Correctly Answered Twice" (seconds 360);
      Box_init "Known Questions" timedelta_max ]
    ∅.

(** [l[i]] for a non-negative index. *)
Definition list_get {A} (l : list A) (i : nat) : M A :=
  match l !! i with
  | Some x => ret x
  | None => raise IndexError
  end.

(** [d[k]] *)
Definition dict_get (d : gmap string nat) (k : string) : M nat :=
  match d !! k with
  | Some v => ret v
  | None => raise (KeyError k)
  end.

Fixpoint for_each {A} (f : A -> M unit) (l : list A) : M unit :=
  match l with
  | [] => ret tt
  | x :: l' => do f x then for_each f l'
  end.

Definition _log_box_counts (self : BoxManager) : M unit :=
  for_each (fun box => print (_name box +:+ ": " +:+ pretty (Box_len box) +:+ " questions"))
           (_boxes self).

Definition add_new_question (self : BoxManager) (question : ref) : M BoxManager :=
  let* box := list_get (_boxes self) 1 in
  let* box := add_question box question in
  let* q := deref question in
  ret (mkBoxManager (<[1%nat := box]> (_boxes self))
                    (<[Uuid.str (_id q) := 1%nat]> (_question_location self))).

(** The box a question goes to.  Indices are natural numbers: the manager
    only ever stores 0, 1, 2 and [min(i+1, len-1)]. *)
Definition new_box_index (current_box_index : nat) (answered_correctly : bool) (len : nat) : nat :=
  if answered_correctly then
    if (current_box_index =? 0)%nat then 2%nat
    else Nat.min (current_box_index + 1) (len - 1)
  else 0%nat.

Definition move_question (self : BoxManager) (question : ref) (answered_correctly : bool)
  : M BoxManager :=
  let* q := deref question in
  let* current_box_index := dict_get (_question_location self) (Uuid.str (_id q)) in
  let new_box_index := new_box_index current_box_index answered_correctly (length (_boxes self)) in
  let* box := list_get (_boxes self) current_box_index in
  let* box := remove_question box question in
  let boxes := <[current_box_index := box]> (_boxes self) in
  let* box := list_get boxes new_box_index in
  let* box := add_question box question in
  let boxes := <[new_box_index := box]> boxes in
  let self := mkBoxManager boxes (<[Uuid.str (_id q) := new_box_index]> (_question_location self)) in
  do _log_box_counts self then
  ret self.

(** [l[:-1]] *)
Definition all_but_last {A} (l : list A) : list A := take (length l - 1) l.

(** The [for] loop of [get_next_question]. *)
Fixpoint first_question (boxes : list Box) : M (option ref) :=
  match boxes with
  | [] => ret None
  | box :: rest =>
      let* question := get_next_priority_question box in
      match question with
      | Some q => ret (Some q)
      | None => first_question rest
      end
  end.

Definition get_next_question (self : BoxManager) : M (option ref) :=
  first_question (all_but_last (_boxes self)).

(** ** The controller ([arcontroller.py]) *)

(** [q_data[k]] *)
Definition record_get (q_data : gmap string pyval) (k : string) : M pyval :=
  match q_data !! k with
  | Some v => ret v
  | None => raise (KeyError k)
  end.

(** [q_data.get(k, d)] *)
Definition record_get_default (q_data : gmap string pyval) (k : string) (d : pyval) : pyval :=
  default d (q_data !! k).

(** [try: body except KeyError as e: handler(e)] *)
Definition try_except_KeyError {A} (body : M A) (handler : string -> M A) : M A :=
  fun w => match body w with
           | (Raise (KeyError k), w') => handler k w'
           | r => r
           end.

(** One turn of the [for] loop of [_initialize_questions]. *)
Definition _initialize_question (box_manager : BoxManager) (q_data : gmap string pyval)
  : M BoxManager :=
  let q_type := record_get_default q_data "type" PNone in
  try_except_KeyError
    (if py_eq q_type (PStr "shortanswer") then
       let* question := record_get q_data "question" in
       let* answer := record_get q_data "correct_answer" in
       let* question :=
         new_ShortAnswer question answer (record_get_default q_data "case_sensitive" (PBool false)) in
       add_new_question box_manager question
     else if py_eq q_type (PStr "truefalse") then
       let* question := record_get q_data "question" in
       let* answer := record_get q_data "correct_answer" in
       let* question :=
         new_TrueFalse question answer (record_get_default q_data "explanation" (PStr EmptyString)) in
       add_new_question box_manager question
     else
       do print ("Unsupported question type: " +:+ py_str q_type +:+ ". Skipping this question.") then
       ret box_manager)
    (fun e =>
       do print ("Missing required field for question: " +:+ py_repr_str e
                 +:+ ". Skipping this question.") then
       ret box_manager).

Fixpoint _initialize_questions (box_manager : BoxManager) (question_data : list (gmap string pyval))
  : M BoxManager :=
  match question_data with
  | [] => ret box_manager
  | q_data :: rest =>
      let* box_manager := _initialize_question box_manager q_data in
      _initialize_questions box_manager rest
  end.

(** [ARController(question_data)]; the controller's only attribute is its
    box manager. *)
Definition ARController_init (question_data : list (gmap string pyval)) : M BoxManager :=
  _initialize_questions BoxManager_init question_data.

Inductive loop_exit := Continue | Break.

(** One turn of the [while True] loop of [start]. *)
Definition start_turn (box_manager : BoxManager) : M (BoxManager * loop_exit) :=
  let* question := get_next_question box_manager in
  match question with
  | None =>
      do print "All questions have been reviewed. Session complete!" then
      ret (box_manager, Break)
  | Some question =>
      let* text := ask question in
      do print text then
      let* user_answer := input "Your answer: " in
      if String.eqb (PyStr.lower user_answer) "q" then ret (box_manager, Break)
      else
        let* q := deref question in
        let* correct := lift (check_answer q user_answer) in
        let* answered_correctly :=
          (if correct then do print "Correct!" then ret true
           else do print (incorrect_feedback q) then ret false) in
        let* box_manager := move_question box_manager question answered_correctly in
        ret (box_manager, Continue)
  end.

(** The loop, cut off after [fuel] turns; [None] means it is still running. *)
Fixpoint start_loop (fuel : nat) (box_manager : BoxManager) : M (option BoxManager) :=
  match fuel with
  | O => ret None
  | S fuel' =>
      let* turn := start_turn box_manager in
      match turn with
      | (box_manager, Break) => ret (Some box_manager)
      | (box_manager, Continue) => start_loop fuel' box_manager
      end
  end.

Definition start (fuel : nat) (box_manager : BoxManager) : M (option BoxManager) :=
  do print "Type 'q' at any time to quit the session." then
  let* r := start_loop fuel box_manager in
  match r with
  | Some box_manager => do print "Thank you, goodbye!" then ret (Some box_manager)
  | None => ret None
  end.

(** *** The kinds of question record *)

Inductive record_kind :=
| WellFormed          (* a supported type with its prompt and a usable answer *)
| UnknownType         (* [type] absent or not a supported one *)
| MissingField        (* no [question] or no [correct_answer] *)
| NonBooleanAnswer.   (* a true/false record whose answer is not a [bool] *)

Definition has_required_fields (q_data : gmap string pyval) : bool :=
  match q_data !! "question", q_data !! "correct_answer" with
  | Some _, Some _ => true
  | _, _ => false
  end.

Definition classify (q_data : gmap string pyval) : record_kind :=
  let q_type := record_get_default q_data "type" PNone in
  if py_eq q_type (PStr "shortanswer") then
    if has_required_fields q_data then WellFormed else MissingField
  else if py_eq q_type (PStr "truefalse") then
    if has_required_fields q_data then
      if isinstance_bool (record_get_default q_data "correct_answer" PNone)
      then WellFormed else NonBooleanAnswer
    else MissingField
  else UnknownType.

Definition well_formed (q_data : gmap string pyval) : bool :=
  match classify q_data with WellFormed => true | _ => false end.

Definition non_boolean (q_data : gmap string pyval) : bool :=
  match classify q_data with NonBooleanAnswer => true | _ => false end.

(** ** Sequences of calls on one manager *)

Inductive call :=
| AddNewQuestion (question : ref)
| MoveQuestion (question : ref) (answered_correctly : bool)
| GetNextQuestion
| Ask (question : ref).

Definition run_call (box_manager : BoxManager) (c : call) : M BoxManager :=
  match c with
  | AddNewQuestion question => add_new_question box_manager question
  | MoveQuestion question answered_correctly =>
      move_question box_manager question answered_correctly
  | GetNextQuestion => do get_next_question box_manager then ret box_manager
  | Ask question => do ask question then ret box_manager
  end.

Fixpoint run_calls (box_manager : BoxManager) (cs : list call) : M BoxManager :=
  match cs with
  | [] => ret box_manager
  | c :: cs' =>
      let* box_manager := run_call box_manager c in
      run_calls box_manager cs'
  end.

(** The questions a sequence of calls registers. *)
Fixpoint registered_by (cs : list call) : list ref :=
  match cs with
  | [] => []
  | AddNewQuestion question :: cs' => question :: registered_by cs'
  | _ :: cs' => registered_by cs'
  end.

(** Correct use: every question exists ([n] objects are in the heap), is
    registered at most once, and is moved only after it was registered. *)
Fixpoint well_used (n : nat) (registered : list ref) (cs : list call) : bool :=
  match cs with
  | [] => true
  | AddNewQuestion question :: cs' =>
      (question <? n) && negb (existsb (Nat.eqb question) registered)
      && well_used n (question :: registered) cs'
  | MoveQuestion question _ :: cs' =>
      existsb (Nat.eqb question) registered && well_used n registered cs'
  | GetNextQuestion :: cs' => well_used n registered cs'
  | Ask question :: cs' => (question <? n) && well_used n registered cs'
  end.

(** ** Sample data: questions, records, a manager and a world *)

Module Demo.

Definition two_plus_two : Question :=
  mkQuestion 7%N (PStr "2+2?") (PStr "4") datetime_min (ShortAnswer (PBool false)).

Definition sky : Question :=
  mkQuestion 8%N (PStr "Sky is blue") (PBool true) datetime_min (TrueFalse (PStr EmptyString)).

Definition the_answer : Question :=
  mkQuestion 9%N (PStr "What is it?") (PStr "the answer") datetime_min (ShortAnswer (PBool false)).

(** The same questions later in a session: the first was asked ten seconds
    before the clock below starts, the third four hundred seconds before. *)
Definition heap3 : list Question :=
  [ mkQuestion 7%N (PStr "2+2?") (PStr "4") 62999999990000000%N (ShortAnswer (PBool false));
    sky;
    mkQuestion 9%N (PStr "What is it?") (PStr "the answer") 62999999600000000%N
      (ShortAnswer (PBool false)) ].

Definition missed : Box := mkBox "Missed Questions" [0; 2] (seconds 60).

Definition unasked : Box := mkBox "Unasked Questions" [1] (seconds 0).

(** A manager in mid-session: two questions missed, one still unasked. *)
Definition manager : BoxManager :=
  mkBoxManager (<[0 := missed]> (<[1 := unasked]> (_boxes BoxManager_init)))
               {[ Uuid.str 7%N := 0; Uuid.str 9%N := 0; Uuid.str 8%N := 1 ]}.

Definition good_record : gmap string pyval :=
  {[ "type" := PStr "shortanswer"; "question" := PStr "2+2?"; "correct_answer" := PStr "4" ]}.

(** A true/false record whose answer is the string "yes". *)
Definition non_boolean_record : gmap string pyval :=
  {[ "type" := PStr "truefalse"; "question" := PStr "Sky is blue";
     "correct_answer" := PStr "yes" ]}.

Definition unknown_type_record : gmap string pyval :=
  {[ "type" := PStr "essay"; "question" := PStr "Why?"; "correct_answer" := PStr "Because." ]}.

Definition missing_answer_record : gmap string pyval :=
  {[ "type" := PStr "truefalse"; "question" := PStr "Sky is blue" ]}.

(** A clock that starts in the year 1997 and advances one second per reading. *)
Definition world (h : list Question) (typed : list string) : World :=
  mkWorld h (fun n => 63000000000000000 + 1000000 * N.of_nat n)%N 0
          (fun n => 7 + N.of_nat n)%N (length h) typed [].

End Demo.

(** ** Predicates of the statements *)

(** No two objects of a heap carry the same identifier. *)
Definition distinct_ids (h : list Question) : Prop :=
  forall r1 r2 q1 q2,
    h !! r1 = Some q1 -> h !! r2 = Some q2 -> _id q1 = _id q2 -> r1 = r2.

(** Every reference of the list names an object of the heap. *)
Definition valid_refs (h : list Question) (l : list ref) : Prop :=
  Forall (fun r => is_Some (h !! r)) l.

(** [question.last_asked] read through a reference. *)
Definition last_asked_of (h : list Question) (r : ref) : datetime :=
  from_option _last_asked datetime_min (h !! r).

(** The question has waited at least the interval. *)
Definition due (h : list Question) (now : datetime) (interval : timedelta) (r : ref) : Prop :=
  (interval <= dt_sub now (last_asked_of h r))%Z.

(** The order [sorted] establishes on keyed items. *)
Definition key_le {A} (x y : datetime * A) : Prop := (fst x <= fst y)%N.

(** What [add_question] and [remove_question] do to the member list. *)

Definition added (h : list Question) (l : list ref) (r : ref) : list ref :=
  if list_contains h l r then l else l ++ [r].

Definition removed (h : list Question) (l : list ref) (r : ref) : list ref :=
  if list_contains h l r then list_remove h l r else l.

(** The boxes and the location index after a move. *)
Definition moved (h : list Question) (mgr : BoxManager) (r : ref) (key : string)
    (i j : nat) (bi bj : Box) : BoxManager :=
  mkBoxManager
    (<[j := mkBox (_name bj) (added h (_questions bj) r) (_priority_interval bj)]>
       (<[i := mkBox (_name bi) (removed h (_questions bi) r) (_priority_interval bi)]>
          (_boxes mgr)))
    (<[key := j]> (_question_location mgr)).

(** What the [k]-th box of the scan answers: it is asked after [k] earlier
    clock readings. *)
Definition query_at (w : World) (k : nat) (b : Box) : result (option ref) :=
  fst (get_next_priority_question b (with_ticks (ticks w + k) w)).

(** The identifiers in the heap are distinct 128-bit values. *)
Record heap_ok (h : list Question) : Prop := {
  heap_distinct : distinct_ids h;
  heap_valid : forall r q, h !! r = Some q -> Uuid.valid (_id q)
}.

(** Five boxes without repetitions; a question is in box [k] exactly when
    the location index maps its identifier to [k]. *)
Record consistent (h : list Question) (mgr : BoxManager) : Prop := {
  cons_five : length (_boxes mgr) = 5;
  cons_valid : forall k b, _boxes mgr !! k = Some b -> valid_refs h (_questions b);
  cons_nodup : forall k b, _boxes mgr !! k = Some b -> NoDup (_questions b);
  cons_member : forall k b r q,
      _boxes mgr !! k = Some b -> r ∈ _questions b -> h !! r = Some q ->
      _question_location mgr !! Uuid.str (_id q) = Some k;
  cons_located : forall r q k,
      h !! r = Some q -> _question_location mgr !! Uuid.str (_id q) = Some k ->
      exists b, _boxes mgr !! k = Some b /\ r ∈ _questions b
}.

(** Two heaps hold the same identifiers at the same addresses. *)
Definition same_ids (h h' : list Question) : Prop :=
  forall x, _id <$> (h' !! x) = _id <$> (h !! x).

(** The invariant together with the list of registered questions. *)
Record state_ok (h : list Question) (mgr : BoxManager) (registered : list ref) : Prop := {
  so_heap : heap_ok h;
  so_cons : consistent h mgr;
  so_exist : forall r, r ∈ registered -> is_Some (h !! r);
  so_reg : forall r q, h !! r = Some q ->
                       (r ∈ registered <-> is_Some (_question_location mgr !! Uuid.str (_id q)))
}.

Ltac valid_refs_tac :=
  repeat (apply Forall_cons_2; [eexists; reflexivity|]); apply Forall_nil_2.

(** ** Further vocabulary *)

(** ** Sequences of calls on one box *)

Inductive box_call :=
| AddQuestion (question : ref)
| RemoveQuestion (question : ref).

Definition run_box_call (box : Box) (c : box_call) : M Box :=
  match c with
  | AddQuestion question => add_question box question
  | RemoveQuestion question => remove_question box question
  end.

Fixpoint run_box_calls (box : Box) (cs : list box_call) : M Box :=
  match cs with
  | [] => ret box
  | c :: cs' =>
      let* box := run_box_call box c in
      run_box_calls box cs'
  end.

(** No two entries of a member list are the same object for [in]. *)
Definition no_repeats (h : list Question) (l : list ref) : Prop :=
  forall i j a b, i < j -> l !! i = Some a -> l !! j = Some b -> same_object h a b = false.

(** The computation reads nothing from the console. *)
Definition keeps_stdin {A} (m : M A) : Prop :=
  forall w, stdin (snd (m w)) = stdin w.

(** What [ask] returns for a question. *)
Definition ask_text (q : Question) : string :=
  match _class q with
  | ShortAnswer _ => py_str (_question q)
  | TrueFalse _ => py_str (_question q) +:+ " (True/False)"
  end.

(** The world once a question was presented: it is stamped with the clock
    reading, its text and the prompt are on the console. *)
Definition presented (question : ref) (q : Question) (w : World) : World :=
  with_stdout (stdout w ++ [ask_text q; "Your answer: "])
    (with_heap (<[question := with_last_asked (clock w (ticks w)) q]> (heap w))
       (with_ticks (S (ticks w)) w)).

(** The line [_log_box_counts] prints for a box. *)
Definition count_line (box : Box) : string :=
  _name box +:+ ": " +:+ pretty (Box_len box) +:+ " questions".

(** The next [n] identifiers that [uuid4] returns are 128-bit values that
    differ from one another and from every identifier in the heap. *)
Definition uuid4_fresh (w : World) (n : nat) : Prop :=
  (forall a, uuid4_calls w <= a < uuid4_calls w + n -> Uuid.valid (uuid4_src w a))
  /\ (forall a b, uuid4_calls w <= a < b -> b < uuid4_calls w + n ->
                  uuid4_src w a <> uuid4_src w b)
  /\ (forall a r q, uuid4_calls w <= a < uuid4_calls w + n -> heap w !! r = Some q ->
                    _id q <> uuid4_src w a).

(** Every key of the location index is the identifier of an object. *)
Definition keys_in_heap (h : list Question) (mgr : BoxManager) : Prop :=
  forall key k, _question_location mgr !! key = Some k ->
                exists r q, h !! r = Some q /\ key = Uuid.str (_id q).

(** The object that the loader builds from a record: the record's prompt
    and answer, never asked. *)
Definition built_from (q_data : gmap string pyval) (q : Question) : Prop :=
  Some (_question q) = q_data !! "question"
  /\ Some (_answer q) = q_data !! "correct_answer"
  /\ _last_asked q = datetime_min.

(** * Properties *)

(** ** Strings *)

Module PyStrFacts.
Import PyStr.

Lemma append_cons (c : ascii) (a b : string) : String c a +:+ b = String c (a +:+ b).
Proof. reflexivity. Qed.











Lemma sub_fixed (s : string) :
  forallb_str (fun c => isword c || isspace c) s = true -> sub_nonword_nonspace s = s.
Proof.
  induction s as [|c s IH]; simpl; [auto|].
  intros H. apply andb_prop in H as [Hc Hs]. rewrite Hc, IH; auto.
Qed.







End PyStrFacts.

(** ** Questions *)

Lemma question_eq_sym (p q : Question) : question_eq p q = question_eq q p.
Proof.
  unfold question_eq, isinstance_ShortAnswer, isinstance_TrueFalse.
  destruct (_class p), (_class q); try reflexivity; apply N.eqb_sym.
Qed.

Lemma question_eq_true (p q : Question) :
  question_eq p q = true <->
  _id p = _id q /\ isinstance_ShortAnswer p = isinstance_ShortAnswer q.
Proof.
  unfold question_eq, isinstance_ShortAnswer, isinstance_TrueFalse.
  destruct (_class p), (_class q); simpl; rewrite ?N.eqb_eq; intuition congruence.
Qed.

(** C6: [TrueFalse.check_answer] strips and lower-cases the response; the
    tokens true/t and false/f are compared with the canonical answer, and any
    other response raises [ValueError], so it is never scored as wrong. *)
Theorem truefalse_check_answer (q : Question) (e : pyval) (b : bool) (s : string) :
  _class q = TrueFalse e ->
  _answer q = PBool b ->
  let t := PyStr.lower (PyStr.strip s) in
  (t = "true" \/ t = "t" -> check_answer q s = Ok b)
  /\ (t = "false" \/ t = "f" -> check_answer q s = Ok (negb b))
  /\ (t <> "true" -> t <> "t" -> t <> "false" -> t <> "f" ->
      check_answer q s = Raise (ValueError "Answer must be 'True' or 'False'."))
  /\ (forall r, check_answer q s = Ok r ->
      t = "true" \/ t = "t" \/ t = "false" \/ t = "f").
Proof.
  intros Hc Ha t. unfold check_answer. rewrite Hc, Ha. fold t.
  unfold PyStr.in_list, existsb. rewrite !orb_false_r.
  destruct (String.eqb_spec t "true") as [E1|N1];
    destruct (String.eqb_spec t "t") as [E2|N2];
    destruct (String.eqb_spec t "false") as [E3|N3];
    destruct (String.eqb_spec t "f") as [E4|N4];
    try congruence; simpl;
    (split; [|split; [|split]];
     [ intros [?|?]; try congruence; destruct b; reflexivity
     | intros [?|?]; try congruence; destruct b; reflexivity
     | intros; congruence
     | intros r Hr; try discriminate; tauto ]).
Qed.

Lemma truefalse_check_answer_witness :
  check_answer Demo.sky "  FALSE " = Ok false
  /\ check_answer Demo.sky "maybe" = Raise (ValueError "Answer must be 'True' or 'False'.").
Proof.
  split.
  - apply (truefalse_check_answer Demo.sky (PStr EmptyString) true "  FALSE " eq_refl eq_refl).
    left. reflexivity.
  - apply (truefalse_check_answer Demo.sky (PStr EmptyString) true "maybe" eq_refl eq_refl);
      discriminate.
Defined.



Lemma question_eq_in_heap (h : list Question) (r1 r2 : ref) (p q : Question) :
  distinct_ids h -> h !! r1 = Some p -> h !! r2 = Some q ->
  question_eq p q = true <-> r1 = r2.
Proof.
  intros Hd H1 H2. rewrite question_eq_true. split.
  - intros [Hid _]. eapply Hd; eauto.
  - intros ->. assert (p = q) as -> by congruence. auto.
Qed.

(** C9: among the objects of a heap, which carry distinct generated
    identifiers, two questions are equal exactly when their identifiers are;
    the hash is a function of the identifier; a [ShortAnswer] never equals a
    [TrueFalse]; and two distinct objects are never equal, whatever their
    text. *)
Theorem question_eq_by_id (h : list Question) (r1 r2 : ref) (p q : Question) :
  distinct_ids h ->
  h !! r1 = Some p ->
  h !! r2 = Some q ->
  (question_eq p q = true <-> _id p = _id q)
  /\ question_hash p = uuid_hash (_id p)
  /\ (_id p = _id q -> question_hash p = question_hash q)
  /\ (isinstance_ShortAnswer p = true -> isinstance_TrueFalse q = true ->
      question_eq p q = false /\ question_eq q p = false)
  /\ (r1 <> r2 -> question_eq p q = false).
Proof.
  intros Hd H1 H2. repeat split.
  - intros H. apply question_eq_true in H. tauto.
  - intros H. rewrite (question_eq_in_heap h r1 r2); eauto.
  - unfold question_hash. congruence.
  - unfold question_eq, isinstance_TrueFalse, isinstance_ShortAnswer in *.
    destruct (_class p), (_class q); congruence.
  - unfold question_eq, isinstance_TrueFalse, isinstance_ShortAnswer in *.
    destruct (_class p), (_class q); congruence.
  - intros Hne. destruct (question_eq p q) eqn:E; [|reflexivity].
    rewrite (question_eq_in_heap h r1 r2) in E; eauto. contradiction.
Qed.

Lemma demo_heap_distinct : distinct_ids [Demo.two_plus_two; Demo.sky; Demo.the_answer].
Proof.
  intros r1 r2 q1 q2 H1 H2 E.
  destruct r1 as [|[|[|r1]]], r2 as [|[|[|r2]]]; simpl in *;
    try discriminate; try reflexivity;
    injection H1 as <-; injection H2 as <-; discriminate.
Qed.

Lemma question_eq_by_id_witness :
  (question_eq Demo.two_plus_two Demo.the_answer = true
   <-> _id Demo.two_plus_two = _id Demo.the_answer)
  /\ question_eq Demo.two_plus_two Demo.the_answer = false.
Proof.
  pose proof (question_eq_by_id [Demo.two_plus_two; Demo.sky; Demo.the_answer] 0 2
                Demo.two_plus_two Demo.the_answer demo_heap_distinct eq_refl eq_refl) as H.
  split; [apply H|]. apply H. discriminate.
Defined.

(** *** Where distinct identifiers come from *)

Lemma new_ShortAnswer_run (question answer case_sensitive : pyval) (w : World) :
  new_ShortAnswer question answer case_sensitive w
  = (Ok (length (heap w)),
     with_heap (heap w ++ [mkQuestion (uuid4_src w (uuid4_calls w)) question answer
                             datetime_min (ShortAnswer case_sensitive)])
               (with_uuid4_calls (S (uuid4_calls w)) w)).
Proof. reflexivity. Qed.

Lemma new_TrueFalse_run (question : pyval) (answer : bool) (explanation : pyval) (w : World) :
  new_TrueFalse question (PBool answer) explanation w
  = (Ok (length (heap w)),
     with_heap (heap w ++ [mkQuestion (uuid4_src w (uuid4_calls w)) question (PBool answer)
                             datetime_min (TrueFalse explanation)])
               (with_uuid4_calls (S (uuid4_calls w)) w)).
Proof. reflexivity. Qed.

(** A new object whose identifier no older object carries keeps the
    identifiers of the heap distinct: this is what [uuid4] without repeats
    gives to both constructors. *)
Lemma alloc_distinct_ids (h : list Question) (q : Question) :
  distinct_ids h ->
  (forall r p, h !! r = Some p -> _id p <> _id q) ->
  distinct_ids (h ++ [q]).
Proof.
  intros Hd Hfresh r1 r2 q1 q2 H1 H2 E.
  apply lookup_app_Some in H1 as [H1|[L1 H1]]; apply lookup_app_Some in H2 as [H2|[L2 H2]].
  - eapply Hd; eauto.
  - apply list_lookup_singleton_Some in H2 as [_ <-]. destruct (Hfresh r1 q1 H1 E).
  - apply list_lookup_singleton_Some in H1 as [_ <-]. symmetry in E.
    destruct (Hfresh r2 q2 H2 E).
  - apply list_lookup_singleton_Some in H1 as [Z1 _].
    apply list_lookup_singleton_Some in H2 as [Z2 _]. lia.
Qed.

(** ** Running computations *)

Lemma bind_ok {A B} (m : M A) (k : A -> M B) (w w' : World) (a : A) :
  m w = (Ok a, w') -> bind m k w = k a w'.
Proof. intros H. unfold bind. rewrite H. reflexivity. Qed.

Lemma bind_raise {A B} (m : M A) (k : A -> M B) (w w' : World) (e : exn) :
  m w = (Raise e, w') -> bind m k w = (Raise e, w').
Proof. intros H. unfold bind. rewrite H. reflexivity. Qed.

Lemma deref_ok (r : ref) (q : Question) (w : World) :
  heap w !! r = Some q -> deref r w = (Ok q, w).
Proof. intros H. unfold deref. rewrite H. reflexivity. Qed.

(** ** Boxes *)

Section Sorting.
Context {A : Type}.
Implicit Types (x y : datetime * A) (l : list (datetime * A)).

Lemma insert_by_key_perm x l : insert_by_key x l ≡ₚ x :: l.
Proof.
  induction l as [|y l IH]; simpl; [reflexivity|].
  destruct (fst x <=? fst y)%N; [reflexivity|].
  rewrite IH. apply Permutation_swap.
Qed.

Lemma sort_by_key_perm l : sort_by_key l ≡ₚ l.
Proof.
  induction l as [|x l IH]; simpl; [reflexivity|].
  rewrite insert_by_key_perm, IH. reflexivity.
Qed.

Lemma insert_by_key_sorted x l :
  StronglySorted key_le l -> StronglySorted key_le (insert_by_key x l).
Proof.
  induction l as [|y l IH]; simpl; intros Hs.
  - repeat constructor.
  - apply StronglySorted_cons in Hs as [Hy Hl].
    destruct (N.leb_spec (fst x) (fst y)) as [Hxy|Hxy].
    + apply StronglySorted_cons. split; [|apply StronglySorted_cons; auto].
      constructor; [exact Hxy|].
      eapply Forall_impl; [exact Hy|]. unfold key_le. intros; simpl in *; lia.
    + apply StronglySorted_cons. split; [|auto].
      rewrite insert_by_key_perm. constructor; [unfold key_le; lia|exact Hy].
Qed.

Lemma sort_by_key_sorted l : StronglySorted key_le (sort_by_key l).
Proof.
  induction l as [|x l IH]; simpl; [constructor|].
  apply insert_by_key_sorted, IH.
Qed.

End Sorting.

Lemma mapM_last_asked (l : list ref) (w : World) :
  valid_refs (heap w) l ->
  mapM (fun r => let* q := deref r in ret (_last_asked q, r)) l w
  = (Ok ((fun r => (last_asked_of (heap w) r, r)) <$> l), w).
Proof.
  induction 1 as [|r l [q Hq] Hl IH]; simpl; [reflexivity|].
  rewrite (bind_ok _ _ w w (_last_asked q, r));
    [|rewrite (bind_ok _ _ w w q (deref_ok r q w Hq)); reflexivity].
  rewrite (bind_ok _ _ _ _ _ IH). unfold ret, last_asked_of. rewrite Hq. reflexivity.
Qed.

(** What [sorted] returns: the same questions, earliest [last_asked] first. *)
Lemma sorted_by_last_asked_spec (l : list ref) (w : World) :
  valid_refs (heap w) l ->
  exists sl, sorted_by_last_asked l w = (Ok sl, w)
             /\ sl ≡ₚ l
             /\ StronglySorted (fun a b => (last_asked_of (heap w) a <= last_asked_of (heap w) b)%N) sl.
Proof.
  intros Hv. unfold sorted_by_last_asked.
  set (f := fun r => (last_asked_of (heap w) r, r)).
  exists (snd <$> sort_by_key (f <$> l)). split; [|split].
  - erewrite bind_ok; [|apply mapM_last_asked, Hv]. reflexivity.
  - rewrite sort_by_key_perm.
    assert (E : snd <$> (f <$> l) = l) by (clear; induction l as [|a l IH]; [reflexivity|]; rewrite !fmap_cons, IH; reflexivity).
    rewrite E. reflexivity.
  - assert (Hk : Forall (fun p => fst p = last_asked_of (heap w) (snd p)) (sort_by_key (f <$> l))).
    { rewrite sort_by_key_perm. apply Forall_fmap, Forall_true. reflexivity. }
    pose proof (sort_by_key_sorted (f <$> l)) as Hs.
    induction Hs as [|p ps Hs IH Hp]; simpl; [constructor|].
    apply Forall_cons in Hk as [Hp1 Hk]. constructor; [auto|].
    apply Forall_fmap. rewrite Forall_forall in Hk, Hp |- *.
    intros y Hy. simpl. specialize (Hk y Hy). specialize (Hp y Hy).
    unfold key_le in Hp. congruence.
Qed.

(** On a list sorted by [last_asked], only the head can be due. *)
Lemma first_due_sorted (now : datetime) (interval : timedelta) (sl : list ref) (w : World) :
  valid_refs (heap w) sl ->
  StronglySorted (fun a b => (last_asked_of (heap w) a <= last_asked_of (heap w) b)%N) sl ->
  exists res, first_due now interval sl w = (Ok res, w)
    /\ match res with
       | Some r => exists rest, sl = r :: rest /\ due (heap w) now interval r
       | None => Forall (fun r => ~ due (heap w) now interval r) sl
       end.
Proof.
  intros Hv Hs. induction Hs as [|r rest Hs IH Hr]; simpl.
  - exists None. split; [reflexivity|constructor].
  - apply Forall_cons in Hv as [[q Hq] Hv].
    rewrite (bind_ok _ _ w w q (deref_ok r q w Hq)).
    destruct (Z.geb_spec (dt_sub now (_last_asked q)) interval) as [Hd|Hd].
    + exists (Some r). split; [reflexivity|]. exists rest. split; [reflexivity|].
      unfold due, last_asked_of. rewrite Hq. simpl. lia.
    + destruct (IH Hv) as (res & Hres & Hspec).
      assert (Hnone : Forall (fun r' => ~ due (heap w) now interval r') (r :: rest)).
      { constructor.
        - unfold due, last_asked_of. rewrite Hq. simpl. lia.
        - eapply Forall_impl; [exact Hr|]. intros r' Hle. unfold due, dt_sub in *.
          assert (last_asked_of (heap w) r = _last_asked q) as E
              by (unfold last_asked_of; rewrite Hq; reflexivity).
          rewrite E in Hle. unfold dt_sub in Hd. lia. }
      exists None. split; [|exact Hnone].
      rewrite Hres. destruct res as [r'|]; [|reflexivity].
      destruct Hspec as (rest' & -> & Hdue).
      apply Forall_cons in Hnone as [_ Hnone]. apply Forall_cons in Hnone as [Hn _].
      contradiction.
Qed.

(** The result of one query of a box, with the clock reading it used. *)
Lemma get_next_priority_question_spec (b : Box) (w : World) :
  valid_refs (heap w) (_questions b) ->
  let now := clock w (ticks w) in
  exists res, get_next_priority_question b w = (Ok res, with_ticks (S (ticks w)) w)
    /\ match res with
       | Some r =>
           r ∈ _questions b
           /\ due (heap w) now (_priority_interval b) r
           /\ forall r', r' ∈ _questions b ->
                         (last_asked_of (heap w) r <= last_asked_of (heap w) r')%N
       | None => forall r', r' ∈ _questions b -> ~ due (heap w) now (_priority_interval b) r'
       end.
Proof.
  intros Hv now.
  destruct (sorted_by_last_asked_spec _ w Hv) as (sl & Hsl & Hperm & Hsorted).
  assert (Hv' : valid_refs (heap w) sl) by (unfold valid_refs; rewrite Hperm; exact Hv).
  destruct (first_due_sorted now (_priority_interval b) sl (with_ticks (S (ticks w)) w) Hv' Hsorted)
    as (res & Hres & Hspec).
  exists res. split.
  - unfold get_next_priority_question. rewrite (bind_ok _ _ _ _ _ Hsl).
    unfold bind at 1, datetime_now at 1. exact Hres.
  - simpl in Hspec. destruct res as [r|].
    + destruct Hspec as (rest & -> & Hdue). split; [|split; [exact Hdue|]].
      * rewrite <- Hperm. left.
      * intros r' Hr'. rewrite <- Hperm in Hr'.
        apply StronglySorted_cons in Hsorted as [Hall _].
        apply elem_of_cons in Hr' as [->|Hr']; [lia|].
        rewrite Forall_forall in Hall. auto.
    + intros r' Hr'. rewrite <- Hperm in Hr'. rewrite Forall_forall in Hspec. auto.
Qed.

(** C3: a box returns a question only if it has waited at least the box's
    interval; the question returned has the earliest [last_asked] of all
    members (a never-asked question carries [datetime.min], the earliest
    value there is, hence the longest wait); of two due members with
    different [last_asked] the later one is not returned; and when no member
    is due the result is [None]. *)
Theorem next_priority_question_spec (b : Box) (w : World) :
  valid_refs (heap w) (_questions b) ->
  let h := heap w in
  let now := clock w (ticks w) in
  let interval := _priority_interval b in
  exists res,
    get_next_priority_question b w = (Ok res, with_ticks (S (ticks w)) w)
    /\ (forall q, res = Some q ->
          q ∈ _questions b
          /\ (dt_sub now (last_asked_of h q) >= interval)%Z
          /\ forall q', q' ∈ _questions b -> (last_asked_of h q <= last_asked_of h q')%N)
    /\ (forall q1 q2, q1 ∈ _questions b -> q2 ∈ _questions b ->
          due h now interval q1 -> due h now interval q2 ->
          (last_asked_of h q1 < last_asked_of h q2)%N ->
          res <> Some q2
          /\ exists q, res = Some q /\ (last_asked_of h q <= last_asked_of h q1)%N)
    /\ (forall q q', last_asked_of h q = datetime_min ->
          (last_asked_of h q <= last_asked_of h q')%N
          /\ (dt_sub now (last_asked_of h q') <= dt_sub now (last_asked_of h q))%Z)
    /\ ((forall q, q ∈ _questions b -> ~ due h now interval q) -> res = None)
    /\ ((exists q, q ∈ _questions b /\ due h now interval q) -> exists q, res = Some q).
Proof.
  intros Hv h now interval.
  destruct (get_next_priority_question_spec b w Hv) as (res & Hrun & Hspec).
  fold h now interval in Hspec. exists res. split; [exact Hrun|].
  assert (Hsome : (exists q, q ∈ _questions b /\ due h now interval q) -> exists q, res = Some q).
  { intros (q & Hq & Hd). destruct res as [r|]; [eauto|]. destruct (Hspec q Hq Hd). }
  split; [|split; [|split; [|split]]].
  - intros q ->. destruct Hspec as (Hin & Hd & Hmin). unfold due in Hd.
    split; [exact Hin|]. split; [lia|exact Hmin].
  - intros q1 q2 H1 H2 D1 D2 Hlt.
    destruct Hsome as [q ->]; [eauto|]. destruct Hspec as (Hin & Hd & Hmin).
    split.
    + intros [= ->]. specialize (Hmin q1 H1). lia.
    + exists q. split; [reflexivity|]. apply Hmin, H1.
  - intros q q' Hq. unfold datetime_min in Hq. unfold dt_sub. rewrite Hq. lia.
  - intros Hnone. destruct res as [r|]; [|reflexivity].
    destruct Hspec as (Hin & Hd & _). destruct (Hnone r Hin Hd).
  - exact Hsome.
Qed.

Lemma next_priority_question_spec_witness :
  exists res,
    get_next_priority_question Demo.missed (Demo.world Demo.heap3 [])
    = (Ok res, with_ticks 1 (Demo.world Demo.heap3 []))
    /\ (forall q, res = Some q ->
          q ∈ [0; 2]
          /\ (dt_sub 63000000000000000%N (last_asked_of Demo.heap3 q) >= seconds 60)%Z
          /\ forall q', q' ∈ [0; 2] ->
                        (last_asked_of Demo.heap3 q <= last_asked_of Demo.heap3 q')%N).
Proof.
  destruct (next_priority_question_spec Demo.missed (Demo.world Demo.heap3 []))
    as (res & Hrun & Hsome & _).
  - simpl. valid_refs_tac.
  - exists res. split; [exact Hrun|exact Hsome].
Defined.

(** *** Membership as the lists see it *)

Lemma same_object_iff (h : list Question) (a b : ref) :
  distinct_ids h -> is_Some (h !! a) -> is_Some (h !! b) ->
  same_object h a b = true <-> a = b.
Proof.
  intros Hd [x Hx] [y Hy]. unfold same_object. rewrite Hx, Hy.
  rewrite orb_true_iff, Nat.eqb_eq, (question_eq_in_heap h a b x y Hd Hx Hy). tauto.
Qed.

Lemma list_contains_iff (h : list Question) (l : list ref) (r : ref) :
  distinct_ids h -> valid_refs h l -> is_Some (h !! r) ->
  list_contains h l r = true <-> r ∈ l.
Proof.
  intros Hd Hv Hr. unfold list_contains. rewrite existsb_exists. split.
  - intros (e & He & Hs). apply list_elem_of_In in He.
    apply same_object_iff in Hs as ->; auto.
    unfold valid_refs in Hv. rewrite Forall_forall in Hv. auto.
  - intros Hin. exists r. split; [apply list_elem_of_In, Hin|].
    apply same_object_iff; auto.
Qed.

Lemma list_remove_subset (h : list Question) (l : list ref) (r x : ref) :
  x ∈ list_remove h l r -> x ∈ l.
Proof.
  induction l as [|e l IH]; simpl; [auto|].
  destruct (same_object h e r); rewrite ?elem_of_cons; intuition.
Qed.

Lemma list_remove_NoDup (h : list Question) (l : list ref) (r : ref) :
  NoDup l -> NoDup (list_remove h l r).
Proof.
  induction 1 as [|e l Hnot Hnd IH]; simpl; [constructor|].
  destruct (same_object h e r); [exact Hnd|].
  constructor; [|exact IH]. intros H. apply Hnot. eapply list_remove_subset, H.
Qed.

Lemma list_remove_elem_of (h : list Question) (l : list ref) (r x : ref) :
  distinct_ids h -> valid_refs h l -> is_Some (h !! r) -> NoDup l ->
  x ∈ list_remove h l r <-> x ∈ l /\ x <> r.
Proof.
  intros Hd Hv Hr. induction Hv as [|e l He Hv IH]; intros Hnd; simpl.
  - rewrite elem_of_nil. tauto.
  - apply NoDup_cons in Hnd as [Hnot Hnd].
    destruct (same_object h e r) eqn:Hs.
    + apply same_object_iff in Hs as ->; auto.
      rewrite elem_of_cons. split; [|tauto].
      intros Hx. split; [tauto|]. intros ->. contradiction.
    + assert (e <> r) by (intros ->; rewrite (proj2 (same_object_iff h r r Hd Hr Hr)) in Hs;
                          [discriminate|reflexivity]).
      rewrite !elem_of_cons, IH by exact Hnd. split; [|tauto].
      intros [->|[? ?]]; tauto.
Qed.

Lemma add_question_run (b : Box) (r : ref) (w : World) :
  add_question b r w
  = (Ok (mkBox (_name b) (added (heap w) (_questions b) r) (_priority_interval b)), w).
Proof.
  unfold add_question, added, bind, get_heap, ret.
  destruct (list_contains (heap w) (_questions b) r); simpl; [destruct b|]; reflexivity.
Qed.

Lemma remove_question_run (b : Box) (r : ref) (w : World) :
  remove_question b r w
  = (Ok (mkBox (_name b) (removed (heap w) (_questions b) r) (_priority_interval b)), w).
Proof.
  unfold remove_question, removed, bind, get_heap, ret.
  destruct (list_contains (heap w) (_questions b) r); simpl; [|destruct b]; reflexivity.
Qed.

Lemma same_object_refl (h : list Question) (r : ref) : same_object h r r = true.
Proof. unfold same_object. rewrite Nat.eqb_refl. reflexivity. Qed.

Lemma added_contains (h : list Question) (l : list ref) (r : ref) :
  list_contains h (added h l r) r = true.
Proof.
  unfold added. destruct (list_contains h l r) eqn:E; [exact E|].
  unfold list_contains. rewrite existsb_app. simpl.
  rewrite same_object_refl, orb_true_r. reflexivity.
Qed.

Lemma added_elem_of (h : list Question) (l : list ref) (r x : ref) :
  distinct_ids h -> valid_refs h l -> is_Some (h !! r) ->
  x ∈ added h l r <-> x ∈ l \/ x = r.
Proof.
  intros Hd Hv Hr. unfold added. destruct (list_contains h l r) eqn:E.
  - apply list_contains_iff in E; auto. split; [tauto|]. intros [?| ->]; auto.
  - rewrite elem_of_app, list_elem_of_singleton. tauto.
Qed.

Lemma added_NoDup (h : list Question) (l : list ref) (r : ref) :
  distinct_ids h -> valid_refs h l -> is_Some (h !! r) ->
  NoDup l -> NoDup (added h l r).
Proof.
  intros Hd Hv Hr Hnd. unfold added. destruct (list_contains h l r) eqn:E; [exact Hnd|].
  apply NoDup_app. split; [exact Hnd|]. split; [|apply NoDup_singleton].
  intros x Hx Hx'. apply list_elem_of_singleton in Hx' as ->.
  apply (list_contains_iff h l r Hd Hv Hr) in Hx. congruence.
Qed.

Lemma removed_elem_of (h : list Question) (l : list ref) (r x : ref) :
  distinct_ids h -> valid_refs h l -> is_Some (h !! r) -> NoDup l ->
  x ∈ removed h l r <-> x ∈ l /\ x <> r.
Proof.
  intros Hd Hv Hr Hnd. unfold removed. destruct (list_contains h l r) eqn:E.
  - apply list_remove_elem_of; auto.
  - split; [|tauto]. intros Hx. split; [exact Hx|]. intros ->.
    apply (list_contains_iff h l r Hd Hv Hr) in Hx. congruence.
Qed.

Lemma removed_NoDup (h : list Question) (l : list ref) (r : ref) :
  NoDup l -> NoDup (removed h l r).
Proof.
  intros Hnd. unfold removed. destruct (list_contains h l r); [|exact Hnd].
  apply list_remove_NoDup, Hnd.
Qed.

Lemma removed_subset (h : list Question) (l : list ref) (r x : ref) :
  x ∈ removed h l r -> x ∈ l.
Proof.
  unfold removed. destruct (list_contains h l r); [apply list_remove_subset|auto].
Qed.

(** *** The manager *)

Lemma for_each_print_run {A} (f : A -> string) (l : list A) (w : World) :
  for_each (fun x => print (f x)) l w = (Ok tt, with_stdout (stdout w ++ (f <$> l)) w).
Proof.
  revert w. induction l as [|x l IH]; intros w; simpl.
  - unfold ret. rewrite app_nil_r. destruct w; reflexivity.
  - unfold bind, print. rewrite IH. simpl. unfold with_stdout. simpl.
    rewrite <- app_assoc. reflexivity.
Qed.

Lemma log_box_counts_run (mgr : BoxManager) (w : World) :
  exists out, _log_box_counts mgr w = (Ok tt, with_stdout (stdout w ++ out) w).
Proof. eexists. unfold _log_box_counts. apply for_each_print_run. Qed.

Lemma new_box_index_lt (i len : nat) (c : bool) :
  3 <= len -> new_box_index i c len < len.
Proof. unfold new_box_index. destruct c, (i =? 0); lia. Qed.

Lemma move_question_run (mgr : BoxManager) (r : ref) (q : Question) (c : bool)
    (i : nat) (bi bj : Box) (w : World) :
  heap w !! r = Some q ->
  _question_location mgr !! Uuid.str (_id q) = Some i ->
  _boxes mgr !! i = Some bi ->
  let j := new_box_index i c (length (_boxes mgr)) in
  <[i := mkBox (_name bi) (removed (heap w) (_questions bi) r) (_priority_interval bi)]>
    (_boxes mgr) !! j = Some bj ->
  exists out,
    move_question mgr r c w
    = (Ok (moved (heap w) mgr r (Uuid.str (_id q)) i j bi bj), with_stdout (stdout w ++ out) w).
Proof.
  intros Hq Hloc Hbi j Hbj. unfold move_question.
  rewrite (bind_ok _ _ w w q (deref_ok r q w Hq)).
  unfold dict_get. rewrite Hloc. rewrite (bind_ok _ _ w w i eq_refl).
  unfold list_get at 1. rewrite Hbi. rewrite (bind_ok _ _ w w bi eq_refl).
  rewrite (bind_ok _ _ w w _ (remove_question_run bi r w)).
  simpl. fold j. unfold list_get. rewrite Hbj. rewrite (bind_ok _ _ w w bj eq_refl).
  rewrite (bind_ok _ _ w w _ (add_question_run bj r w)).
  simpl.
  match goal with |- context [_log_box_counts ?m] =>
    destruct (log_box_counts_run m w) as [out Hout] end.
  exists out. rewrite (bind_ok _ _ _ _ _ Hout). reflexivity.
Qed.

Lemma list_contains_app (h : list Question) (l1 l2 : list ref) (r : ref) :
  list_contains h (l1 ++ l2) r = list_contains h l1 r || list_contains h l2 r.
Proof. unfold list_contains. apply existsb_app. Qed.

Lemma list_contains_none (h : list Question) (l : list ref) (r : ref) :
  Forall (fun e => same_object h e r = false) l -> list_contains h l r = false.
Proof.
  induction 1 as [|e l He _ IH]; [reflexivity|].
  unfold list_contains in *. simpl. rewrite He, IH. reflexivity.
Qed.

(** [remove] takes out the first match and nothing else. *)
Lemma removed_first (h : list Question) (l1 l2 : list ref) (x r : ref) :
  same_object h x r = true ->
  Forall (fun e => same_object h e r = false) l1 ->
  removed h (l1 ++ x :: l2) r = l1 ++ l2.
Proof.
  intros Hx Hl1. unfold removed. rewrite list_contains_app.
  replace (list_contains h (x :: l2) r) with true
    by (unfold list_contains; simpl; rewrite Hx; reflexivity).
  rewrite orb_true_r. induction Hl1 as [|e l1 He _ IH]; simpl.
  - rewrite Hx. reflexivity.
  - rewrite He, IH. reflexivity.
Qed.

Lemma added_new (h : list Question) (l : list ref) (r : ref) :
  list_contains h l r = false -> added h l r = l ++ [r].
Proof. unfold added. intros ->. reflexivity. Qed.

(** C1: [move_question] sends a registered question to the box given by its
    current index and the outcome alone: box 0 after a wrong answer, box 2
    after a right answer in box 0, box [min(i+1, 4)] after a right answer in
    box [i] for [i] from 1 to 3; afterwards the location index holds the new
    index and the new box contains the question.  The question leaves the
    box it was in: when box [i] held it once, at some position, that entry
    is taken out and the other members keep their order, the question is
    appended to the members of the new box, and when old and new box are
    the same one the question goes to its end. *)
Theorem move_question_spec (mgr : BoxManager) (question : ref) (q : Question)
    (correct : bool) (i : nat) (w : World) :
  heap w !! question = Some q ->
  _question_location mgr !! Uuid.str (_id q) = Some i ->
  length (_boxes mgr) = 5 ->
  i <= 4 ->
  exists mgr' w' j b,
    move_question mgr question correct w = (Ok mgr', w')
    /\ heap w' = heap w
    /\ j = new_box_index i correct 5
    /\ (correct = false -> j = 0)
    /\ (correct = true -> i = 0 -> j = 2)
    /\ (correct = true -> 1 <= i <= 3 -> j = Nat.min (i + 1) 4 /\ j = i + 1)
    /\ _question_location mgr' !! Uuid.str (_id q) = Some j
    /\ _boxes mgr' !! j = Some b
    /\ list_contains (heap w') (_questions b) question = true
    /\ length (_boxes mgr') = 5
    /\ (forall k, k <> i -> k <> j -> _boxes mgr' !! k = _boxes mgr !! k)
    /\ (forall bi l1 l2,
          _boxes mgr !! i = Some bi ->
          _questions bi = l1 ++ question :: l2 ->
          Forall (fun e => same_object (heap w) e question = false) (l1 ++ l2) ->
          (i <> j ->
             _boxes mgr' !! i = Some (mkBox (_name bi) (l1 ++ l2) (_priority_interval bi))
             /\ list_contains (heap w') (l1 ++ l2) question = false
             /\ forall bj, _boxes mgr !! j = Some bj ->
                  list_contains (heap w) (_questions bj) question = false ->
                  b = mkBox (_name bj) (_questions bj ++ [question]) (_priority_interval bj))
          /\ (i = j ->
              b = mkBox (_name bi) (l1 ++ l2 ++ [question]) (_priority_interval bi))).
Proof.
  intros Hq Hloc Hlen Hi.
  destruct (lookup_lt_is_Some_2 (_boxes mgr) i) as [bi Hbi]; [lia|].
  set (j := new_box_index i correct (length (_boxes mgr))).
  assert (Hj : j < 5)
    by (pose proof (new_box_index_lt i (length (_boxes mgr)) correct) as Hlt; fold j in Hlt; lia).
  set (boxes1 := <[i := mkBox (_name bi) (removed (heap w) (_questions bi) question)
                              (_priority_interval bi)]> (_boxes mgr)).
  destruct (lookup_lt_is_Some_2 boxes1 j) as [bj Hbj];
    [unfold boxes1; rewrite length_insert; lia|].
  destruct (move_question_run mgr question q correct i bi bj w Hq Hloc Hbi Hbj) as [out Hrun].
  eexists _, _, j, _. split; [exact Hrun|]. fold j boxes1.
  split; [reflexivity|]. split; [unfold j; rewrite Hlen; reflexivity|].
  assert (Hcases : j = new_box_index i correct 5) by (unfold j; rewrite Hlen; reflexivity).
  unfold new_box_index in Hcases.
  split; [intros ->; exact Hcases|].
  split; [intros -> ->; exact Hcases|].
  split; [intros -> Hr; destruct i; simpl in Hcases; lia|].
  unfold moved. simpl. fold boxes1.
  split; [apply lookup_insert_eq|].
  split; [apply list_lookup_insert_eq; unfold boxes1; rewrite length_insert; lia|].
  split; [apply added_contains|].
  split; [unfold boxes1; rewrite !length_insert; exact Hlen|].
  split.
  { intros k Hki Hkj. unfold boxes1.
    rewrite list_lookup_insert_ne by auto. rewrite list_lookup_insert_ne by auto. reflexivity. }
  intros bi' l1 l2 Hbi' Hsplit Hnone. rewrite Hbi in Hbi'. injection Hbi' as <-.
  assert (Hrem : removed (heap w) (_questions bi) question = l1 ++ l2).
  { rewrite Hsplit. apply removed_first; [apply same_object_refl|].
    apply Forall_app in Hnone. apply Hnone. }
  assert (Hgone : list_contains (heap w) (l1 ++ l2) question = false)
    by (apply list_contains_none, Hnone).
  split.
  - intros Hij. split; [|split; [exact Hgone|]].
    + rewrite list_lookup_insert_ne by auto. unfold boxes1.
      rewrite list_lookup_insert_eq by (apply lookup_lt_Some in Hbi; exact Hbi).
      rewrite Hrem. reflexivity.
    + intros bj' Hbj' Hnew. unfold boxes1 in Hbj.
      rewrite list_lookup_insert_ne in Hbj by auto. rewrite Hbj in Hbj'. injection Hbj' as <-.
      rewrite (added_new _ _ _ Hnew). reflexivity.
  - intros Hij. unfold boxes1 in Hbj. rewrite <- Hij in Hbj.
    rewrite list_lookup_insert_eq in Hbj by (apply lookup_lt_Some in Hbi; exact Hbi).
    injection Hbj as <-. simpl. rewrite Hrem, (added_new _ _ _ Hgone), <- app_assoc.
    reflexivity.
Qed.

Lemma move_question_spec_witness :
  exists mgr' w',
    move_question (mkBoxManager (<[1 := Demo.unasked]> (_boxes BoxManager_init))
                                {[ Uuid.str 8%N := 1 ]}) 1 false (Demo.world Demo.heap3 [])
    = (Ok mgr', w')
    /\ _question_location mgr' !! Uuid.str 8%N = Some 0
    /\ _boxes mgr' !! 0 = Some (mkBox "Missed Questions" [1] (seconds 60))
    /\ _boxes mgr' !! 1 = Some (mkBox "Unasked Questions" [] (seconds 0)).
Proof.
  destruct (move_question_spec
              (mkBoxManager (<[1 := Demo.unasked]> (_boxes BoxManager_init)) {[ Uuid.str 8%N := 1 ]})
              1 Demo.sky false 1 (Demo.world Demo.heap3 []))
    as (mgr' & w' & j & b & Hrun & _ & _ & Hj & _ & _ & Hloc & Hb & _ & _ & _ & Hmove);
    [reflexivity|apply lookup_singleton_eq|reflexivity|lia|].
  specialize (Hj eq_refl). subst j.
  destruct (Hmove Demo.unasked [] [] eq_refl eq_refl (Forall_nil_2 _)) as [Hne _].
  assert (Hij : 1 <> 0) by discriminate.
  destruct (Hne Hij) as (Hb1 & _ & Hb0).
  exists mgr', w'. split; [exact Hrun|]. split; [exact Hloc|]. split; [|exact Hb1].
  rewrite Hb. f_equal. apply (Hb0 (Box_init "Missed Questions" (seconds 60))); reflexivity.
Defined.

(** ** Identifiers as dictionary keys *)

Module UuidFacts.
Import Uuid.

Lemma of_hex_digits (k : nat) (n : N) :
  of_digits (hex_digits k n) = (n mod 16 ^ N.of_nat k)%N.
Proof.
  revert n. induction k as [|k IH]; intros n.
  - simpl. rewrite N.mod_1_r. reflexivity.
  - cbn [hex_digits of_digits]. rewrite IH, Nat2N.inj_succ, N.pow_succ_r'.
    rewrite N.Div0.mod_mul_r. reflexivity.
Qed.

Lemma hex_digits_small (k : nat) (n : N) : Forall (fun d => d < 16)%N (hex_digits k n).
Proof.
  revert n. induction k as [|k IH]; intros n; simpl; constructor; [|apply IH].
  apply N.mod_upper_bound. discriminate.
Qed.

Lemma hex_digits_inj (u v : UUID) :
  valid u -> valid v -> hex_digits 32 u = hex_digits 32 v -> u = v.
Proof.
  unfold valid. intros Hu Hv E. apply (f_equal of_digits) in E.
  rewrite !of_hex_digits in E.
  change (16 ^ N.of_nat 32)%N with (2 ^ 128)%N in E.
  rewrite !N.mod_small in E by assumption. exact E.
Qed.

Lemma hex_char_code (d : N) :
  (d < 16)%N ->
  N_of_ascii (hex_char d) = if (d <? 10)%N then (48 + d)%N else (87 + d)%N.
Proof.
  intros Hd. unfold hex_char.
  destruct (N.ltb_spec d 10); apply N_ascii_embedding; lia.
Qed.

Lemma hex_char_inj (d e : N) :
  (d < 16)%N -> (e < 16)%N -> hex_char d = hex_char e -> d = e.
Proof.
  intros Hd He E. apply (f_equal N_of_ascii) in E.
  rewrite !hex_char_code in E by assumption.
  destruct (N.ltb_spec d 10), (N.ltb_spec e 10); lia.
Qed.

Lemma fmap_hex_char_inj (l k : list N) :
  Forall (fun d => d < 16)%N l -> Forall (fun d => d < 16)%N k ->
  hex_char <$> l = hex_char <$> k -> l = k.
Proof.
  intros Hl. revert k. induction Hl as [|d l Hd Hl IH]; intros k Hk E.
  - destruct k; [reflexivity|discriminate].
  - destruct k as [|e k]; [discriminate|]. apply Forall_cons in Hk as [He Hk].
    rewrite !fmap_cons in E. injection E as E1 E2.
    f_equal; [apply hex_char_inj; assumption|apply IH; assumption].
Qed.

Lemma ungroup_group (ds : list ascii) :
  length ds = 32 ->
  ungroup (take 8 ds ++ dash :: take 4 (drop 8 ds) ++ dash :: take 4 (drop 12 ds)
           ++ dash :: take 4 (drop 16 ds) ++ dash :: drop 20 ds) = ds.
Proof.
  intros H. do 32 (destruct ds as [|? ds]; [discriminate H|]).
  destruct ds; [reflexivity|discriminate H].
Qed.

Lemma length_hex_digits (k : nat) (n : N) : length (hex_digits k n) = k.
Proof. revert n. induction k as [|k IH]; intros n; simpl; [|rewrite IH]; reflexivity. Qed.

(** Distinct identifiers have distinct keys. *)
Lemma str_inj (u v : UUID) : valid u -> valid v -> str u = str v -> u = v.
Proof.
  intros Hu Hv E. unfold str in E.
  apply (f_equal list_ascii_of_string) in E.
  rewrite !list_ascii_of_string_of_list_ascii in E.
  apply (f_equal ungroup) in E.
  rewrite !ungroup_group in E
    by (rewrite length_fmap, length_rev, length_hex_digits; reflexivity).
  apply fmap_hex_char_inj in E;
    [|apply Forall_rev, hex_digits_small|apply Forall_rev, hex_digits_small].
  apply (f_equal (@rev N)) in E. rewrite !rev_involutive in E.
  apply hex_digits_inj; assumption.
Qed.

End UuidFacts.

(** ** Scanning the boxes *)

Lemma with_ticks_same (w : World) : with_ticks (ticks w) w = w.
Proof. destruct w; reflexivity. Qed.

Lemma first_question_run (bs : list Box) (w : World) :
  Forall (fun b => valid_refs (heap w) (_questions b)) bs ->
  exists res n,
    first_question bs w = (Ok res, with_ticks (ticks w + n) w)
    /\ match res with
       | Some q =>
           exists k b, bs !! k = Some b /\ n = S k
                       /\ query_at w k b = Ok (Some q)
                       /\ forall j b', j < k -> bs !! j = Some b' -> query_at w j b' = Ok None
       | None =>
           n = length bs /\ forall j b', bs !! j = Some b' -> query_at w j b' = Ok None
       end.
Proof.
  intros Hv. revert w Hv. induction bs as [|b bs IH]; intros w Hv.
  - exists None, 0. rewrite Nat.add_0_r, with_ticks_same. simpl.
    split; [reflexivity|]. split; [reflexivity|]. intros j b' H. discriminate.
  - apply Forall_cons in Hv as [Hb Hv].
    destruct (get_next_priority_question_spec b w Hb) as (r0 & Hrun & Hspec).
    assert (Hq0 : query_at w 0 b = Ok r0).
    { unfold query_at. rewrite Nat.add_0_r, with_ticks_same, Hrun. reflexivity. }
    simpl. rewrite (bind_ok _ _ _ _ _ Hrun). destruct r0 as [q|].
    + exists (Some q), 1. split; [rewrite Nat.add_1_r; reflexivity|].
      exists 0, b. split; [reflexivity|]. split; [reflexivity|]. split; [exact Hq0|].
      intros j b' Hj. lia.
    + specialize (IH (with_ticks (S (ticks w)) w) Hv) as (res & n & Hrest & Hres).
      assert (Hshift : forall j b', query_at (with_ticks (S (ticks w)) w) j b' = query_at w (S j) b').
      { intros j b'. unfold query_at. simpl.
        replace (ticks w + S j) with (S (ticks w + j)) by lia. reflexivity. }
      exists res, (S n). split.
      * rewrite Hrest. simpl. replace (ticks w + S n) with (S (ticks w + n)) by lia. reflexivity.
      * destruct res as [q|].
        -- destruct Hres as (k & b' & Hk & -> & Hq & Hbefore).
           exists (S k), b'. split; [exact Hk|]. split; [reflexivity|].
           split; [rewrite <- Hshift; exact Hq|].
           intros [|j] b'' Hj Hl; simpl in Hl.
           ++ injection Hl as <-. exact Hq0.
           ++ rewrite <- Hshift. apply Hbefore; [lia|exact Hl].
        -- destruct Hres as (-> & Hall). split; [reflexivity|].
           intros [|j] b'' Hl; simpl in Hl.
           ++ injection Hl as <-. exact Hq0.
           ++ rewrite <- Hshift. apply Hall. exact Hl.
Qed.

Lemma all_but_last_lookup {A} (l : list A) (k : nat) :
  all_but_last l !! k = if decide (k < length l - 1) then l !! k else None.
Proof.
  unfold all_but_last. destruct (decide (k < length l - 1)).
  - apply lookup_take_lt. assumption.
  - apply lookup_take_ge. lia.
Qed.

Lemma all_but_last_insert_last {A} (l : list A) (x : A) :
  all_but_last (<[length l - 1 := x]> l) = all_but_last l.
Proof.
  unfold all_but_last. rewrite length_insert. apply take_insert_ge. lia.
Qed.

(** ** The invariant of the manager *)

Lemma valid_refs_elem (h : list Question) (l : list ref) (r : ref) :
  valid_refs h l -> r ∈ l -> is_Some (h !! r).
Proof. unfold valid_refs. rewrite Forall_forall. auto. Qed.

Lemma key_inj (h : list Question) (r1 r2 : ref) (q1 q2 : Question) :
  heap_ok h -> h !! r1 = Some q1 -> h !! r2 = Some q2 ->
  Uuid.str (_id q1) = Uuid.str (_id q2) -> r1 = r2.
Proof.
  intros [Hd Hv] H1 H2 E. apply (Hd r1 r2 q1 q2 H1 H2).
  apply UuidFacts.str_inj; eauto.
Qed.

(** The scan of all boxes but the last: it succeeds when their references
    are valid, and a question it returns is a due member of a scanned box. *)
Lemma get_next_question_run (mgr : BoxManager) (w : World) :
  (forall k b, k < length (_boxes mgr) - 1 -> _boxes mgr !! k = Some b ->
               valid_refs (heap w) (_questions b)) ->
  exists res n,
    get_next_question mgr w = (Ok res, with_ticks (ticks w + n) w)
    /\ n <= length (_boxes mgr) - 1
    /\ forall q, res = Some q ->
          exists k b, k < length (_boxes mgr) - 1
                      /\ _boxes mgr !! k = Some b
                      /\ q ∈ _questions b
                      /\ due (heap w) (clock w (ticks w + k)) (_priority_interval b) q.
Proof.
  intros Hv.
  assert (Hv' : Forall (fun b => valid_refs (heap w) (_questions b)) (all_but_last (_boxes mgr))).
  { apply Forall_lookup. intros k b Hk. rewrite all_but_last_lookup in Hk.
    destruct (decide (k < length (_boxes mgr) - 1)); [eauto|discriminate]. }
  destruct (first_question_run _ w Hv') as (res & n & Hrun & Hres).
  exists res, n. split; [exact Hrun|]. split.
  - destruct res as [q|].
    + destruct Hres as (k & b & Hk & -> & _). apply lookup_lt_Some in Hk.
      unfold all_but_last in Hk. rewrite length_take in Hk. lia.
    + destruct Hres as (-> & _). unfold all_but_last. rewrite length_take. lia.
  - intros q ->. destruct Hres as (k & b & Hk & _ & Hq & _).
    rewrite all_but_last_lookup in Hk.
    destruct (decide (k < length (_boxes mgr) - 1)) as [Hlt|]; [|discriminate].
    exists k, b. split; [exact Hlt|]. split; [exact Hk|].
    unfold query_at in Hq.
    destruct (get_next_priority_question_spec b (with_ticks (ticks w + k) w))
      as (r & Hr & Hspec); [apply (Hv k b Hlt Hk)|].
    rewrite Hr in Hq. simpl in Hq. injection Hq as ->. simpl in Hspec.
    split; apply Hspec.
Qed.

(** C2: [get_next_question] asks boxes 0, 1, 2, 3 in this order and returns
    the first answer that is not [None]; box 4 is not looked at, so a
    question that is only in box 4 is never returned; and when box 0 has a
    due question the result comes from box 0, whatever box 1 holds. *)
Theorem get_next_question_spec (mgr : BoxManager) (w : World) :
  length (_boxes mgr) = 5 ->
  (forall k b, k < 4 -> _boxes mgr !! k = Some b -> valid_refs (heap w) (_questions b)) ->
  exists res n,
    get_next_question mgr w = (Ok res, with_ticks (ticks w + n) w)
    /\ n <= 4
    /\ (forall q, res = Some q ->
          exists k b, k < 4 /\ _boxes mgr !! k = Some b /\ q ∈ _questions b
                      /\ query_at w k b = Ok (Some q)
                      /\ forall j b', j < k -> _boxes mgr !! j = Some b' ->
                                      query_at w j b' = Ok None)
    /\ (res = None ->
        forall k b, k < 4 -> _boxes mgr !! k = Some b -> query_at w k b = Ok None)
    /\ (forall b4,
          get_next_question
            (mkBoxManager (<[4 := b4]> (_boxes mgr)) (_question_location mgr)) w
          = get_next_question mgr w)
    /\ (forall q, (forall k b, k < 4 -> _boxes mgr !! k = Some b -> q ∉ _questions b) ->
                  res <> Some q)
    /\ (forall q b4, consistent (heap w) mgr ->
                     _boxes mgr !! 4 = Some b4 -> q ∈ _questions b4 -> res <> Some q)
    /\ (forall b0 q0, _boxes mgr !! 0 = Some b0 -> q0 ∈ _questions b0 ->
          due (heap w) (clock w (ticks w)) (_priority_interval b0) q0 ->
          exists q, res = Some q /\ q ∈ _questions b0 /\ query_at w 0 b0 = Ok (Some q)).
Proof.
  intros Hlen Hv.
  assert (Hlook : forall k, all_but_last (_boxes mgr) !! k
                            = if decide (k < 4) then _boxes mgr !! k else None).
  { intros k. rewrite all_but_last_lookup, Hlen. reflexivity. }
  assert (Hv' : Forall (fun b => valid_refs (heap w) (_questions b)) (all_but_last (_boxes mgr))).
  { apply Forall_lookup. intros k b Hk. rewrite Hlook in Hk.
    destruct (decide (k < 4)); [eauto|discriminate]. }
  destruct (first_question_run _ w Hv') as (res & n & Hrun & Hres).
  assert (Hfrom : forall q, res = Some q ->
            exists k b, k < 4 /\ _boxes mgr !! k = Some b /\ q ∈ _questions b
                        /\ query_at w k b = Ok (Some q)
                        /\ forall j b', j < k -> _boxes mgr !! j = Some b' ->
                                        query_at w j b' = Ok None).
  { intros q ->. destruct Hres as (k & b & Hk & _ & Hq & Hbefore).
    rewrite Hlook in Hk. destruct (decide (k < 4)) as [Hk4|]; [|discriminate].
    exists k, b. split; [exact Hk4|]. split; [exact Hk|]. split.
    - unfold query_at in Hq.
      destruct (get_next_priority_question_spec b (with_ticks (ticks w + k) w))
        as (r & Hr & Hspec); [apply (Hv k b Hk4 Hk)|].
      rewrite Hr in Hq. simpl in Hq. injection Hq as ->. apply Hspec.
    - split; [exact Hq|]. intros j b' Hj Hb'. apply Hbefore; [exact Hj|].
      rewrite Hlook. destruct (decide (j < 4)); [exact Hb'|lia]. }
  exists res, n. split; [exact Hrun|]. split.
  { destruct res as [q|].
    - destruct Hres as (k & b & Hk & -> & _). rewrite Hlook in Hk.
      destruct (decide (k < 4)); [lia|discriminate].
    - destruct Hres as (-> & _). unfold all_but_last. rewrite length_take. lia. }
  split; [exact Hfrom|]. split; [|split; [|split; [|split]]].
  - intros ->. destruct Hres as (_ & Hall). intros k b Hk Hb. apply Hall.
    rewrite Hlook. destruct (decide (k < 4)); [exact Hb|lia].
  - intros b4. unfold get_next_question. simpl.
    replace 4 with (length (_boxes mgr) - 1) by lia.
    rewrite all_but_last_insert_last. reflexivity.
  - intros q Hnot ->. destruct (Hfrom q eq_refl) as (k & b & Hk & Hb & Hin & _).
    exact (Hnot k b Hk Hb Hin).
  - intros q b4 Hc Hb4 Hin ->. destruct (Hfrom q eq_refl) as (k & b & Hk & Hb & Hin' & _).
    destruct (valid_refs_elem _ _ _ (cons_valid _ _ Hc 4 b4 Hb4) Hin) as [o Ho].
    pose proof (cons_member _ _ Hc 4 b4 q o Hb4 Hin Ho) as H4.
    pose proof (cons_member _ _ Hc k b q o Hb Hin' Ho) as Hk'.
    rewrite H4 in Hk'. injection Hk' as <-. lia.
  - intros b0 q0 Hb0 Hin Hdue.
    destruct (get_next_priority_question_spec b0 w) as (r & Hr & Hspec);
      [apply (Hv 0 b0); [lia|exact Hb0]|].
    assert (Hq0 : query_at w 0 b0 = Ok r).
    { unfold query_at. rewrite Nat.add_0_r, with_ticks_same, Hr. reflexivity. }
    destruct r as [q|]; [|destruct (Hspec q0 Hin Hdue)].
    exists q. split; [|split; [apply Hspec|exact Hq0]].
    destruct res as [q'|].
    + destruct (Hfrom q' eq_refl) as (k & b & Hk & Hb & _ & Hq & Hbefore).
      destruct k as [|k].
      * rewrite Hb0 in Hb. injection Hb as <-. congruence.
      * specialize (Hbefore 0 b0 ltac:(lia) Hb0). congruence.
    + destruct Hres as (_ & Hall). specialize (Hall 0 b0).
      rewrite Hlook in Hall. simpl in Hall. specialize (Hall Hb0). congruence.
Qed.

Lemma demo_manager_valid (k : nat) (b : Box) :
  _boxes Demo.manager !! k = Some b -> valid_refs Demo.heap3 (_questions b).
Proof.
  destruct k as [|[|[|[|[|k]]]]]; simpl; intros H; try discriminate;
    injection H as <-; simpl; valid_refs_tac.
Qed.

Lemma get_next_question_spec_witness :
  exists res n,
    get_next_question Demo.manager (Demo.world Demo.heap3 [])
    = (Ok res, with_ticks n (Demo.world Demo.heap3 []))
    /\ n <= 4
    /\ (forall q,
          (forall k b, k < 4 -> _boxes Demo.manager !! k = Some b -> q ∉ _questions b) ->
          res <> Some q).
Proof.
  destruct (get_next_question_spec Demo.manager (Demo.world Demo.heap3 []))
    as (res & n & Hrun & Hn & _ & _ & _ & Hnot & _).
  - reflexivity.
  - intros k b _ Hb. apply (demo_manager_valid k b Hb).
  - exists res, n. split; [exact Hrun|]. split; [exact Hn|exact Hnot].
Defined.

(** ** Registering a question *)

Lemma add_new_question_run (mgr : BoxManager) (r : ref) (q : Question) (b1 : Box) (w : World) :
  heap w !! r = Some q ->
  _boxes mgr !! 1 = Some b1 ->
  add_new_question mgr r w
  = (Ok (mkBoxManager
           (<[1 := mkBox (_name b1) (added (heap w) (_questions b1) r) (_priority_interval b1)]>
              (_boxes mgr))
           (<[Uuid.str (_id q) := 1]> (_question_location mgr))), w).
Proof.
  intros Hq Hb. unfold add_new_question, list_get. rewrite Hb.
  rewrite (bind_ok _ _ w w b1 eq_refl).
  rewrite (bind_ok _ _ w w _ (add_question_run b1 r w)).
  rewrite (bind_ok _ _ w w q (deref_ok r q w Hq)). reflexivity.
Qed.

(** C4: [add_new_question] puts the question into box 1 and records index 1
    for it; box 1 has interval zero and a new question carries
    [datetime.min], so the question is due at once: box 1 then always
    returns a never-asked question, and it returns this one when no other
    member is never-asked. *)
Theorem add_new_question_spec (mgr : BoxManager) (question : ref) (q : Question)
    (b : Box) (w : World) :
  heap w !! question = Some q ->
  _last_asked q = datetime_min ->
  distinct_ids (heap w) ->
  _priority_interval <$> _boxes mgr = _priority_interval <$> _boxes BoxManager_init ->
  _boxes mgr !! 1 = Some b ->
  valid_refs (heap w) (_questions b) ->
  exists mgr' b1,
    add_new_question mgr question w = (Ok mgr', w)
    /\ _boxes mgr' !! 1 = Some b1
    /\ question ∈ _questions b1
    /\ list_contains (heap w) (_questions b1) question = true
    /\ _question_location mgr' !! Uuid.str (_id q) = Some 1
    /\ _priority_interval b1 = seconds 0
    /\ (forall now, due (heap w) now (_priority_interval b1) question)
    /\ (forall w1, heap w1 = heap w ->
          exists r, get_next_priority_question b1 w1
                    = (Ok (Some r), with_ticks (S (ticks w1)) w1)
                    /\ last_asked_of (heap w) r = datetime_min
                    /\ ((forall r', r' ∈ _questions b -> r' <> question ->
                                    last_asked_of (heap w) r' <> datetime_min) ->
                        r = question)).
Proof.
  intros Hq Hla Hd Hiv Hb Hv.
  assert (Hsome : is_Some (heap w !! question)) by eauto.
  assert (Hlen : length (_boxes mgr) = 5).
  { apply (f_equal length) in Hiv. rewrite !length_fmap in Hiv. exact Hiv. }
  assert (Hb0 : _priority_interval b = seconds 0).
  { apply (f_equal (fun l => l !! 1)) in Hiv. rewrite list_lookup_fmap, Hb in Hiv.
    simpl in Hiv. congruence. }
  assert (Hdue : forall now, due (heap w) now (seconds 0) question).
  { intros now. unfold due, last_asked_of, dt_sub, seconds. rewrite Hq. simpl.
    rewrite Hla. unfold datetime_min. lia. }
  eexists _, _. split; [apply (add_new_question_run mgr question q b w Hq Hb)|].
  simpl. split; [apply list_lookup_insert_eq; lia|].
  assert (Hin : question ∈ added (heap w) (_questions b) question)
    by (apply added_elem_of; auto).
  assert (Hv1 : valid_refs (heap w) (added (heap w) (_questions b) question)).
  { unfold added. destruct (list_contains _ _ _); [exact Hv|].
    apply Forall_app. split; [exact Hv|]. constructor; [exact Hsome|constructor]. }
  split; [exact Hin|]. split; [apply added_contains|].
  split; [apply lookup_insert_eq|]. split; [exact Hb0|].
  split; [rewrite Hb0; exact Hdue|].
  intros w1 Hw1.
  destruct (get_next_priority_question_spec
              (mkBox (_name b) (added (heap w) (_questions b) question) (_priority_interval b)) w1)
    as (res & Hrun & Hspec); [rewrite Hw1; exact Hv1|].
  simpl in Hspec. rewrite Hw1, Hb0 in Hspec.
  destruct res as [r|]; [|destruct (Hspec question Hin (Hdue _))].
  destruct Hspec as (Hr & _ & Hmin).
  assert (Hr0 : last_asked_of (heap w) r = datetime_min).
  { specialize (Hmin question Hin). unfold last_asked_of at 2 in Hmin.
    rewrite Hq in Hmin. simpl in Hmin. rewrite Hla in Hmin.
    unfold datetime_min in *. lia. }
  exists r. split; [exact Hrun|]. split; [exact Hr0|].
  intros Hothers. destruct (decide (r = question)) as [|Hne]; [assumption|].
  apply added_elem_of in Hr as [Hr|Hr]; auto. destruct (Hothers r Hr Hne Hr0).
Qed.

Lemma add_new_question_spec_witness :
  exists mgr' b1,
    add_new_question BoxManager_init 1 (Demo.world [Demo.two_plus_two; Demo.sky] [])
    = (Ok mgr', Demo.world [Demo.two_plus_two; Demo.sky] [])
    /\ _boxes mgr' !! 1 = Some b1
    /\ 1 ∈ _questions b1.
Proof.
  destruct (add_new_question_spec BoxManager_init 1 Demo.sky
              (Box_init "Unasked Questions" (seconds 0))
              (Demo.world [Demo.two_plus_two; Demo.sky] []))
    as (mgr' & b1 & Hrun & Hb1 & Hin & _); try reflexivity.
  - intros r1 r2 q1 q2 H1 H2 E.
    destruct r1 as [|[|r1]], r2 as [|[|r2]]; simpl in *;
      try discriminate; try reflexivity;
      injection H1 as <-; injection H2 as <-; discriminate.
  - constructor.
  - exists mgr', b1. auto.
Defined.

(** ** The invariant is kept *)

Lemma consistent_init (h : list Question) : consistent h BoxManager_init.
Proof.
  split.
  - reflexivity.
  - intros k b H. destruct k as [|[|[|[|[|k]]]]]; simpl in H; try discriminate;
      injection H as <-; constructor.
  - intros k b H. destruct k as [|[|[|[|[|k]]]]]; simpl in H; try discriminate;
      injection H as <-; constructor.
  - intros k b r q H Hin. destruct k as [|[|[|[|[|k]]]]]; simpl in H; try discriminate;
      injection H as <-; simpl in Hin; apply elem_of_nil in Hin; contradiction.
  - intros r q k _ H. simpl in H. rewrite lookup_empty in H. discriminate.
Qed.

(** A step that puts [r] into box [j], takes it out of every other box,
    leaves all other questions where they are and records [j] for [r]. *)
Lemma consistent_update (h : list Question) (mgr mgr' : BoxManager)
    (r : ref) (q : Question) (j : nat) :
  heap_ok h -> consistent h mgr -> h !! r = Some q ->
  length (_boxes mgr') = 5 ->
  _question_location mgr' = <[Uuid.str (_id q) := j]> (_question_location mgr) ->
  j < 5 ->
  (forall k b', _boxes mgr' !! k = Some b' ->
     NoDup (_questions b')
     /\ exists b, _boxes mgr !! k = Some b
                  /\ forall x, x ∈ _questions b'
                               <-> (x <> r /\ x ∈ _questions b) \/ (x = r /\ k = j)) ->
  consistent h mgr'.
Proof.
  intros Hh Hc Hq Hlen Hloc Hj Hbox. split.
  - exact Hlen.
  - intros k b' Hb'. destruct (Hbox k b' Hb') as (_ & b & Hb & Hmem).
    apply Forall_forall. intros x Hx. apply Hmem in Hx as [[_ Hx]|[-> _]]; [|eauto].
    eapply valid_refs_elem; [eapply cons_valid; eauto|exact Hx].
  - intros k b' Hb'. apply (Hbox k b' Hb').
  - intros k b' x qx Hb' Hx Hqx. destruct (Hbox k b' Hb') as (_ & b & Hb & Hmem).
    rewrite Hloc. apply Hmem in Hx as [[Hne Hx]|[-> ->]].
    + rewrite lookup_insert_ne.
      * eapply cons_member; eauto.
      * intros E. apply Hne. symmetry. eapply key_inj; eauto.
    + rewrite Hq in Hqx. injection Hqx as <-. apply lookup_insert_eq.
  - intros x qx k Hqx Hk. rewrite Hloc in Hk.
    destruct (decide (x = r)) as [->|Hne].
    + rewrite Hq in Hqx. injection Hqx as <-. rewrite lookup_insert_eq in Hk.
      injection Hk as <-.
      destruct (lookup_lt_is_Some_2 (_boxes mgr') j) as [b' Hb']; [lia|].
      exists b'. split; [exact Hb'|].
      destruct (Hbox j b' Hb') as (_ & b & Hb & Hmem). apply Hmem. auto.
    + rewrite lookup_insert_ne in Hk
        by (intros E; apply Hne; symmetry; eapply key_inj; eauto).
      destruct (cons_located _ _ Hc x qx k Hqx Hk) as (b & Hb & Hx).
      destruct (lookup_lt_is_Some_2 (_boxes mgr') k) as [b' Hb'].
      { rewrite Hlen, <- (cons_five _ _ Hc). eapply lookup_lt_Some, Hb. }
      exists b'. split; [exact Hb'|].
      destruct (Hbox k b' Hb') as (_ & b0 & Hb0 & Hmem). apply Hmem.
      left. split; [exact Hne|]. rewrite Hb in Hb0. injection Hb0 as <-. exact Hx.
Qed.

Lemma add_new_question_consistent (mgr : BoxManager) (r : ref) (q : Question) (w : World) :
  heap_ok (heap w) -> consistent (heap w) mgr ->
  heap w !! r = Some q ->
  _question_location mgr !! Uuid.str (_id q) = None ->
  exists mgr',
    add_new_question mgr r w = (Ok mgr', w)
    /\ consistent (heap w) mgr'
    /\ _question_location mgr' = <[Uuid.str (_id q) := 1]> (_question_location mgr).
Proof.
  intros Hh Hc Hq Hnone.
  destruct (lookup_lt_is_Some_2 (_boxes mgr) 1) as [b1 Hb1];
    [rewrite (cons_five _ _ Hc); lia|].
  eexists. split; [apply (add_new_question_run mgr r q b1 w Hq Hb1)|].
  split; [|reflexivity].
  assert (Hv1 : valid_refs (heap w) (_questions b1)) by (eapply cons_valid; eauto).
  assert (Hn1 : NoDup (_questions b1)) by (eapply cons_nodup; eauto).
  apply (consistent_update (heap w) mgr _ r q 1 Hh Hc Hq); simpl.
  - rewrite length_insert. apply (cons_five _ _ Hc).
  - reflexivity.
  - lia.
  - intros k b' Hb'. destruct (decide (k = 1)) as [->|Hk].
    + rewrite list_lookup_insert_eq in Hb' by (rewrite (cons_five _ _ Hc); lia).
      injection Hb' as <-. simpl. split.
      * apply added_NoDup; eauto. apply Hh.
      * exists b1. split; [exact Hb1|]. intros x.
        rewrite added_elem_of; eauto; [|apply Hh].
        destruct (decide (x = r)); tauto.
    + rewrite list_lookup_insert_ne in Hb' by auto. split; [eapply cons_nodup; eauto|].
      exists b'. split; [exact Hb'|]. intros x. split; [|tauto].
      intros Hx. left. split; [|exact Hx]. intros ->.
      rewrite (cons_member _ _ Hc k b' r q Hb' Hx Hq) in Hnone. discriminate.
Qed.

Lemma removed_valid (h : list Question) (l : list ref) (r : ref) :
  valid_refs h l -> valid_refs h (removed h l r).
Proof.
  unfold valid_refs. rewrite !Forall_forall. intros H x Hx.
  apply H. eapply removed_subset, Hx.
Qed.

Lemma move_question_consistent (mgr : BoxManager) (r : ref) (q : Question) (c : bool)
    (i : nat) (w : World) :
  heap_ok (heap w) -> consistent (heap w) mgr ->
  heap w !! r = Some q ->
  _question_location mgr !! Uuid.str (_id q) = Some i ->
  exists mgr' out,
    move_question mgr r c w = (Ok mgr', with_stdout (stdout w ++ out) w)
    /\ consistent (heap w) mgr'
    /\ _question_location mgr'
       = <[Uuid.str (_id q) := new_box_index i c 5]> (_question_location mgr).
Proof.
  intros Hh Hc Hq Hloc.
  pose proof (cons_five _ _ Hc) as Hlen.
  destruct (cons_located _ _ Hc r q i Hq Hloc) as (bi & Hbi & Hri).
  assert (Hi : i < 5) by (rewrite <- Hlen; eapply lookup_lt_Some, Hbi).
  set (j := new_box_index i c (length (_boxes mgr))).
  assert (Hj : j < 5)
    by (pose proof (new_box_index_lt i (length (_boxes mgr)) c) as Hlt; fold j in Hlt; lia).
  set (bi' := mkBox (_name bi) (removed (heap w) (_questions bi) r) (_priority_interval bi)).
  destruct (lookup_lt_is_Some_2 (<[i := bi']> (_boxes mgr)) j) as [bj Hbj];
    [rewrite length_insert; lia|].
  destruct (move_question_run mgr r q c i bi bj w Hq Hloc Hbi Hbj) as [out Hrun].
  fold j in Hrun. exists (moved (heap w) mgr r (Uuid.str (_id q)) i j bi bj), out.
  split; [exact Hrun|]. split; [|unfold moved, j; rewrite Hlen; reflexivity].
  assert (Hdist : distinct_ids (heap w)) by apply Hh.
  assert (Hrs : is_Some (heap w !! r)) by eauto.
  assert (Hvi : valid_refs (heap w) (_questions bi)) by (eapply cons_valid; eauto).
  assert (Hni : NoDup (_questions bi)) by (eapply cons_nodup; eauto).
  assert (Hbj_spec :
    NoDup (_questions bj) /\ valid_refs (heap w) (_questions bj)
    /\ exists b, _boxes mgr !! j = Some b
                 /\ forall x, x ∈ _questions bj <-> x ∈ _questions b /\ (j = i -> x <> r)).
  { destruct (decide (j = i)) as [E|E].
    - rewrite E, list_lookup_insert_eq in Hbj by lia. injection Hbj as <-. simpl.
      split; [apply removed_NoDup, Hni|]. split; [apply removed_valid, Hvi|].
      exists bi. split; [rewrite E; exact Hbi|]. intros x.
      rewrite removed_elem_of by auto. tauto.
    - rewrite list_lookup_insert_ne in Hbj by auto.
      split; [eapply cons_nodup; eauto|]. split; [eapply cons_valid; eauto|].
      exists bj. split; [exact Hbj|]. intros x. tauto. }
  destruct Hbj_spec as (Hnj & Hvj & b & Hb & Hmemj).
  apply (consistent_update (heap w) mgr _ r q j Hh Hc Hq); unfold moved; simpl.
  - rewrite !length_insert. exact Hlen.
  - reflexivity.
  - exact Hj.
  - intros k b' Hb'. destruct (decide (k = j)) as [->|Hkj].
    + rewrite list_lookup_insert_eq in Hb' by (rewrite length_insert; lia).
      injection Hb' as <-. simpl. split; [apply added_NoDup; auto|].
      exists b. split; [exact Hb|]. intros x.
      rewrite added_elem_of, Hmemj by auto.
      destruct (decide (x = r)) as [->|]; [tauto|]. tauto.
    + rewrite list_lookup_insert_ne in Hb' by auto.
      destruct (decide (k = i)) as [->|Hki].
      * rewrite list_lookup_insert_eq in Hb' by lia. injection Hb' as <-. simpl.
        split; [apply removed_NoDup, Hni|]. exists bi. split; [exact Hbi|].
        intros x. rewrite removed_elem_of by auto. tauto.
      * rewrite list_lookup_insert_ne in Hb' by auto.
        split; [eapply cons_nodup; eauto|]. exists b'. split; [exact Hb'|].
        intros x. split; [|tauto]. intros Hx. left. split; [|exact Hx]. intros ->.
        rewrite (cons_member _ _ Hc k b' r q Hb' Hx Hq) in Hloc. congruence.
Qed.

(** *** Asking a question changes its time stamp and nothing else *)

Lemma same_ids_lookup (h h' : list Question) (x : ref) (q' : Question) :
  same_ids h h' -> h' !! x = Some q' -> exists q, h !! x = Some q /\ _id q = _id q'.
Proof.
  intros Hs Hx. specialize (Hs x). rewrite Hx in Hs. simpl in Hs.
  destruct (h !! x) as [q|]; [|discriminate]. simpl in Hs. injection Hs as E. eauto.
Qed.

Lemma same_ids_sym (h h' : list Question) : same_ids h h' -> same_ids h' h.
Proof. intros Hs x. symmetry. apply Hs. Qed.

Lemma same_ids_is_Some (h h' : list Question) (x : ref) :
  same_ids h h' -> is_Some (h !! x) -> is_Some (h' !! x).
Proof.
  intros Hs [q Hq]. specialize (Hs x). rewrite Hq in Hs.
  destruct (h' !! x); [eauto|discriminate].
Qed.

Lemma heap_ok_same_ids (h h' : list Question) : same_ids h h' -> heap_ok h -> heap_ok h'.
Proof.
  intros Hs [Hd Hv]. split.
  - intros r1 r2 q1 q2 H1 H2 E.
    destruct (same_ids_lookup h h' r1 q1 Hs H1) as (p1 & Hp1 & E1).
    destruct (same_ids_lookup h h' r2 q2 Hs H2) as (p2 & Hp2 & E2).
    apply (Hd r1 r2 p1 p2 Hp1 Hp2). congruence.
  - intros r q Hq. destruct (same_ids_lookup h h' r q Hs Hq) as (p & Hp & <-). eauto.
Qed.

Lemma consistent_same_ids (h h' : list Question) (mgr : BoxManager) :
  same_ids h h' -> consistent h mgr -> consistent h' mgr.
Proof.
  intros Hs Hc. split.
  - apply Hc.
  - intros k b Hb. eapply Forall_impl; [eapply cons_valid; eauto|].
    intros x. apply same_ids_is_Some, Hs.
  - apply Hc.
  - intros k b r q' Hb Hr Hq'.
    destruct (same_ids_lookup h h' r q' Hs Hq') as (q & Hq & <-).
    eapply cons_member; eauto.
  - intros r q' k Hq' Hk.
    destruct (same_ids_lookup h h' r q' Hs Hq') as (q & Hq & E).
    rewrite <- E in Hk. eapply cons_located; eauto.
Qed.

Lemma insert_same_ids (h : list Question) (r : ref) (q : Question) (t : datetime) :
  h !! r = Some q -> same_ids h (<[r := with_last_asked t q]> h).
Proof.
  intros Hq x. destruct (decide (x = r)) as [->|Hne].
  - rewrite list_lookup_insert_eq by (eapply lookup_lt_Some, Hq). rewrite Hq. reflexivity.
  - rewrite list_lookup_insert_ne by auto. reflexivity.
Qed.

Lemma ask_run (r : ref) (q : Question) (w : World) :
  heap w !! r = Some q ->
  exists text,
    ask r w = (Ok text,
               with_heap (<[r := with_last_asked (clock w (ticks w)) q]> (heap w))
                         (with_ticks (S (ticks w)) w)).
Proof.
  intros Hq. unfold ask. rewrite (bind_ok _ _ w w q (deref_ok r q w Hq)).
  unfold bind at 1, datetime_now at 1.
  unfold bind at 1, set_last_asked at 1. simpl. rewrite Hq.
  destruct (_class q); eexists; reflexivity.
Qed.

(** *** Every correctly used sequence of calls keeps the invariant *)

Lemma existsb_eqb_elem_of (r : ref) (l : list ref) :
  existsb (Nat.eqb r) l = true <-> r ∈ l.
Proof.
  rewrite existsb_exists. split.
  - intros (x & Hx & E). apply Nat.eqb_eq in E as ->. apply list_elem_of_In, Hx.
  - intros H. exists r. split; [apply list_elem_of_In, H|apply Nat.eqb_refl].
Qed.

Lemma state_ok_same_ids (h h' : list Question) (mgr : BoxManager) (reg : list ref) :
  same_ids h h' -> state_ok h mgr reg -> state_ok h' mgr reg.
Proof.
  intros Hs [Hh Hc He Hr]. split.
  - eapply heap_ok_same_ids; eauto.
  - eapply consistent_same_ids; eauto.
  - intros r Hin. eapply same_ids_is_Some; eauto.
  - intros r q' Hq'. destruct (same_ids_lookup h h' r q' Hs Hq') as (q & Hq & <-). auto.
Qed.

Lemma state_ok_located (h : list Question) (mgr : BoxManager) (reg : list ref)
    (r : ref) (q : Question) (j : nat) (mgr' : BoxManager) :
  state_ok h mgr reg -> h !! r = Some q ->
  consistent h mgr' ->
  _question_location mgr' = <[Uuid.str (_id q) := j]> (_question_location mgr) ->
  forall reg', (forall x, x ∈ reg' <-> x = r \/ x ∈ reg) -> state_ok h mgr' reg'.
Proof.
  intros [Hh Hc He Hr] Hq Hc' Hloc reg' Hreg'. split; [exact Hh|exact Hc'| |].
  - intros x Hx. apply Hreg' in Hx as [->|Hx]; eauto.
  - intros x qx Hqx. rewrite Hreg', Hloc, (Hr x qx Hqx).
    destruct (decide (x = r)) as [->|Hne].
    + rewrite Hq in Hqx. injection Hqx as <-. rewrite lookup_insert_eq.
      split; [eauto|auto].
    + rewrite lookup_insert_ne; [tauto|].
      intros E. apply Hne. symmetry. eapply key_inj; eauto.
Qed.

Lemma run_call_ok (n : nat) (c : call) (cs : list call) (w : World) (mgr : BoxManager)
    (reg : list ref) :
  state_ok (heap w) mgr reg -> length (heap w) = n ->
  well_used n reg (c :: cs) = true ->
  exists mgr' w' reg',
    run_call mgr c w = (Ok mgr', w')
    /\ state_ok (heap w') mgr' reg' /\ length (heap w') = n
    /\ (forall x, x ∈ reg' <-> x ∈ registered_by [c] \/ x ∈ reg)
    /\ well_used n reg' cs = true.
Proof.
  intros Hs Hn Hu. destruct c as [r|r a| |r]; simpl in Hu.
  - apply andb_prop in Hu as [Hu Hcs]. apply andb_prop in Hu as [Hr Hnew].
    apply Nat.ltb_lt in Hr. rewrite <- Hn in Hr.
    destruct (lookup_lt_is_Some_2 _ _ Hr) as [q Hq].
    assert (Hnone : _question_location mgr !! Uuid.str (_id q) = None).
    { destruct (_question_location mgr !! Uuid.str (_id q)) eqn:E; [|reflexivity].
      assert (r ∈ reg) as Hin by (apply (so_reg _ _ _ Hs r q Hq); rewrite E; eauto).
      apply existsb_eqb_elem_of in Hin. rewrite Hin in Hnew. discriminate. }
    destruct (add_new_question_consistent mgr r q w (so_heap _ _ _ Hs) (so_cons _ _ _ Hs) Hq Hnone)
      as (mgr' & Hrun & Hc' & Hloc).
    exists mgr', w, (r :: reg). split; [exact Hrun|].
    split; [|split; [exact Hn|split; [|exact Hcs]]].
    + eapply state_ok_located; eauto. intros x. apply elem_of_cons.
    + intros x. simpl. rewrite !elem_of_cons, elem_of_nil. tauto.
  - apply andb_prop in Hu as [Hr Hcs]. apply existsb_eqb_elem_of in Hr.
    destruct (so_exist _ _ _ Hs r Hr) as [q Hq].
    destruct (proj1 (so_reg _ _ _ Hs r q Hq) Hr) as [i Hi].
    destruct (move_question_consistent mgr r q a i w (so_heap _ _ _ Hs) (so_cons _ _ _ Hs) Hq Hi)
      as (mgr' & out & Hrun & Hc' & Hloc).
    exists mgr', (with_stdout (stdout w ++ out) w), reg. split; [exact Hrun|].
    split; [|split; [exact Hn|split; [|exact Hcs]]].
    + simpl. eapply state_ok_located; eauto. intros x. split; [auto|].
      intros [->|?]; auto.
    + intros x. simpl. rewrite elem_of_nil. tauto.
  - destruct (get_next_question_run mgr w) as (res & m & Hrun & _).
    { intros k b _ Hb. eapply cons_valid; [apply (so_cons _ _ _ Hs)|exact Hb]. }
    eexists mgr, _, reg. split; [simpl; rewrite (bind_ok _ _ _ _ _ Hrun); reflexivity|].
    simpl. split; [exact Hs|split; [exact Hn|split; [|exact Hu]]].
    intros x. simpl. rewrite elem_of_nil. tauto.
  - apply andb_prop in Hu as [Hr Hcs].
    apply Nat.ltb_lt in Hr. rewrite <- Hn in Hr.
    destruct (lookup_lt_is_Some_2 _ _ Hr) as [q Hq].
    destruct (ask_run r q w Hq) as [text Hrun].
    eexists mgr, _, reg. split; [simpl; rewrite (bind_ok _ _ _ _ _ Hrun); reflexivity|].
    simpl. split; [|split; [rewrite length_insert; exact Hn|split; [|exact Hcs]]].
    + eapply state_ok_same_ids; [apply insert_same_ids, Hq|exact Hs].
    + intros x. rewrite elem_of_nil. tauto.
Qed.

Lemma run_calls_ok (n : nat) (cs : list call) (w : World) (mgr : BoxManager) (reg : list ref) :
  state_ok (heap w) mgr reg -> length (heap w) = n ->
  well_used n reg cs = true ->
  exists mgr' w' reg',
    run_calls mgr cs w = (Ok mgr', w')
    /\ state_ok (heap w') mgr' reg'
    /\ (forall x, x ∈ reg' <-> x ∈ registered_by cs \/ x ∈ reg).
Proof.
  revert w mgr reg. induction cs as [|c cs IH]; intros w mgr reg Hs Hn Hu.
  - exists mgr, w, reg. split; [reflexivity|]. split; [exact Hs|].
    intros x. simpl. rewrite elem_of_nil. tauto.
  - destruct (run_call_ok n c cs w mgr reg Hs Hn Hu)
      as (mgr1 & w1 & reg1 & Hrun1 & Hs1 & Hn1 & Hreg1 & Hu1).
    destruct (IH w1 mgr1 reg1 Hs1 Hn1 Hu1) as (mgr' & w' & reg' & Hrun & Hs' & Hreg').
    exists mgr', w', reg'. split; [|split; [exact Hs'|]].
    + simpl. rewrite (bind_ok _ _ _ _ _ Hrun1). exact Hrun.
    + intros x. rewrite Hreg', Hreg1.
      destruct c; simpl; rewrite ?elem_of_cons, ?elem_of_nil; tauto.
Qed.

Lemma well_used_take (n m : nat) (reg : list ref) (cs : list call) :
  well_used n reg cs = true -> well_used n reg (take m cs) = true.
Proof.
  revert m reg. induction cs as [|c cs IH]; intros [|m] reg H; try reflexivity.
  destruct c; simpl in *; rewrite ?andb_true_iff in *; intuition auto.
Qed.

(** C5: start from a new manager and make any sequence of calls in which
    every question is registered once and moved only after that.  After
    every call, each registered question is in exactly one of the five
    boxes, once, and the location index maps its identifier to the index of
    that box. *)
Theorem one_box_and_index_agree (w : World) (cs : list call) (n : nat) :
  heap_ok (heap w) ->
  well_used (length (heap w)) [] cs = true ->
  exists mgr w',
    run_calls BoxManager_init (take n cs) w = (Ok mgr, w')
    /\ length (_boxes mgr) = 5
    /\ forall r, r ∈ registered_by (take n cs) ->
         exists q k b,
           heap w' !! r = Some q
           /\ _boxes mgr !! k = Some b
           /\ r ∈ _questions b
           /\ NoDup (_questions b)
           /\ (forall k' b', _boxes mgr !! k' = Some b' ->
                 (r ∈ _questions b' <-> k' = k)
                 /\ (list_contains (heap w') (_questions b') r = true <-> k' = k))
           /\ _question_location mgr !! Uuid.str (_id q) = Some k.
Proof.
  intros Hh Hu.
  assert (Hs0 : state_ok (heap w) BoxManager_init []).
  { split; [exact Hh|apply consistent_init| |].
    - intros r Hr. apply elem_of_nil in Hr. contradiction.
    - intros r q _. simpl. rewrite lookup_empty, elem_of_nil.
      split; [contradiction|]. intros [? ?]. discriminate. }
  destruct (run_calls_ok (length (heap w)) (take n cs) w BoxManager_init [] Hs0 eq_refl
              (well_used_take _ n _ _ Hu)) as (mgr & w' & reg & Hrun & Hs & Hreg).
  exists mgr, w'. split; [exact Hrun|].
  pose proof (so_cons _ _ _ Hs) as Hc. split; [apply Hc|].
  intros r Hr. assert (Hin : r ∈ reg) by (apply Hreg; auto).
  destruct (so_exist _ _ _ Hs r Hin) as [q Hq].
  destruct (proj1 (so_reg _ _ _ Hs r q Hq) Hin) as [k Hk].
  destruct (cons_located _ _ Hc r q k Hq Hk) as (b & Hb & Hrb).
  exists q, k, b. split; [exact Hq|]. split; [exact Hb|]. split; [exact Hrb|].
  split; [eapply cons_nodup; eauto|]. split; [|exact Hk].
  intros k' b' Hb'.
  assert (Hmem : r ∈ _questions b' <-> k' = k).
  { split.
    - intros Hrb'. pose proof (cons_member _ _ Hc k' b' r q Hb' Hrb' Hq) as Hk'.
      rewrite Hk in Hk'. injection Hk' as ->. reflexivity.
    - intros ->. rewrite Hb in Hb'. injection Hb' as <-. exact Hrb. }
  split; [exact Hmem|]. rewrite <- Hmem. apply list_contains_iff; eauto.
  - apply (so_heap _ _ _ Hs).
  - eapply cons_valid; eauto.
Qed.

Lemma demo_heap_ok : heap_ok [Demo.two_plus_two; Demo.sky; Demo.the_answer].
Proof.
  split; [exact demo_heap_distinct|].
  intros r q H. destruct r as [|[|[|r]]]; simpl in H; try discriminate;
    injection H as <-; reflexivity.
Qed.

Lemma one_box_and_index_agree_witness :
  exists mgr w',
    run_calls BoxManager_init
      (take 6 [AddNewQuestion 0; AddNewQuestion 1; GetNextQuestion; Ask 0;
               MoveQuestion 0 true; MoveQuestion 1 false; AddNewQuestion 2])
      (Demo.world [Demo.two_plus_two; Demo.sky; Demo.the_answer] [])
    = (Ok mgr, w')
    /\ length (_boxes mgr) = 5.
Proof.
  destruct (one_box_and_index_agree
              (Demo.world [Demo.two_plus_two; Demo.sky; Demo.the_answer] [])
              [AddNewQuestion 0; AddNewQuestion 1; GetNextQuestion; Ask 0;
               MoveQuestion 0 true; MoveQuestion 1 false; AddNewQuestion 2] 6
              demo_heap_ok eq_refl) as (mgr & w' & Hrun & Hlen & _).
  exists mgr, w'. split; [exact Hrun|exact Hlen].
Defined.

(** ** The session loop *)

(** C10: when the response to a presented question lower-cases to "q", the
    turn ends the loop with the manager it started with: no answer is
    checked, nothing is moved, nothing more is printed; but the question
    already carries the clock reading that [ask] took. *)
Theorem quit_leaves_boxes_but_stamps_question (mgr : BoxManager) (w : World)
    (question : ref) (n : nat) (q : Question) (user_answer : string) (rest : list string)
    (fuel : nat) :
  get_next_question mgr w = (Ok (Some question), with_ticks (ticks w + n) w) ->
  heap w !! question = Some q ->
  stdin w = user_answer :: rest ->
  PyStr.lower user_answer = "q" ->
  let now := clock w (ticks w + n) in
  exists text w',
    start_turn mgr w = (Ok (mgr, Break), w')
    /\ start_loop (S fuel) mgr w = (Ok (Some mgr), w')
    /\ heap w' = <[question := with_last_asked now q]> (heap w)
    /\ heap w' !! question = Some (with_last_asked now q)
    /\ _last_asked (with_last_asked now q) = now
    /\ (forall r, r <> question -> heap w' !! r = heap w !! r)
    /\ ticks w' = S (ticks w + n)
    /\ stdin w' = rest
    /\ stdout w' = stdout w ++ [text; "Your answer: "].
Proof.
  intros Hnext Hq Hin Hquit now.
  set (w1 := with_ticks (ticks w + n) w).
  assert (Hq1 : heap w1 !! question = Some q) by exact Hq.
  destruct (ask_run question q w1 Hq1) as [text Hask].
  set (w2 := with_heap (<[question := with_last_asked (clock w1 (ticks w1)) q]> (heap w1))
                       (with_ticks (S (ticks w1)) w1)) in Hask.
  assert (Hturn : start_turn mgr w
                  = (Ok (mgr, Break),
                     with_stdin rest (with_stdout (stdout w ++ [text; "Your answer: "]) w2))).
  { unfold start_turn. rewrite (bind_ok _ _ _ _ _ Hnext). fold w1.
    rewrite (bind_ok _ _ _ _ _ Hask).
    unfold bind at 1, print at 1. unfold bind at 1, input at 1. simpl.
    rewrite Hin, Hquit. simpl. rewrite <- app_assoc. reflexivity. }
  eexists text, _. split; [exact Hturn|].
  split; [simpl; rewrite (bind_ok _ _ _ _ _ Hturn); reflexivity|].
  simpl. split; [reflexivity|].
  split; [apply list_lookup_insert_eq; eapply lookup_lt_Some, Hq|].
  split; [reflexivity|].
  split; [intros r Hr; apply list_lookup_insert_ne; auto|].
  repeat split.
Qed.

Lemma quit_leaves_boxes_but_stamps_question_witness :
  exists text w',
    start_turn Demo.manager (Demo.world Demo.heap3 ["Q"; "4"]) = (Ok (Demo.manager, Break), w')
    /\ start_loop 1 Demo.manager (Demo.world Demo.heap3 ["Q"; "4"])
       = (Ok (Some Demo.manager), w')
    /\ heap w' = <[2 := with_last_asked 63000000001000000%N Demo.the_answer]> Demo.heap3
    /\ stdout w' = [text; "Your answer: "].
Proof.
  destruct (quit_leaves_boxes_but_stamps_question Demo.manager
              (Demo.world Demo.heap3 ["Q"; "4"]) 2 1
              (mkQuestion 9%N (PStr "What is it?") (PStr "the answer") 62999999600000000%N
                 (ShortAnswer (PBool false)))
              "Q" ["4"] 0 eq_refl eq_refl eq_refl eq_refl)
    as (text & w' & Hturn & Hloop & Hheap & _ & _ & _ & _ & _ & Hout).
  exists text, w'. split; [exact Hturn|]. split; [exact Hloop|].
  split; [exact Hheap|exact Hout].
Defined.
(** ** Loading the question records *)

(** A record of an unsupported type is reported and skipped. *)
Lemma initialize_unsupported_type (mgr : BoxManager) (q_data : gmap string pyval) (w : World) :
  py_eq (record_get_default q_data "type" PNone) (PStr "shortanswer") = false ->
  py_eq (record_get_default q_data "type" PNone) (PStr "truefalse") = false ->
  _initialize_question mgr q_data w
  = (Ok mgr,
     with_stdout (stdout w ++ ["Unsupported question type: "
                               +:+ py_str (record_get_default q_data "type" PNone)
                               +:+ ". Skipping this question."]) w).
Proof.
  intros H1 H2. unfold _initialize_question, try_except_KeyError.
  rewrite H1, H2. reflexivity.
Qed.

(** A record of a supported type that lacks the prompt or the answer is
    reported and skipped. *)
Lemma initialize_missing_field (mgr : BoxManager) (q_data : gmap string pyval) (w : World) :
  py_eq (record_get_default q_data "type" PNone) (PStr "shortanswer") = true
  \/ py_eq (record_get_default q_data "type" PNone) (PStr "truefalse") = true ->
  q_data !! "question" = None \/ q_data !! "correct_answer" = None ->
  exists field,
    (field = "question" \/ field = "correct_answer")
    /\ q_data !! field = None
    /\ _initialize_question mgr q_data w
       = (Ok mgr,
          with_stdout (stdout w ++ ["Missing required field for question: "
                                    +:+ py_repr_str field +:+ ". Skipping this question."]) w).
Proof.
  intros Ht Hf. unfold _initialize_question, try_except_KeyError.
  destruct (q_data !! "question") as [qt|] eqn:Eq.
  - destruct Hf as [Hf|Hf]; [discriminate|].
    exists "correct_answer". split; [auto|]. split; [exact Hf|].
    destruct (py_eq _ (PStr "shortanswer")).
    + unfold bind, record_get. rewrite Eq, Hf. reflexivity.
    + destruct Ht as [Ht|Ht]; [discriminate|]. rewrite Ht.
      unfold bind, record_get. rewrite Eq, Hf. reflexivity.
  - exists "question". split; [auto|]. split; [exact Eq|].
    destruct (py_eq _ (PStr "shortanswer")).
    + unfold bind, record_get. rewrite Eq. reflexivity.
    + destruct Ht as [Ht|Ht]; [discriminate|]. rewrite Ht.
      unfold bind, record_get. rewrite Eq. reflexivity.
Qed.

(** A true/false record whose answer is not a boolean raises [ValueError],
    which the [except KeyError] clause lets through. *)
Lemma initialize_non_boolean_answer (mgr : BoxManager) (q_data : gmap string pyval)
    (question answer : pyval) (w : World) :
  py_eq (record_get_default q_data "type" PNone) (PStr "truefalse") = true ->
  q_data !! "question" = Some question ->
  q_data !! "correct_answer" = Some answer ->
  isinstance_bool answer = false ->
  _initialize_question mgr q_data w
  = (Raise (ValueError "The answer must be a boolean (True or False)."),
     with_uuid4_calls (S (uuid4_calls w)) w).
Proof.
  intros Ht Hq Ha Hb. unfold _initialize_question, try_except_KeyError.
  assert (Hs : py_eq (record_get_default q_data "type" PNone) (PStr "shortanswer") = false).
  { destruct (record_get_default q_data "type" PNone) as [| | |s]; try discriminate.
    simpl in *. apply String.eqb_eq in Ht as ->. reflexivity. }
  rewrite Hs, Ht. unfold bind, record_get. rewrite Hq, Ha.
  unfold new_TrueFalse, bind, Question_init, bind, uuid4, ret. simpl. rewrite Hb. reflexivity.
Qed.

(** An exception in one record ends the whole loop. *)
Lemma initialize_questions_abort (mgr : BoxManager) (q_data : gmap string pyval)
    (rest : list (gmap string pyval)) (e : exn) (w w' : World) :
  _initialize_question mgr q_data w = (Raise e, w') ->
  _initialize_questions mgr (q_data :: rest) w = (Raise e, w').
Proof. intros H. simpl. apply (bind_raise _ _ _ _ _ H). Qed.

(** C7 (the code departs from it): a batch that starts with a true/false
    record whose answer is the string "yes" makes the load raise
    [ValueError]; the well-formed record after it is never added.  The same
    batch with a record of unknown type, or one that lacks its answer, in
    first place loads the well-formed record into box 1. *)
Theorem initialize_questions_aborts_on_non_boolean_answer :
  (exists w',
     ARController_init [Demo.non_boolean_record; Demo.good_record] (Demo.world [] [])
     = (Raise (ValueError "The answer must be a boolean (True or False)."), w')
     /\ heap w' = [] /\ stdout w' = [])
  /\ (exists mgr w',
        ARController_init [Demo.unknown_type_record; Demo.good_record] (Demo.world [] [])
        = (Ok mgr, w')
        /\ _questions <$> _boxes mgr = [[]; [0]; []; []; []]
        /\ stdout w' = ["Unsupported question type: essay. Skipping this question."])
  /\ (exists mgr w',
        ARController_init [Demo.missing_answer_record; Demo.good_record] (Demo.world [] [])
        = (Ok mgr, w')
        /\ _questions <$> _boxes mgr = [[]; [0]; []; []; []]
        /\ stdout w'
           = ["Missing required field for question: 'correct_answer'. Skipping this question."]).
Proof.
  split; [|split].
  - eexists. split; [|split].
    + unfold ARController_init. apply initialize_questions_abort.
      apply (initialize_non_boolean_answer _ _ (PStr "Sky is blue") (PStr "yes"));
        vm_compute; reflexivity.
    + reflexivity.
    + reflexivity.
  - eexists _, _. split; [reflexivity|]. split; vm_compute; reflexivity.
  - eexists _, _. split; [reflexivity|]. split; vm_compute; reflexivity.
Qed.

(** *** What the loader does by design *)

Lemma same_object_app (h : list Question) (q : Question) (e r : ref) :
  same_object h e r = true -> same_object (h ++ [q]) e r = true.
Proof.
  unfold same_object. intros H. apply orb_true_iff in H as [H|H];
    apply orb_true_iff; [left; exact H|right].
  destruct (h !! e) as [x|] eqn:Ee; [|discriminate].
  destruct (h !! r) as [y|] eqn:Er; [|discriminate].
  rewrite (lookup_app_l_Some _ _ _ _ Ee), (lookup_app_l_Some _ _ _ _ Er). exact H.
Qed.

Lemma list_contains_grow (h : list Question) (q : Question) (l : list ref) (r x : ref) :
  list_contains h l r = true ->
  list_contains (h ++ [q]) (added (h ++ [q]) l x) r = true.
Proof.
  intros H. apply existsb_exists in H as (e & He & Hs).
  apply existsb_exists. exists e. split; [|apply same_object_app, Hs].
  unfold added. destruct (list_contains _ l x); [exact He|].
  apply in_or_app. left. exact He.
Qed.

(** A well-formed record becomes a new object at the next address, which
    [add_new_question] puts into box 1. *)
Lemma initialize_well_formed (mgr : BoxManager) (q_data : gmap string pyval)
    (b1 : Box) (w : World) :
  well_formed q_data = true ->
  _boxes mgr !! 1 = Some b1 ->
  exists q,
    let h' := heap w ++ [q] in
    _initialize_question mgr q_data w
    = (Ok (mkBoxManager
             (<[1 := mkBox (_name b1) (added h' (_questions b1) (length (heap w)))
                           (_priority_interval b1)]> (_boxes mgr))
             (<[Uuid.str (_id q) := 1]> (_question_location mgr))),
       with_heap h' (with_uuid4_calls (S (uuid4_calls w)) w))
    /\ Some (_question q) = q_data !! "question"
    /\ Some (_answer q) = q_data !! "correct_answer"
    /\ _last_asked q = datetime_min
    /\ _id q = uuid4_src w (uuid4_calls w).
Proof.
  unfold well_formed, classify, has_required_fields, record_get_default.
  intros Hwf Hb1. unfold _initialize_question, try_except_KeyError, record_get_default.
  destruct (q_data !! "question") as [qt|] eqn:Eq;
    [|destruct (py_eq _ (PStr "shortanswer")); [discriminate|];
      destruct (py_eq _ (PStr "truefalse")); discriminate].
  destruct (q_data !! "correct_answer") as [a|] eqn:Ea;
    [|destruct (py_eq _ (PStr "shortanswer")); [discriminate|];
      destruct (py_eq _ (PStr "truefalse")); discriminate].
  set (w1 := with_uuid4_calls (S (uuid4_calls w)) w).
  assert (Hadd : forall q,
    add_new_question mgr (length (heap w)) (with_heap (heap w ++ [q]) w1)
    = (Ok (mkBoxManager
             (<[1 := mkBox (_name b1) (added (heap w ++ [q]) (_questions b1) (length (heap w)))
                           (_priority_interval b1)]> (_boxes mgr))
             (<[Uuid.str (_id q) := 1]> (_question_location mgr))),
       with_heap (heap w ++ [q]) w1)).
  { intros q. apply add_new_question_run; [|exact Hb1].
    simpl. rewrite lookup_app_r by lia. rewrite Nat.sub_diag. reflexivity. }
  destruct (py_eq _ (PStr "shortanswer")).
  - eexists (mkQuestion (uuid4_src w (uuid4_calls w)) qt a datetime_min (ShortAnswer _)).
    split; [|auto].
    unfold bind at 1 2, record_get at 1 2. rewrite Eq, Ea. unfold ret at 1 2.
    unfold bind at 1, new_ShortAnswer, bind at 1, Question_init, bind at 1, uuid4, ret, alloc.
    simpl. rewrite (Hadd (mkQuestion _ qt a datetime_min _)). reflexivity.
  - destruct (py_eq _ (PStr "truefalse")); [|discriminate]. simpl in Hwf.
    destruct (isinstance_bool a) eqn:Hbool; [|discriminate].
    eexists (mkQuestion (uuid4_src w (uuid4_calls w)) qt a datetime_min (TrueFalse _)).
    split; [|auto].
    unfold bind at 1 2, record_get at 1 2. rewrite Eq, Ea. unfold ret at 1 2.
    unfold bind at 1, new_TrueFalse, bind at 1, Question_init, bind at 1, uuid4, ret, alloc.
    simpl. rewrite Hbool. simpl. rewrite (Hadd (mkQuestion _ qt a datetime_min _)). reflexivity.
Qed.

Lemma classify_unknown_type (q_data : gmap string pyval) :
  classify q_data = UnknownType ->
  py_eq (record_get_default q_data "type" PNone) (PStr "shortanswer") = false
  /\ py_eq (record_get_default q_data "type" PNone) (PStr "truefalse") = false.
Proof.
  unfold classify.
  destruct (py_eq _ (PStr "shortanswer")); [destruct (has_required_fields _); discriminate|].
  destruct (py_eq _ (PStr "truefalse")); [|auto].
  destruct (has_required_fields _); [destruct (isinstance_bool _)|]; discriminate.
Qed.

Lemma classify_missing_field (q_data : gmap string pyval) :
  classify q_data = MissingField ->
  (py_eq (record_get_default q_data "type" PNone) (PStr "shortanswer") = true
   \/ py_eq (record_get_default q_data "type" PNone) (PStr "truefalse") = true)
  /\ (q_data !! "question" = None \/ q_data !! "correct_answer" = None).
Proof.
  unfold classify, has_required_fields.
  destruct (py_eq _ (PStr "shortanswer")).
  - destruct (q_data !! "question"); [|auto].
    destruct (q_data !! "correct_answer"); [discriminate|auto].
  - destruct (py_eq _ (PStr "truefalse")); [|discriminate].
    destruct (q_data !! "question"); [|auto].
    destruct (q_data !! "correct_answer"); [|auto].
    destruct (isinstance_bool _); discriminate.
Qed.

Lemma classify_non_boolean (q_data : gmap string pyval) :
  classify q_data = NonBooleanAnswer ->
  exists question answer,
    py_eq (record_get_default q_data "type" PNone) (PStr "truefalse") = true
    /\ q_data !! "question" = Some question
    /\ q_data !! "correct_answer" = Some answer
    /\ isinstance_bool answer = false.
Proof.
  unfold classify, has_required_fields, record_get_default.
  destruct (py_eq _ (PStr "shortanswer"));
    [destruct (q_data !! "question"), (q_data !! "correct_answer"); discriminate|].
  destruct (py_eq _ (PStr "truefalse")); [|discriminate].
  destruct (q_data !! "question") as [qt|]; [|discriminate].
  destruct (q_data !! "correct_answer") as [a|]; [|discriminate]. simpl.
  destruct (isinstance_bool a) eqn:E; [discriminate|].
  intros _. exists qt, a. repeat split; reflexivity || exact E.
Qed.

(** Without a non-boolean true/false answer in the batch the load runs to
    the end: every well-formed record becomes a new object that box 1
    contains, every other record costs one line of diagnostics. *)
Lemma initialize_questions_by_design (rs : list (gmap string pyval)) (mgr : BoxManager)
    (b1 : Box) (w : World) :
  _boxes mgr !! 1 = Some b1 ->
  Forall (fun q_data => non_boolean q_data = false) rs ->
  exists mgr' w' b1' objs,
    _initialize_questions mgr rs w = (Ok mgr', w')
    /\ heap w' = heap w ++ objs
    /\ length objs = length (List.filter well_formed rs)
    /\ length (stdout w') + length objs = length (stdout w) + length rs
    /\ _boxes mgr' !! 1 = Some b1'
    /\ (forall r, list_contains (heap w) (_questions b1) r = true ->
                  list_contains (heap w') (_questions b1') r = true)
    /\ (forall r, length (heap w) <= r < length (heap w') ->
                  list_contains (heap w') (_questions b1') r = true).
Proof.
  revert mgr b1 w. induction rs as [|d rs IH]; intros mgr b1 w Hb1 Hok.
  - exists mgr, w, b1, []. rewrite app_nil_r. simpl.
    repeat split; auto. intros r Hr. lia.
  - apply Forall_cons in Hok as [Hd Hok]. unfold non_boolean in Hd.
    simpl. destruct (classify d) eqn:Ec; [| | |discriminate].
    + assert (Hwf : well_formed d = true) by (unfold well_formed; rewrite Ec; reflexivity).
      rewrite Hwf. destruct (initialize_well_formed mgr d b1 w Hwf Hb1) as (q & Hrun & _).
      simpl in Hrun. rewrite (bind_ok _ _ _ _ _ Hrun).
      match type of Hrun with _ = (Ok ?m, ?w1) =>
        destruct (IH m (mkBox (_name b1)
                          (added (heap w ++ [q]) (_questions b1) (length (heap w)))
                          (_priority_interval b1)) w1)
          as (mgr' & w' & b1' & objs & Hrest & Hheap & Hlen & Hout & Hb1' & Hmono & Hnew)
      end.
      { simpl. apply list_lookup_insert_eq. eapply lookup_lt_Some, Hb1. }
      { exact Hok. }
      simpl in *. exists mgr', w', b1', (q :: objs).
      split; [exact Hrest|]. split; [rewrite Hheap, <- app_assoc; reflexivity|].
      split; [simpl; lia|]. split; [simpl; lia|]. split; [exact Hb1'|].
      split.
      * intros r Hr. apply Hmono. apply list_contains_grow, Hr.
      * intros r Hr. destruct (decide (r = length (heap w))) as [->|Hne].
        -- apply Hmono. apply added_contains.
        -- apply Hnew. rewrite length_app. simpl. lia.
    + assert (Hwf : well_formed d = false) by (unfold well_formed; rewrite Ec; reflexivity).
      rewrite Hwf. destruct (classify_unknown_type d Ec) as [H1 H2].
      rewrite (bind_ok _ _ _ _ _ (initialize_unsupported_type mgr d w H1 H2)).
      match goal with |- context [_initialize_questions mgr rs ?w1] =>
        destruct (IH mgr b1 w1 Hb1 Hok)
          as (mgr' & w' & b1' & objs & Hrest & Hheap & Hlen & Hout & Hb1' & Hmono & Hnew)
      end.
      simpl in *. rewrite length_app in Hout. simpl in Hout.
      exists mgr', w', b1', objs. repeat split; auto; lia.
    + assert (Hwf : well_formed d = false) by (unfold well_formed; rewrite Ec; reflexivity).
      rewrite Hwf. destruct (classify_missing_field d Ec) as [H1 H2].
      destruct (initialize_missing_field mgr d w H1 H2) as (field & _ & _ & Hrun).
      rewrite (bind_ok _ _ _ _ _ Hrun).
      match goal with |- context [_initialize_questions mgr rs ?w1] =>
        destruct (IH mgr b1 w1 Hb1 Hok)
          as (mgr' & w' & b1' & objs & Hrest & Hheap & Hlen & Hout & Hb1' & Hmono & Hnew)
      end.
      simpl in *. rewrite length_app in Hout. simpl in Hout.
      exists mgr', w', b1', objs. repeat split; auto; lia.
Qed.

(** The first true/false record with a non-boolean answer ends the load:
    the records after it are never looked at. *)
Lemma initialize_questions_first_non_boolean (pre post : list (gmap string pyval))
    (d : gmap string pyval) (mgr : BoxManager) (b1 : Box) (w : World) :
  _boxes mgr !! 1 = Some b1 ->
  Forall (fun q_data => non_boolean q_data = false) pre ->
  non_boolean d = true ->
  exists w',
    _initialize_questions mgr (pre ++ d :: post) w
    = (Raise (ValueError "The answer must be a boolean (True or False)."), w')
    /\ length (heap w') = length (heap w) + length (List.filter well_formed pre).
Proof.
  intros Hb1 Hpre Hd.
  assert (Hsplit : forall l1 l2 m v,
    _initialize_questions m (l1 ++ l2) v
    = bind (_initialize_questions m l1) (fun m' => _initialize_questions m' l2) v).
  { induction l1 as [|x l1 IHl]; intros l2 m v; simpl.
    - reflexivity.
    - unfold bind in *. destruct (_initialize_question m x v) as [[m1|e] v1]; [|reflexivity].
      apply IHl. }
  destruct (initialize_questions_by_design pre mgr b1 w Hb1 Hpre)
    as (mgr1 & w1 & b1' & objs & Hrun & Hheap & Hlen & _).
  rewrite Hsplit, (bind_ok _ _ _ _ _ Hrun).
  unfold non_boolean in Hd. destruct (classify d) eqn:Ec; try discriminate.
  destruct (classify_non_boolean d Ec) as (qt & a & Ht & Hq & Ha & Hbool).
  eexists. split.
  - apply initialize_questions_abort.
    apply (initialize_non_boolean_answer mgr1 d qt a w1 Ht Hq Ha Hbool).
  - simpl. rewrite Hheap, length_app, Hlen. reflexivity.
Qed.

(** * Further properties of the code *)

(** * Further properties of the code *)

(** ** A box on its own ([box.py]) *)

Lemma same_object_sym (h : list Question) (a b : ref) :
  same_object h a b = same_object h b a.
Proof.
  unfold same_object. rewrite (Nat.eqb_sym a b).
  destruct (h !! a), (h !! b); try reflexivity. rewrite question_eq_sym. reflexivity.
Qed.

Lemma question_eq_trans (p q r : Question) :
  question_eq p q = true -> question_eq q r = true -> question_eq p r = true.
Proof.
  rewrite !question_eq_true. intros [E1 C1] [E2 C2]. split; congruence.
Qed.

Lemma same_object_trans (h : list Question) (a b c : ref) :
  same_object h a b = true -> same_object h b c = true -> same_object h a c = true.
Proof.
  unfold same_object. intros H1 H2.
  apply orb_true_iff in H1 as [H1|H1]; [apply Nat.eqb_eq in H1 as ->; exact H2|].
  apply orb_true_iff in H2 as [H2|H2].
  { apply Nat.eqb_eq in H2 as <-. rewrite H1. apply orb_true_r. }
  destruct (h !! a) as [x|]; [|discriminate].
  destruct (h !! b) as [y|]; [|discriminate].
  destruct (h !! c) as [z|]; [|discriminate].
  rewrite (question_eq_trans x y z H1 H2). apply orb_true_r.
Qed.

Lemma list_contains_false (h : list Question) (l : list ref) (r : ref) :
  list_contains h l r = false <-> forall e, e ∈ l -> same_object h e r = false.
Proof.
  unfold list_contains. induction l as [|a l IH]; simpl.
  - split; [|reflexivity]. intros _ e He. apply elem_of_nil in He. contradiction.
  - rewrite orb_false_iff, IH. split.
    + intros [Ha Hl] e He. apply elem_of_cons in He as [->|He]; auto.
    + intros H. split; [apply H; left|]. intros e He. apply H. right. exact He.
Qed.

Lemma list_remove_last (h : list Question) (l : list ref) (r : ref) :
  list_contains h l r = false -> list_remove h (l ++ [r]) r = l.
Proof.
  induction l as [|e l IH]; simpl.
  - intros _. rewrite same_object_refl. reflexivity.
  - intros H. apply orb_false_iff in H as [He Hl]. rewrite He, (IH Hl). reflexivity.
Qed.

Lemma list_remove_split (h : list Question) (l : list ref) (r : ref) :
  list_contains h l r = true ->
  exists l1 e l2,
    l = l1 ++ e :: l2
    /\ same_object h e r = true
    /\ list_contains h l1 r = false
    /\ list_remove h l r = l1 ++ l2.
Proof.
  induction l as [|a l IH]; simpl; [discriminate|].
  destruct (same_object h a r) eqn:Ha.
  - intros _. exists [], a, l. auto.
  - simpl. intros H. destruct (IH H) as (l1 & e & l2 & -> & He & Hl1 & Hrem).
    exists (a :: l1), e, l2. simpl. rewrite Ha, Hl1, Hrem. auto.
Qed.

(** X1: adding a question a second time changes nothing: [add_question]
    leaves a box alone that already contains the question, appends it at
    the end otherwise, and in both cases the box contains it afterwards, so
    the count grows by at most one. *)
Theorem add_question_idempotent (b : Box) (question : ref) (w : World) :
  exists b1,
    add_question b question w = (Ok b1, w)
    /\ add_question b1 question w = (Ok b1, w)
    /\ list_contains (heap w) (_questions b1) question = true
    /\ (list_contains (heap w) (_questions b) question = true -> b1 = b)
    /\ (list_contains (heap w) (_questions b) question = false ->
        _questions b1 = _questions b ++ [question] /\ Box_len b1 = S (Box_len b))
    /\ _name b1 = _name b
    /\ _priority_interval b1 = _priority_interval b.
Proof.
  eexists. split; [apply add_question_run|].
  split.
  - rewrite add_question_run. simpl. unfold added at 1.
    rewrite added_contains. reflexivity.
  - simpl. split; [apply added_contains|]. unfold added, Box_len.
    destruct (list_contains (heap w) (_questions b) question); simpl.
    + split; [intros _; destruct b; reflexivity|]. split; [discriminate|auto].
    + split; [discriminate|]. split; [|auto]. intros _. rewrite length_app. simpl.
      split; [reflexivity|lia].
Qed.

(** X2: removing a question right after adding it to a box that did not
    contain it gives the box back as it was; removing a question the box
    does not contain changes nothing. *)
Theorem remove_question_undoes_add (b : Box) (question : ref) (w : World) :
  list_contains (heap w) (_questions b) question = false ->
  remove_question b question w = (Ok b, w)
  /\ exists b1, add_question b question w = (Ok b1, w)
                /\ remove_question b1 question w = (Ok b, w).
Proof.
  intros H. split.
  - rewrite remove_question_run. unfold removed. rewrite H. destruct b; reflexivity.
  - eexists. split; [apply add_question_run|].
    rewrite remove_question_run. simpl. unfold added. rewrite H.
    unfold removed. replace (list_contains (heap w) (_questions b ++ [question]) question)
      with true.
    + rewrite (list_remove_last _ _ _ H). destruct b; reflexivity.
    + symmetry. unfold list_contains. rewrite existsb_app. simpl.
      rewrite same_object_refl. apply orb_true_r.
Qed.

Lemma remove_question_undoes_add_witness :
  remove_question Demo.unasked 0 (Demo.world Demo.heap3 [])
  = (Ok Demo.unasked, Demo.world Demo.heap3 [])
  /\ exists b1, add_question Demo.unasked 0 (Demo.world Demo.heap3 []) = (Ok b1, Demo.world Demo.heap3 [])
                /\ remove_question b1 0 (Demo.world Demo.heap3 [])
                   = (Ok Demo.unasked, Demo.world Demo.heap3 []).
Proof.
  apply (remove_question_undoes_add Demo.unasked 0 (Demo.world Demo.heap3 [])).
  reflexivity.
Defined.

Lemma no_repeats_app (h : list Question) (l : list ref) (r : ref) :
  no_repeats h l -> list_contains h l r = false -> no_repeats h (l ++ [r]).
Proof.
  intros Hn Hc i j a b Hij Ha Hb.
  apply lookup_app_Some in Hb as [Hb|[Hlen Hb]].
  - apply lookup_app_Some in Ha as [Ha|[Hlen Ha]].
    + eapply Hn; eauto.
    + apply lookup_lt_Some in Hb. lia.
  - apply list_lookup_singleton_Some in Hb as [Hj <-].
    apply lookup_app_Some in Ha as [Ha|[Hlen' Ha]].
    + apply (proj1 (list_contains_false h l r) Hc). eapply list_elem_of_lookup_2, Ha.
    + apply list_lookup_singleton_Some in Ha as [Hz _]. lia.
Qed.

Lemma no_repeats_delete (h : list Question) (l1 l2 : list ref) (e : ref) :
  no_repeats h (l1 ++ e :: l2) ->
  no_repeats h (l1 ++ l2) /\ forall x, x ∈ l1 ++ l2 -> same_object h x e = false.
Proof.
  intros Hn. split.
  - intros i j a b Hij Ha Hb.
    assert (Hshift : forall k x, (l1 ++ l2) !! k = Some x ->
              (l1 ++ e :: l2) !! (if decide (k < length l1) then k else S k) = Some x).
    { intros k x Hk. destruct (decide (k < length l1)).
      - rewrite lookup_app_l in Hk |- * by assumption. exact Hk.
      - rewrite lookup_app_r in Hk |- * by lia.
        replace (S k - length l1) with (S (k - length l1)) by lia. exact Hk. }
    apply Hshift in Ha, Hb. eapply Hn; [|exact Ha|exact Hb].
    destruct (decide (i < length l1)), (decide (j < length l1)); lia.
  - intros x Hx. apply elem_of_app in Hx as [Hx|Hx].
    + apply list_elem_of_lookup in Hx as [i Hi].
      apply (Hn i (length l1) x e).
      * eapply lookup_lt_Some, Hi.
      * rewrite lookup_app_l; [exact Hi|eapply lookup_lt_Some, Hi].
      * rewrite lookup_app_r by lia. rewrite Nat.sub_diag. reflexivity.
    + apply list_elem_of_lookup in Hx as [i Hi]. rewrite same_object_sym.
      apply (Hn (length l1) (S (length l1 + i)) e x).
      * lia.
      * rewrite lookup_app_r by lia. rewrite Nat.sub_diag. reflexivity.
      * rewrite lookup_app_r by lia.
        replace (S (length l1 + i) - length l1) with (S i) by lia. exact Hi.
Qed.

Lemma run_box_call_no_repeats (b : Box) (c : box_call) (w : World) :
  no_repeats (heap w) (_questions b) ->
  exists b1,
    run_box_call b c w = (Ok b1, w)
    /\ no_repeats (heap w) (_questions b1)
    /\ match c with
       | AddQuestion r => list_contains (heap w) (_questions b1) r = true
       | RemoveQuestion r => list_contains (heap w) (_questions b1) r = false
       end.
Proof.
  intros Hn. destruct c as [r|r]; simpl.
  - eexists. split; [apply add_question_run|]. simpl. split; [|apply added_contains].
    unfold added. destruct (list_contains (heap w) (_questions b) r) eqn:E; [exact Hn|].
    apply no_repeats_app; assumption.
  - eexists. split; [apply remove_question_run|]. simpl. unfold removed.
    destruct (list_contains (heap w) (_questions b) r) eqn:E; [|auto].
    destruct (list_remove_split _ _ _ E) as (l1 & e & l2 & Hl & He & Hl1 & ->).
    rewrite Hl in Hn. destruct (no_repeats_delete _ _ _ _ Hn) as [Hn' Hne].
    split; [exact Hn'|]. apply list_contains_false. intros x Hx.
    destruct (same_object (heap w) x r) eqn:Hxr; [|reflexivity].
    rewrite <- (Hne x Hx). symmetry.
    apply (same_object_trans _ x r e Hxr). rewrite same_object_sym. exact He.
Qed.

(** X3: however [add_question] and [remove_question] are called on a new
    box, the box never holds the same question twice, and right after
    [remove_question] the box no longer contains the question. *)
Theorem box_never_holds_a_question_twice (name : string) (interval : timedelta)
    (cs : list box_call) (w : World) :
  exists b,
    run_box_calls (Box_init name interval) cs w = (Ok b, w)
    /\ no_repeats (heap w) (_questions b)
    /\ NoDup (_questions b)
    /\ (forall cs' r, cs = cs' ++ [RemoveQuestion r] ->
                      list_contains (heap w) (_questions b) r = false)
    /\ (forall cs' r, cs = cs' ++ [AddQuestion r] ->
                      list_contains (heap w) (_questions b) r = true).
Proof.
  assert (Hgen : forall cs b0, no_repeats (heap w) (_questions b0) ->
    exists b, run_box_calls b0 cs w = (Ok b, w)
      /\ no_repeats (heap w) (_questions b)
      /\ (forall cs' r, cs = cs' ++ [RemoveQuestion r] ->
                        list_contains (heap w) (_questions b) r = false)
      /\ (forall cs' r, cs = cs' ++ [AddQuestion r] ->
                        list_contains (heap w) (_questions b) r = true)).
  { clear cs. induction cs as [|c cs IH]; intros b0 Hn.
    - exists b0. split; [reflexivity|]. split; [exact Hn|].
      split; intros cs' r H; destruct cs'; discriminate.
    - destruct (run_box_call_no_repeats b0 c w Hn) as (b1 & Hrun & Hn1 & Hc).
      destruct (IH b1 Hn1) as (b & Hrest & Hnb & Hrem & Hadd).
      exists b. split; [simpl; rewrite (bind_ok _ _ _ _ _ Hrun); exact Hrest|].
      split; [exact Hnb|].
      split; intros cs' r H; destruct cs' as [|c' cs'].
      + simpl in H. injection H as -> ->. simpl in Hrest. injection Hrest as <-. exact Hc.
      + simpl in H. injection H as -> ->. eapply Hrem. reflexivity.
      + simpl in H. injection H as -> ->. simpl in Hrest. injection Hrest as <-. exact Hc.
      + simpl in H. injection H as -> ->. eapply Hadd. reflexivity. }
  destruct (Hgen cs (Box_init name interval)) as (b & Hrun & Hn & Hrem & Hadd).
  { intros i j a b' _ Ha. simpl in Ha. discriminate. }
  exists b. split; [exact Hrun|]. split; [exact Hn|]. split; [|auto].
  apply NoDup_alt. intros i j x Hi Hj.
  destruct (Nat.lt_trichotomy i j) as [Hlt|[->|Hlt]]; [|reflexivity|].
  - pose proof (Hn i j x x Hlt Hi Hj) as H. rewrite same_object_refl in H. discriminate.
  - pose proof (Hn j i x x Hlt Hj Hi) as H. rewrite same_object_refl in H. discriminate.
Qed.

(** ** The manager ([boxmanager.py]) *)

(** X4: [move_question] on a question that was never registered raises
    [KeyError] with the question's identifier as key, whatever the outcome
    flag, before anything is changed or printed; once the question has been
    registered with [add_new_question] the same call succeeds. *)
Theorem move_unregistered_question_raises (mgr : BoxManager) (question : ref)
    (q : Question) (answered_correctly : bool) (w : World) :
  heap w !! question = Some q ->
  _question_location mgr !! Uuid.str (_id q) = None ->
  length (_boxes mgr) = 5 ->
  move_question mgr question answered_correctly w = (Raise (KeyError (Uuid.str (_id q))), w)
  /\ exists mgr1 mgr2 w2,
       add_new_question mgr question w = (Ok mgr1, w)
       /\ move_question mgr1 question answered_correctly w = (Ok mgr2, w2).
Proof.
  intros Hq Hloc Hlen. split.
  - unfold move_question. rewrite (bind_ok _ _ w w q (deref_ok question q w Hq)).
    unfold dict_get. rewrite Hloc. reflexivity.
  - destruct (lookup_lt_is_Some_2 (_boxes mgr) 1) as [b Hb]; [lia|].
    pose proof (add_new_question_run mgr question q b w Hq Hb) as Hadd.
    set (b1 := mkBox (_name b) (added (heap w) (_questions b) question) (_priority_interval b)).
    set (boxes1 := <[1 := b1]> (_boxes mgr)) in *.
    assert (Hlen1 : length boxes1 = 5) by (unfold boxes1; rewrite length_insert; exact Hlen).
    set (j := new_box_index 1 answered_correctly (length boxes1)).
    assert (Hj : j < 5).
    { pose proof (new_box_index_lt 1 (length boxes1) answered_correctly) as Hlt.
      fold j in Hlt. lia. }
    destruct (lookup_lt_is_Some_2
                (<[1 := mkBox (_name b1) (removed (heap w) (_questions b1) question)
                              (_priority_interval b1)]> boxes1) j) as [bj Hbj].
    { rewrite length_insert. lia. }
    match type of Hadd with _ = (Ok ?m, _) =>
      destruct (move_question_run m question q answered_correctly 1 b1 bj w Hq)
        as [out Hrun]
    end.
    + simpl. apply lookup_insert_eq.
    + simpl. apply list_lookup_insert_eq. lia.
    + exact Hbj.
    + eexists _, _, _. split; [exact Hadd|exact Hrun].
Qed.

Lemma move_unregistered_question_raises_witness :
  move_question BoxManager_init 1 true (Demo.world Demo.heap3 [])
  = (Raise (KeyError (Uuid.str 8%N)), Demo.world Demo.heap3 []).
Proof.
  apply (move_unregistered_question_raises BoxManager_init 1 Demo.sky true
           (Demo.world Demo.heap3 []) eq_refl (lookup_empty _) eq_refl).
Defined.

Lemma fmap_insert_same {A B} (f : A -> B) (l : list A) (i : nat) (x y : A) :
  l !! i = Some y -> f x = f y -> f <$> <[i := x]> l = f <$> l.
Proof.
  intros Hy Hf. rewrite list_fmap_insert, Hf. apply list_insert_id.
  rewrite list_lookup_fmap, Hy. reflexivity.
Qed.

Lemma add_new_question_inv (mgr mgr' : BoxManager) (r : ref) (w w' : World) :
  add_new_question mgr r w = (Ok mgr', w') ->
  exists b q,
    _boxes mgr !! 1 = Some b /\ heap w !! r = Some q /\ w' = w
    /\ mgr' = mkBoxManager
                (<[1 := mkBox (_name b) (added (heap w) (_questions b) r)
                              (_priority_interval b)]> (_boxes mgr))
                (<[Uuid.str (_id q) := 1]> (_question_location mgr)).
Proof.
  unfold add_new_question, list_get. intros H.
  destruct (_boxes mgr !! 1) as [b|] eqn:Hb; [|discriminate].
  rewrite (bind_ok _ _ w w b eq_refl) in H.
  rewrite (bind_ok _ _ w w _ (add_question_run b r w)) in H.
  unfold bind, deref in H. destruct (heap w !! r) as [q|] eqn:Hq; [|discriminate].
  unfold ret in H. injection H as <- <-. exists b, q. auto.
Qed.

Lemma move_question_inv (mgr mgr' : BoxManager) (r : ref) (c : bool) (w w' : World) :
  move_question mgr r c w = (Ok mgr', w') ->
  exists q i bi bj,
    heap w !! r = Some q
    /\ _question_location mgr !! Uuid.str (_id q) = Some i
    /\ _boxes mgr !! i = Some bi
    /\ <[i := mkBox (_name bi) (removed (heap w) (_questions bi) r) (_priority_interval bi)]>
         (_boxes mgr) !! new_box_index i c (length (_boxes mgr)) = Some bj
    /\ heap w' = heap w
    /\ mgr' = moved (heap w) mgr r (Uuid.str (_id q)) i
                    (new_box_index i c (length (_boxes mgr))) bi bj.
Proof.
  intros H. unfold move_question in H.
  unfold bind at 1, deref at 1 in H. destruct (heap w !! r) as [q|] eqn:Hq; [|discriminate].
  unfold bind at 1, dict_get at 1 in H.
  destruct (_question_location mgr !! Uuid.str (_id q)) as [i|] eqn:Hi; [|discriminate].
  unfold ret at 1 in H.
  unfold bind at 1, list_get at 1 in H.
  destruct (_boxes mgr !! i) as [bi|] eqn:Hbi; [|discriminate]. unfold ret at 1 in H.
  rewrite (bind_ok _ _ w w _ (remove_question_run bi r w)) in H. simpl in H.
  unfold bind at 1, list_get at 1 in H.
  match type of H with context [match ?l !! ?j with _ => _ end] =>
    destruct (l !! j) as [bj|] eqn:Hbj; [|discriminate] end.
  unfold ret at 1 in H.
  destruct (move_question_run mgr r q c i bi bj w Hq Hi Hbi Hbj) as [out Hrun].
  unfold move_question in Hrun.
  rewrite (bind_ok _ _ w w q (deref_ok r q w Hq)) in Hrun.
  unfold dict_get in Hrun. rewrite Hi in Hrun. rewrite (bind_ok _ _ w w i eq_refl) in Hrun.
  unfold list_get at 1 in Hrun. rewrite Hbi in Hrun. rewrite (bind_ok _ _ w w bi eq_refl) in Hrun.
  rewrite (bind_ok _ _ w w _ (remove_question_run bi r w)) in Hrun. simpl in Hrun.
  unfold list_get in Hrun. rewrite Hbj in Hrun.
  unfold bind at 1, ret at 1 in Hrun.
  rewrite Hrun in H. injection H as <- <-.
  exists q, i, bi, bj. auto 10.
Qed.

Lemma run_call_keeps_ladder (c : call) (mgr mgr' : BoxManager) (w w' : World) :
  run_call mgr c w = (Ok mgr', w') ->
  _name <$> _boxes mgr' = _name <$> _boxes mgr
  /\ _priority_interval <$> _boxes mgr' = _priority_interval <$> _boxes mgr.
Proof.
  destruct c as [r|r a| |r]; simpl; intros H.
  - apply add_new_question_inv in H as (b & q & Hb & _ & _ & ->). simpl.
    split; apply (fmap_insert_same _ _ _ _ b Hb); reflexivity.
  - apply move_question_inv in H as (q & i & bi & bj & _ & _ & Hbi & Hbj & _ & ->).
    unfold moved. simpl.
    split; (etransitivity; [apply (fmap_insert_same _ _ _ _ bj Hbj); reflexivity|]);
      apply (fmap_insert_same _ _ _ _ bi Hbi); reflexivity.
  - unfold bind in H. destruct (get_next_question mgr w) as [[res|e] w1]; [|discriminate].
    injection H as <- _. auto.
  - unfold bind in H. destruct (ask r w) as [[text|e] w1]; [|discriminate].
    injection H as <- _. auto.
Qed.

(** X5: no sequence of calls on a manager ever renames a box, changes a
    priority interval or changes the number of boxes: a manager made by
    [BoxManager()] keeps its five boxes with 60 s, 0 s, 180 s, 360 s and
    [timedelta.max]. *)
Theorem boxes_keep_name_and_interval (cs : list call) (mgr mgr' : BoxManager) (w w' : World) :
  run_calls mgr cs w = (Ok mgr', w') ->
  _name <$> _boxes mgr' = _name <$> _boxes mgr
  /\ _priority_interval <$> _boxes mgr' = _priority_interval <$> _boxes mgr
  /\ length (_boxes mgr') = length (_boxes mgr)
  /\ (mgr = BoxManager_init ->
      _name <$> _boxes mgr'
      = ["Missed Questions"; "Unasked Questions"; "Correctly Answered Once";
         "Correctly Answered Twice"; "Known Questions"]
      /\ _priority_interval <$> _boxes mgr'
         = [seconds 60; seconds 0; seconds 180; seconds 360; timedelta_max]).
Proof.
  revert mgr w. induction cs as [|c cs IH]; intros mgr w H.
  - simpl in H. injection H as <- _.
    split; [reflexivity|]. split; [reflexivity|]. split; [reflexivity|].
    intros ->. split; reflexivity.
  - simpl in H. unfold bind in H.
    destruct (run_call mgr c w) as [[mgr1|e] w1] eqn:Hc; [|discriminate].
    destruct (run_call_keeps_ladder c mgr mgr1 w w1 Hc) as [Hn1 Hi1].
    destruct (IH mgr1 w1 H) as (Hn & Hi & _ & _).
    assert (En : _name <$> _boxes mgr' = _name <$> _boxes mgr) by congruence.
    assert (Ei : _priority_interval <$> _boxes mgr' = _priority_interval <$> _boxes mgr)
      by congruence.
    split; [exact En|]. split; [exact Ei|]. split.
    + apply (f_equal length) in En. rewrite !length_fmap in En. exact En.
    + intros ->. rewrite En, Ei. split; reflexivity.
Qed.

Lemma state_ok_init (h : list Question) : heap_ok h -> state_ok h BoxManager_init [].
Proof.
  intros Hh. split; [exact Hh|apply consistent_init| |].
  - intros r Hr. apply elem_of_nil in Hr. contradiction.
  - intros r q _. simpl. rewrite lookup_empty, elem_of_nil.
    split; [contradiction|]. intros [? ?]. discriminate.
Qed.

Lemma boxes_keep_name_and_interval_witness :
  exists mgr w',
    run_calls BoxManager_init
      [AddNewQuestion 0; AddNewQuestion 1; GetNextQuestion; Ask 0;
       MoveQuestion 0 true; MoveQuestion 1 false]
      (Demo.world [Demo.two_plus_two; Demo.sky; Demo.the_answer] [])
    = (Ok mgr, w')
    /\ _priority_interval <$> _boxes mgr
       = [seconds 60; seconds 0; seconds 180; seconds 360; timedelta_max].
Proof.
  destruct (run_calls_ok 3
              [AddNewQuestion 0; AddNewQuestion 1; GetNextQuestion; Ask 0;
               MoveQuestion 0 true; MoveQuestion 1 false]
              (Demo.world [Demo.two_plus_two; Demo.sky; Demo.the_answer] [])
              BoxManager_init [] (state_ok_init _ demo_heap_ok) eq_refl eq_refl)
    as (mgr & w' & reg & Hrun & _).
  exists mgr, w'. split; [exact Hrun|].
  apply (boxes_keep_name_and_interval _ _ _ _ _ Hrun). reflexivity.
Defined.

Lemma new_box_index_thrice (i : nat) :
  new_box_index (new_box_index (new_box_index i true 5) true 5) true 5 = 4.
Proof. destruct i as [|[|[|[|[|i]]]]]; reflexivity. Qed.


(** A question that sits in the last box is not what the scan returns. *)
Lemma last_box_not_served (mgr : BoxManager) (r : ref) (q : Question) (v : World) :
  consistent (heap v) mgr -> heap v !! r = Some q ->
  _question_location mgr !! Uuid.str (_id q) = Some 4 ->
  exists res n,
    get_next_question mgr v = (Ok res, with_ticks (ticks v + n) v) /\ res <> Some r.
Proof.
  intros Hc Hq H4. destruct (get_next_question_run mgr v) as (res & n & Hrun & _ & Hres).
  { intros k b _ Hb. eapply cons_valid; eauto. }
  exists res, n. split; [exact Hrun|]. intros ->.
  destruct (Hres r eq_refl) as (k & b & Hk & Hb & Hin & _).
  rewrite (cons_five _ _ Hc) in Hk.
  pose proof (cons_member _ _ Hc k b r q Hb Hin Hq) as Hloc.
  rewrite H4 in Hloc. injection Hloc as <-. lia.
Qed.

(** X6: three correct answers in a row retire a question, from whichever
    box it starts: it ends in box 4 with index 4, the invariant still holds,
    [get_next_question] no longer returns it, and further correct answers
    leave it there. *)
Theorem three_correct_answers_retire (mgr : BoxManager) (question : ref) (q : Question)
    (i : nat) (w : World) :
  heap_ok (heap w) ->
  consistent (heap w) mgr ->
  heap w !! question = Some q ->
  _question_location mgr !! Uuid.str (_id q) = Some i ->
  exists mgr' w' b4,
    run_calls mgr [MoveQuestion question true; MoveQuestion question true;
                   MoveQuestion question true] w = (Ok mgr', w')
    /\ heap w' = heap w
    /\ consistent (heap w) mgr'
    /\ _question_location mgr' !! Uuid.str (_id q) = Some 4
    /\ _boxes mgr' !! 4 = Some b4
    /\ question ∈ _questions b4
    /\ (forall v, heap v = heap w ->
          exists res n, get_next_question mgr' v = (Ok res, with_ticks (ticks v + n) v)
                        /\ res <> Some question)
    /\ (exists mgr'' w'',
          move_question mgr' question true w' = (Ok mgr'', w'')
          /\ _question_location mgr'' !! Uuid.str (_id q) = Some 4).
Proof.
  intros Hh Hc Hq Hi.
  destruct (move_question_consistent mgr question q true i w Hh Hc Hq Hi)
    as (m1 & o1 & R1 & C1 & L1).
  set (w1 := with_stdout (stdout w ++ o1) w) in *.
  assert (Hi1 : _question_location m1 !! Uuid.str (_id q) = Some (new_box_index i true 5))
    by (rewrite L1; apply lookup_insert_eq).
  destruct (move_question_consistent m1 question q true _ w1 Hh C1 Hq Hi1)
    as (m2 & o2 & R2 & C2 & L2).
  set (w2 := with_stdout (stdout w1 ++ o2) w1) in *.
  assert (Hi2 : _question_location m2 !! Uuid.str (_id q)
                = Some (new_box_index (new_box_index i true 5) true 5))
    by (rewrite L2; apply lookup_insert_eq).
  destruct (move_question_consistent m2 question q true _ w2 Hh C2 Hq Hi2)
    as (m3 & o3 & R3 & C3 & L3).
  set (w3 := with_stdout (stdout w2 ++ o3) w2) in *.
  assert (Hi3 : _question_location m3 !! Uuid.str (_id q) = Some 4).
  { rewrite L3, lookup_insert_eq, new_box_index_thrice. reflexivity. }
  destruct (cons_located _ _ C3 question q 4 Hq Hi3) as (b4 & Hb4 & Hin4).
  exists m3, w3, b4. split.
  { simpl. rewrite (bind_ok _ _ _ _ _ R1). simpl. rewrite (bind_ok _ _ _ _ _ R2).
    simpl. rewrite (bind_ok _ _ _ _ _ R3). reflexivity. }
  split; [reflexivity|]. split; [exact C3|]. split; [exact Hi3|].
  split; [exact Hb4|]. split; [exact Hin4|]. split.
  - intros v Hv. apply (last_box_not_served m3 question q v).
    + rewrite Hv. exact C3.
    + rewrite Hv. exact Hq.
    + exact Hi3.
  - destruct (move_question_consistent m3 question q true 4 w3 Hh C3 Hq Hi3)
      as (m4 & o4 & R4 & _ & L4).
    exists m4, (with_stdout (stdout w3 ++ o4) w3). split; [exact R4|].
    rewrite L4. apply lookup_insert_eq.
Qed.

Lemma demo_heap3_ok : heap_ok Demo.heap3.
Proof.
  split.
  - intros r1 r2 q1 q2 H1 H2 E.
    destruct r1 as [|[|[|r1]]], r2 as [|[|[|r2]]]; simpl in *;
      try discriminate; try reflexivity;
      injection H1 as <-; injection H2 as <-; discriminate.
  - intros r q H. destruct r as [|[|[|r]]]; simpl in H; try discriminate;
      injection H as <-; reflexivity.
Qed.

Lemma three_correct_answers_retire_witness :
  exists mgr' w',
    run_calls (mkBoxManager (<[1 := Demo.unasked]> (_boxes BoxManager_init))
                            {[ Uuid.str 8%N := 1 ]})
      [MoveQuestion 1 true; MoveQuestion 1 true; MoveQuestion 1 true]
      (Demo.world Demo.heap3 [])
    = (Ok mgr', w')
    /\ _question_location mgr' !! Uuid.str 8%N = Some 4.
Proof.
  destruct (three_correct_answers_retire
              (mkBoxManager (<[1 := Demo.unasked]> (_boxes BoxManager_init))
                            {[ Uuid.str 8%N := 1 ]})
              1 Demo.sky 1 (Demo.world Demo.heap3 []) demo_heap3_ok)
    as (mgr' & w' & b4 & Hrun & _ & _ & Hloc & _).
  - assert (Hrun : exists m, add_new_question BoxManager_init 1 (Demo.world Demo.heap3 [])
                             = (Ok m, Demo.world Demo.heap3 [])
                             /\ consistent Demo.heap3 m
                             /\ m = mkBoxManager (<[1 := Demo.unasked]> (_boxes BoxManager_init))
                                                 {[ Uuid.str 8%N := 1 ]}).
    { destruct (add_new_question_consistent BoxManager_init 1 Demo.sky
                  (Demo.world Demo.heap3 []) demo_heap3_ok (consistent_init _) eq_refl
                  (lookup_empty _)) as (m & Hm & Hc & _).
      exists m. split; [exact Hm|]. split; [exact Hc|].
      rewrite (add_new_question_run BoxManager_init 1 Demo.sky
                 (Box_init "Unasked Questions" (seconds 0)) (Demo.world Demo.heap3 [])
                 eq_refl eq_refl) in Hm.
      injection Hm as <-. reflexivity. }
    destruct Hrun as (m & _ & Hc & ->). exact Hc.
  - reflexivity.
  - apply lookup_singleton_eq.
  - exists mgr', w'. split; [exact Hrun|exact Hloc].
Defined.

(** X7: a question that [get_next_question] returns has waited at least the
    interval of the box it is in, measured at the clock reading taken for
    that box: 60 s in box 0, nothing in box 1, 180 s in box 2, 360 s in
    box 3. *)
Theorem served_question_has_waited (mgr : BoxManager) (question : ref) (w w' : World) :
  consistent (heap w) mgr ->
  _priority_interval <$> _boxes mgr = _priority_interval <$> _boxes BoxManager_init ->
  get_next_question mgr w = (Ok (Some question), w') ->
  exists k q,
    k < 4
    /\ heap w !! question = Some q
    /\ _question_location mgr !! Uuid.str (_id q) = Some k
    /\ (nth k [seconds 60; seconds 0; seconds 180; seconds 360] 0%Z
        <= dt_sub (clock w (ticks w + k)) (_last_asked q))%Z.
Proof.
  intros Hc Hiv Hrun.
  destruct (get_next_question_run mgr w) as (res & n & Hrun' & _ & Hres).
  { intros k b _ Hb. eapply cons_valid; eauto. }
  rewrite Hrun in Hrun'. injection Hrun' as <- _.
  destruct (Hres question eq_refl) as (k & b & Hk & Hb & Hin & Hdue).
  rewrite (cons_five _ _ Hc) in Hk.
  destruct (valid_refs_elem _ _ _ (cons_valid _ _ Hc k b Hb) Hin) as [q Hq].
  exists k, q. split; [lia|]. split; [exact Hq|].
  split; [eapply cons_member; eauto|].
  unfold due, last_asked_of in Hdue. rewrite Hq in Hdue. simpl in Hdue.
  apply (f_equal (fun l => l !! k)) in Hiv. rewrite list_lookup_fmap, Hb in Hiv.
  destruct k as [|[|[|[|k]]]]; simpl in Hiv |- *; try lia;
    injection Hiv as Hiv; rewrite Hiv in Hdue; exact Hdue.
Qed.

Lemma demo_manager_consistent : consistent Demo.heap3 Demo.manager.
Proof.
  split.
  - reflexivity.
  - intros k b Hb. apply (demo_manager_valid k b Hb).
  - intros k b Hb. destruct k as [|[|[|[|[|k]]]]]; simpl in Hb; try discriminate;
      injection Hb as <-; simpl;
      repeat (apply NoDup_cons_2; [rewrite ?elem_of_cons, elem_of_nil; lia|]);
      apply NoDup_nil_2.
  - intros k b r q Hb Hr Hq.
    destruct k as [|[|[|[|[|k]]]]]; simpl in Hb; try discriminate;
      injection Hb as <-; simpl in Hr; apply list_elem_of_In in Hr; simpl in Hr;
      repeat (destruct Hr as [<-|Hr]); try contradiction;
      simpl in Hq; injection Hq as <-; vm_compute; reflexivity.
  - intros r q k Hq Hk.
    destruct r as [|[|[|r]]]; simpl in Hq; try discriminate; injection Hq as <-;
      vm_compute in Hk; injection Hk as <-; eexists; (split; [reflexivity|]);
      apply list_elem_of_In; simpl; tauto.
Qed.

Lemma served_question_has_waited_witness :
  exists k q,
    k < 4
    /\ Demo.heap3 !! 2 = Some q
    /\ _question_location Demo.manager !! Uuid.str (_id q) = Some k
    /\ (nth k [seconds 60; seconds 0; seconds 180; seconds 360] 0%Z
        <= dt_sub (clock (Demo.world Demo.heap3 []) (0 + k)) (_last_asked q))%Z.
Proof.
  exact (served_question_has_waited Demo.manager 2 (Demo.world Demo.heap3 [])
           (with_ticks 1 (Demo.world Demo.heap3 []))
           demo_manager_consistent eq_refl eq_refl).
Defined.

(** ** Ties in a box ([box.py]) *)

Lemma sort_by_key_head {A} (l : list (datetime * A)) (x : datetime * A)
    (rest : list (datetime * A)) :
  sort_by_key l = x :: rest ->
  exists l1 l2,
    l = l1 ++ x :: l2
    /\ Forall (fun y => (fst x < fst y)%N) l1
    /\ Forall (fun y => (fst x <= fst y)%N) l2.
Proof.
  revert x rest. induction l as [|a l IH]; intros x rest H; [discriminate|].
  simpl in H. destruct (sort_by_key l) as [|y ys] eqn:Hs.
  - simpl in H. injection H as <- <-.
    assert (l = []) as ->.
    { pose proof (sort_by_key_perm l) as Hp. rewrite Hs in Hp.
      symmetry. apply Permutation_nil_l. exact Hp. }
    exists [], []. repeat split; constructor.
  - destruct (IH y ys eq_refl) as (m1 & m2 & -> & H1 & H2).
    simpl in H. destruct (N.leb_spec (fst a) (fst y)) as [Hle|Hlt].
    + injection H as <- <-. exists [], (m1 ++ y :: m2). split; [reflexivity|].
      split; [constructor|]. apply Forall_app. split.
      * eapply Forall_impl; [exact H1|]. intros z Hz. simpl in Hz. lia.
      * constructor; [exact Hle|]. eapply Forall_impl; [exact H2|].
        intros z Hz. simpl in Hz. lia.
    + injection H as <- <-. exists (a :: m1), m2. split; [reflexivity|].
      split; [constructor; assumption|exact H2].
Qed.

Lemma sorted_by_last_asked_run (l : list ref) (w : World) :
  valid_refs (heap w) l ->
  sorted_by_last_asked l w
  = (Ok (snd <$> sort_by_key ((fun r => (last_asked_of (heap w) r, r)) <$> l)), w).
Proof.
  intros Hv. unfold sorted_by_last_asked.
  erewrite bind_ok; [|apply mapM_last_asked, Hv]. reflexivity.
Qed.

(** X8: when several members of a box share the earliest [last_asked], the
    one that was added to the box first is returned: every member in front
    of the returned one was asked strictly later, every member behind it
    not earlier. *)
Theorem earliest_added_wins_ties (b : Box) (question : ref) (w w' : World) :
  valid_refs (heap w) (_questions b) ->
  get_next_priority_question b w = (Ok (Some question), w') ->
  exists l1 l2,
    _questions b = l1 ++ question :: l2
    /\ (forall x, x ∈ l1 -> (last_asked_of (heap w) question < last_asked_of (heap w) x)%N)
    /\ (forall x, x ∈ l2 -> (last_asked_of (heap w) question <= last_asked_of (heap w) x)%N).
Proof.
  intros Hv Hrun.
  destruct (sorted_by_last_asked_spec _ w Hv) as (sl & Hsl & Hperm & Hsorted).
  pose proof (sorted_by_last_asked_run _ w Hv) as Hsl'.
  rewrite Hsl in Hsl'. injection Hsl' as ->.
  set (f := fun r => (last_asked_of (heap w) r, r)) in *.
  set (sl := snd <$> sort_by_key (f <$> _questions b)) in *.
  assert (Hv' : valid_refs (heap w) sl) by (unfold valid_refs; rewrite Hperm; exact Hv).
  unfold get_next_priority_question in Hrun. rewrite (bind_ok _ _ _ _ _ Hsl) in Hrun.
  unfold bind at 1, datetime_now at 1 in Hrun.
  destruct (first_due_sorted (clock w (ticks w)) (_priority_interval b) sl
              (with_ticks (S (ticks w)) w) Hv' Hsorted) as (res & Hres & Hspec).
  rewrite Hres in Hrun. injection Hrun as -> _.
  destruct Hspec as (rest & Hhead & _). unfold sl in Hhead.
  destruct (sort_by_key (f <$> _questions b)) as [|x xs] eqn:Hs; [discriminate|].
  rewrite fmap_cons in Hhead. injection Hhead as Hx _.
  destruct (sort_by_key_head _ _ _ Hs) as (k1 & k2 & Hl & H1 & H2).
  apply fmap_app_inv in Hl as (l1 & l2' & -> & Hk2 & Hl).
  symmetry in Hk2. apply fmap_cons_inv in Hk2 as (r & l2 & -> & -> & ->).
  simpl in Hx. subst r. exists l1, l2. split; [exact Hl|]. split.
  - intros y Hy. rewrite Forall_fmap, Forall_forall in H1. apply (H1 y Hy).
  - intros y Hy. rewrite Forall_fmap, Forall_forall in H2. apply (H2 y Hy).
Qed.

Lemma earliest_added_wins_ties_witness :
  exists l1 l2,
    [0; 1] = l1 ++ 0 :: l2
    /\ (forall x, x ∈ l1 ->
          (last_asked_of [Demo.two_plus_two; Demo.sky] 0
           < last_asked_of [Demo.two_plus_two; Demo.sky] x)%N)
    /\ (forall x, x ∈ l2 ->
          (last_asked_of [Demo.two_plus_two; Demo.sky] 0
           <= last_asked_of [Demo.two_plus_two; Demo.sky] x)%N).
Proof.
  apply (earliest_added_wins_ties (mkBox "Unasked Questions" [0; 1] (seconds 0)) 0
           (Demo.world [Demo.two_plus_two; Demo.sky] [])
           (with_ticks 1 (Demo.world [Demo.two_plus_two; Demo.sky] []))).
  - simpl. valid_refs_tac.
  - reflexivity.
Defined.

(** ** Questions ([qtype/]) *)

(** X9: [__eq__] is reflexive, symmetric and transitive; questions that are
    equal have the same [__hash__]; and neither depends on [last_asked], so
    asking a question changes neither what it equals nor where a dictionary
    finds it. *)
Theorem eq_is_equivalence_and_agrees_with_hash (p q r : Question) (t : datetime) :
  question_eq p p = true
  /\ question_eq p q = question_eq q p
  /\ (question_eq p q = true -> question_eq q r = true -> question_eq p r = true)
  /\ (question_eq p q = true -> question_hash p = question_hash q)
  /\ question_eq (with_last_asked t p) q = question_eq p q
  /\ question_eq p (with_last_asked t q) = question_eq p q
  /\ question_hash (with_last_asked t p) = question_hash p.
Proof.
  split; [apply question_eq_true; auto|]. split; [apply question_eq_sym|].
  split; [apply question_eq_trans|]. split.
  - intros H. apply question_eq_true in H as [E _]. unfold question_hash. congruence.
  - repeat split.
Qed.

Module PyStrMore.
Import PyStr.

Lemma isspace_lower (c : ascii) : isspace (lower_char c) = isspace c.
Proof. destruct c as [[] [] [] [] [] [] [] []]; reflexivity. Qed.

Lemma isword_lower (c : ascii) : isword (lower_char c) = isword c.
Proof. destruct c as [[] [] [] [] [] [] [] []]; reflexivity. Qed.

Lemma lower_char_idem (c : ascii) : lower_char (lower_char c) = lower_char c.
Proof. destruct c as [[] [] [] [] [] [] [] []]; reflexivity. Qed.

Lemma isword_not_space (c : ascii) : isword c = true -> isspace c = false.
Proof. destruct c as [[] [] [] [] [] [] [] []]; simpl; intros H; try reflexivity; discriminate H. Qed.

Lemma lower_idem (s : string) : lower (lower s) = lower s.
Proof. induction s as [|c s IH]; simpl; [|rewrite lower_char_idem, IH]; reflexivity. Qed.

Lemma lower_app (s t : string) : lower (s +:+ t) = lower s +:+ lower t.
Proof.
  induction s as [|c s IH]; [reflexivity|].
  rewrite !PyStrFacts.append_cons. simpl. rewrite IH, PyStrFacts.append_cons. reflexivity.
Qed.

Lemma sub_app (s t : string) :
  sub_nonword_nonspace (s +:+ t) = sub_nonword_nonspace s +:+ sub_nonword_nonspace t.
Proof.
  induction s as [|c s IH]; [reflexivity|].
  rewrite PyStrFacts.append_cons. simpl. rewrite IH.
  destruct (isword c || isspace c); [rewrite PyStrFacts.append_cons|]; reflexivity.
Qed.

Lemma lstrip_lower (s : string) : lstrip (lower s) = lower (lstrip s).
Proof.
  induction s as [|c s IH]; simpl; [reflexivity|].
  rewrite isspace_lower. destruct (isspace c); [exact IH|reflexivity].
Qed.

Lemma rstrip_lower (s : string) : rstrip (lower s) = lower (rstrip s).
Proof.
  induction s as [|c s IH]; simpl; [reflexivity|].
  rewrite IH, isspace_lower. destruct (rstrip s); simpl; [destruct (isspace c)|]; reflexivity.
Qed.

Lemma strip_lower (s : string) : strip (lower s) = lower (strip s).
Proof. unfold strip. rewrite lstrip_lower, rstrip_lower. reflexivity. Qed.

Lemma lstrip_spaces (l s : string) :
  forallb_str isspace l = true -> lstrip (l +:+ s) = lstrip s.
Proof.
  induction l as [|c l IH]; [reflexivity|]. intros H. simpl in H.
  apply andb_prop in H as [Hc Hl]. rewrite PyStrFacts.append_cons. simpl.
  rewrite Hc. apply IH, Hl.
Qed.

Lemma rstrip_spaces (r : string) : forallb_str isspace r = true -> rstrip r = EmptyString.
Proof.
  induction r as [|c r IH]; [reflexivity|]. simpl. intros H.
  apply andb_prop in H as [Hc Hr]. rewrite (IH Hr), Hc. reflexivity.
Qed.

Lemma rstrip_app_spaces (s r : string) :
  forallb_str isspace r = true -> rstrip (s +:+ r) = rstrip s.
Proof.
  intros Hr. induction s as [|c s IH].
  - simpl. apply rstrip_spaces, Hr.
  - rewrite PyStrFacts.append_cons. simpl. rewrite IH. reflexivity.
Qed.

Lemma lstrip_app_spaces (s r : string) :
  forallb_str isspace r = true ->
  rstrip (lstrip (s +:+ r)) = rstrip (lstrip s).
Proof.
  intros Hr. induction s as [|c s IH].
  - simpl. change (EmptyString +:+ r) with r.
    assert (lstrip r = EmptyString) as ->; [|reflexivity].
    clear -Hr. induction r as [|c r IH]; [reflexivity|]. simpl in *.
    apply andb_prop in Hr as [Hc Hr]. rewrite Hc. auto.
  - rewrite PyStrFacts.append_cons. simpl. destruct (isspace c); [exact IH|].
    rewrite <- PyStrFacts.append_cons. apply rstrip_app_spaces, Hr.
Qed.

(** White space around a string does not survive [strip]. *)
Lemma strip_margin (l s r : string) :
  forallb_str isspace l = true -> forallb_str isspace r = true ->
  strip (l +:+ s +:+ r) = strip s.
Proof.
  intros Hl Hr. unfold strip. rewrite (lstrip_spaces l _ Hl).
  apply lstrip_app_spaces, Hr.
Qed.

Lemma rstrip_ends_nonspace (s : string) (p : ascii) :
  isspace p = false -> rstrip (s +:+ String p EmptyString) = s +:+ String p EmptyString.
Proof.
  intros Hp. induction s as [|c s IH].
  - simpl. rewrite Hp. reflexivity.
  - rewrite PyStrFacts.append_cons. simpl. rewrite IH.
    destruct (s +:+ String p EmptyString) eqn:E; [|reflexivity].
    destruct s; discriminate E.
Qed.

Lemma strip_word (s : string) :
  forallb_str isword s = true -> strip s = s.
Proof.
  intros H. unfold strip. destruct s as [|c s]; [reflexivity|].
  simpl in H. apply andb_prop in H as [Hc Hs].
  simpl. rewrite (isword_not_space c Hc).
  revert c Hc. induction s as [|d s IH]; intros c Hc.
  - simpl. rewrite (isword_not_space c Hc). reflexivity.
  - simpl in Hs. apply andb_prop in Hs as [Hd Hs]. specialize (IH Hs d Hd).
    change (rstrip (String c (String d s))) with
      (match rstrip (String d s) with
       | EmptyString => if isspace c then EmptyString else String c EmptyString
       | r => String c r
       end).
    rewrite IH. reflexivity.
Qed.

Lemma lower_word (s : string) :
  forallb_str isword s = true -> forallb_str isword (lower s) = true.
Proof.
  induction s as [|c s IH]; simpl; [auto|]. intros H.
  apply andb_prop in H as [Hc Hs]. rewrite isword_lower, Hc, IH; auto.
Qed.

Lemma word_is_kept (s : string) :
  forallb_str isword s = true ->
  forallb_str (fun c => isword c || isspace c) s = true.
Proof.
  induction s as [|c s IH]; simpl; [auto|]. intros H.
  apply andb_prop in H as [Hc Hs]. rewrite Hc, IH; auto.
Qed.

Lemma append_length (s t : string) :
  String.length (s +:+ t) = String.length s + String.length t.
Proof.
  induction s as [|c s IH]; [reflexivity|].
  rewrite PyStrFacts.append_cons. simpl. rewrite IH. reflexivity.
Qed.

End PyStrMore.

Lemma normalize_margin (cs : pyval) (l s r : string) :
  PyStr.forallb_str PyStr.isspace l = true -> PyStr.forallb_str PyStr.isspace r = true ->
  _normalize cs (l +:+ s +:+ r) = _normalize cs s.
Proof. intros Hl Hr. unfold _normalize. rewrite PyStrMore.strip_margin by assumption. reflexivity. Qed.

Lemma normalize_lower (cs : pyval) (s : string) :
  truthy cs = false -> _normalize cs (PyStr.lower s) = _normalize cs s.
Proof.
  intros H. unfold _normalize. rewrite H. simpl.
  rewrite PyStrMore.strip_lower, PyStrMore.lower_idem. reflexivity.
Qed.

(** X10: a short answer is scored the same with or without white space
    around the response or around the canonical answer, and, unless the
    question is case sensitive, the same for a response and its lower-cased
    form. *)
Theorem shortanswer_ignores_margin_and_case (q q' : Question) (cs : pyval)
    (a b l r : string) :
  _class q = ShortAnswer cs -> _answer q = PStr b ->
  _class q' = ShortAnswer cs -> _answer q' = PStr (l +:+ b +:+ r) ->
  PyStr.forallb_str PyStr.isspace l = true ->
  PyStr.forallb_str PyStr.isspace r = true ->
  check_answer q (l +:+ a +:+ r) = check_answer q a
  /\ check_answer q' a = check_answer q a
  /\ (truthy cs = false -> check_answer q (PyStr.lower a) = check_answer q a).
Proof.
  intros Hc Ha Hc' Ha' Hl Hr. unfold check_answer. rewrite Hc, Ha, Hc', Ha'.
  rewrite !normalize_margin by assumption. split; [reflexivity|]. split; [reflexivity|].
  intros Hcs. rewrite normalize_lower by exact Hcs. reflexivity.
Qed.

Lemma shortanswer_ignores_margin_and_case_witness :
  check_answer Demo.the_answer ("  " +:+ "The Answer" +:+ " ")
  = check_answer Demo.the_answer "The Answer"
  /\ check_answer Demo.the_answer (PyStr.lower "The Answer")
     = check_answer Demo.the_answer "The Answer".
Proof.
  destruct (shortanswer_ignores_margin_and_case Demo.the_answer
              (mkQuestion 9%N (PStr "What is it?") (PStr ("  " +:+ "the answer" +:+ " "))
                 datetime_min (ShortAnswer (PBool false)))
              (PBool false) "The Answer" "the answer" "  " " "
              eq_refl eq_refl eq_refl eq_refl eq_refl eq_refl) as (H1 & _ & H3).
  split; [exact H1|exact (H3 eq_refl)].
Defined.

Lemma append_nil_r (s : string) : s +:+ EmptyString = s.
Proof.
  induction s as [|c s IH]; [reflexivity|].
  rewrite PyStrFacts.append_cons, IH. reflexivity.
Qed.

Lemma append_assoc (s t u : string) : (s +:+ t) +:+ u = s +:+ (t +:+ u).
Proof.
  induction s as [|c s IH]; [reflexivity|].
  rewrite !PyStrFacts.append_cons, IH. reflexivity.
Qed.

(** Normalising a word followed by anything that ends in a mark. *)
Lemma normalize_word_then (cs : pyval) (s m : string) (p : ascii) :
  s <> EmptyString ->
  PyStr.forallb_str PyStr.isword s = true ->
  PyStr.isword p = false -> PyStr.isspace p = false ->
  PyStr.forallb_str PyStr.isspace m = true ->
  _normalize cs (s +:+ m +:+ String p EmptyString)
  = (if truthy cs then s else PyStr.lower s) +:+ m.
Proof.
  intros Hne Hs Hw Hsp Hm.
  assert (Hstrip : PyStr.strip (s +:+ m +:+ String p EmptyString)
                   = s +:+ m +:+ String p EmptyString).
  { unfold PyStr.strip. destruct s as [|c s]; [contradiction|].
    simpl in Hs. apply andb_prop in Hs as [Hc _].
    rewrite PyStrFacts.append_cons. simpl. rewrite (PyStrMore.isword_not_space c Hc).
    rewrite <- PyStrFacts.append_cons, <- append_assoc.
    apply PyStrMore.rstrip_ends_nonspace, Hsp. }
  assert (Hkeep : forall x, PyStr.forallb_str PyStr.isspace x = true ->
                            PyStr.sub_nonword_nonspace x = x).
  { intros x Hx. apply PyStrFacts.sub_fixed. clear -Hx.
    induction x as [|c x IH]; [reflexivity|]. simpl in *.
    apply andb_prop in Hx as [Hc Hx]. rewrite Hc, orb_true_r. auto. }
  assert (Hlow : forall x, PyStr.forallb_str PyStr.isspace x = true -> PyStr.lower x = x).
  { intros x Hx. clear -Hx. induction x as [|c x IH]; [reflexivity|]. simpl in *.
    apply andb_prop in Hx as [Hc Hx]. rewrite (IH Hx). f_equal.
    clear -Hc. destruct c as [[] [] [] [] [] [] [] []]; try reflexivity; discriminate Hc. }
  unfold _normalize. rewrite Hstrip. destruct (truthy cs); simpl.
  - rewrite !PyStrMore.sub_app. simpl. rewrite Hw, Hsp. simpl.
    rewrite (PyStrFacts.sub_fixed s (PyStrMore.word_is_kept s Hs)), (Hkeep m Hm).
    rewrite append_nil_r. reflexivity.
  - rewrite !PyStrMore.lower_app, !PyStrMore.sub_app. simpl.
    rewrite PyStrMore.isword_lower, PyStrMore.isspace_lower, Hw, Hsp. simpl.
    rewrite (PyStrFacts.sub_fixed _ (PyStrMore.word_is_kept _ (PyStrMore.lower_word s Hs))).
    rewrite (Hlow m Hm), (Hkeep m Hm), append_nil_r. reflexivity.
Qed.

(** X11: punctuation is deleted only after the ends were trimmed, so white
    space in front of a trailing mark stays.  For strings of code points
    below 256 (the strings of this model, on which [str.lower] works
    character by character): for a canonical answer made of word
    characters, the response with a mark right behind it is correct, and
    the response with a blank before that mark is wrong. *)
Theorem shortanswer_blank_before_mark_is_wrong (q : Question) (cs : pyval)
    (s : string) (p : ascii) :
  _class q = ShortAnswer cs -> _answer q = PStr s ->
  s <> EmptyString ->
  PyStr.forallb_str PyStr.isword s = true ->
  PyStr.isword p = false -> PyStr.isspace p = false ->
  check_answer q s = Ok true
  /\ check_answer q (s +:+ String p EmptyString) = Ok true
  /\ check_answer q (s +:+ " " +:+ String p EmptyString) = Ok false.
Proof.
  intros Hc Ha Hne Hs Hw Hsp. unfold check_answer. rewrite Hc, Ha.
  assert (Hn : _normalize cs s = if truthy cs then s else PyStr.lower s).
  { unfold _normalize. rewrite (PyStrMore.strip_word s Hs).
    destruct (truthy cs); simpl; apply PyStrFacts.sub_fixed, PyStrMore.word_is_kept;
      [exact Hs|apply PyStrMore.lower_word, Hs]. }
  split; [rewrite String.eqb_refl; reflexivity|]. split.
  - pose proof (normalize_word_then cs s EmptyString p Hne Hs Hw Hsp eq_refl) as H.
    change (s +:+ EmptyString +:+ String p EmptyString) with (s +:+ String p EmptyString) in H.
    rewrite H, Hn, append_nil_r, String.eqb_refl. reflexivity.
  - rewrite (normalize_word_then cs s " " p Hne Hs Hw Hsp eq_refl), Hn.
    f_equal. apply String.eqb_neq. intros E. apply (f_equal String.length) in E.
    rewrite PyStrMore.append_length in E. simpl in E. lia.
Qed.

Lemma shortanswer_blank_before_mark_is_wrong_witness :
  check_answer Demo.two_plus_two "4!" = Ok true
  /\ check_answer Demo.two_plus_two "4 !" = Ok false.
Proof.
  destruct (shortanswer_blank_before_mark_is_wrong Demo.two_plus_two (PBool false) "4" "!"%char
              eq_refl eq_refl) as (_ & H1 & H2); try reflexivity; [discriminate|].
  split; [exact H1|exact H2].
Defined.

(** ** The session ([arcontroller.py]) *)

Lemma keeps_stdin_ret {A} (a : A) : keeps_stdin (ret a).
Proof. intros w. reflexivity. Qed.

Lemma keeps_stdin_raise {A} (e : exn) : keeps_stdin (@raise A e).
Proof. intros w. reflexivity. Qed.

Lemma keeps_stdin_lift {A} (r : result A) : keeps_stdin (lift r).
Proof. intros w. reflexivity. Qed.

Lemma keeps_stdin_bind {A B} (m : M A) (k : A -> M B) :
  keeps_stdin m -> (forall a, keeps_stdin (k a)) -> keeps_stdin (bind m k).
Proof.
  intros Hm Hk w. unfold bind. specialize (Hm w).
  destruct (m w) as [[a|e] w1]; simpl in *; [rewrite Hk|]; exact Hm.
Qed.

Lemma keeps_stdin_deref (r : ref) : keeps_stdin (deref r).
Proof. intros w. unfold deref. destruct (heap w !! r); reflexivity. Qed.

Lemma keeps_stdin_set_last_asked (r : ref) (t : datetime) : keeps_stdin (set_last_asked r t).
Proof. intros w. unfold set_last_asked. destruct (heap w !! r); reflexivity. Qed.

Lemma keeps_stdin_print (s : string) : keeps_stdin (print s).
Proof. intros w. reflexivity. Qed.

Lemma keeps_stdin_mapM {A B} (f : A -> M B) (l : list A) :
  (forall a, keeps_stdin (f a)) -> keeps_stdin (mapM f l).
Proof.
  intros Hf. induction l as [|x l IH]; simpl; [apply keeps_stdin_ret|].
  apply keeps_stdin_bind; [apply Hf|]. intros y.
  apply keeps_stdin_bind; [exact IH|]. intros ys. apply keeps_stdin_ret.
Qed.

Lemma keeps_stdin_for_each {A} (f : A -> M unit) (l : list A) :
  (forall a, keeps_stdin (f a)) -> keeps_stdin (for_each f l).
Proof.
  intros Hf. induction l as [|x l IH]; simpl; [apply keeps_stdin_ret|].
  apply keeps_stdin_bind; [apply Hf|]. intros _. exact IH.
Qed.

Lemma keeps_stdin_first_due (now : datetime) (interval : timedelta) (l : list ref) :
  keeps_stdin (first_due now interval l).
Proof.
  induction l as [|r l IH]; simpl; [apply keeps_stdin_ret|].
  apply keeps_stdin_bind; [apply keeps_stdin_deref|]. intros q.
  destruct (_ >=? _)%Z; [apply keeps_stdin_ret|exact IH].
Qed.

Lemma keeps_stdin_get_next_priority_question (b : Box) :
  keeps_stdin (get_next_priority_question b).
Proof.
  unfold get_next_priority_question, sorted_by_last_asked.
  apply keeps_stdin_bind.
  - apply keeps_stdin_bind; [|intros; apply keeps_stdin_ret].
    apply keeps_stdin_mapM. intros r.
    apply keeps_stdin_bind; [apply keeps_stdin_deref|]. intros; apply keeps_stdin_ret.
  - intros sl. apply keeps_stdin_bind; [intros w; reflexivity|].
    intros now. apply keeps_stdin_first_due.
Qed.

Lemma keeps_stdin_get_next_question (mgr : BoxManager) : keeps_stdin (get_next_question mgr).
Proof.
  unfold get_next_question. induction (all_but_last (_boxes mgr)) as [|b bs IH]; simpl.
  - apply keeps_stdin_ret.
  - apply keeps_stdin_bind; [apply keeps_stdin_get_next_priority_question|].
    intros [q|]; [apply keeps_stdin_ret|exact IH].
Qed.

Lemma keeps_stdin_ask (r : ref) : keeps_stdin (ask r).
Proof.
  unfold ask. apply keeps_stdin_bind; [apply keeps_stdin_deref|]. intros q.
  apply keeps_stdin_bind; [intros w; reflexivity|]. intros now.
  apply keeps_stdin_bind; [apply keeps_stdin_set_last_asked|]. intros _.
  destruct (_class q); apply keeps_stdin_ret.
Qed.

Lemma keeps_stdin_move_question (mgr : BoxManager) (r : ref) (c : bool) :
  keeps_stdin (move_question mgr r c).
Proof.
  unfold move_question.
  apply keeps_stdin_bind; [apply keeps_stdin_deref|]. intros q.
  apply keeps_stdin_bind.
  { unfold dict_get. destruct (_ !! _); [apply keeps_stdin_ret|apply keeps_stdin_raise]. }
  intros i. apply keeps_stdin_bind.
  { unfold list_get. destruct (_ !! _); [apply keeps_stdin_ret|apply keeps_stdin_raise]. }
  intros bi. apply keeps_stdin_bind.
  { intros w. rewrite remove_question_run. reflexivity. }
  intros bi'. apply keeps_stdin_bind.
  { unfold list_get. destruct (_ !! _); [apply keeps_stdin_ret|apply keeps_stdin_raise]. }
  intros bj. apply keeps_stdin_bind.
  { intros w. rewrite add_question_run. reflexivity. }
  intros bj'. apply keeps_stdin_bind; [|intros; apply keeps_stdin_ret].
  unfold _log_box_counts. apply keeps_stdin_for_each. intros b. apply keeps_stdin_print.
Qed.

(** A turn that does not end the loop has read exactly one line. *)
Lemma start_turn_reads_a_line (mgr mgr' : BoxManager) (w w' : World) :
  start_turn mgr w = (Ok (mgr', Continue), w') ->
  exists line, stdin w = line :: stdin w'.
Proof.
  unfold start_turn. intros H. unfold bind at 1 in H.
  pose proof (keeps_stdin_get_next_question mgr w) as H1.
  destruct (get_next_question mgr w) as [[[r|]|e] w1]; simpl in H1; [| |discriminate].
  2:{ unfold bind, print, ret in H. discriminate. }
  unfold bind at 1 in H. pose proof (keeps_stdin_ask r w1) as H2.
  destruct (ask r w1) as [[text|e] w2]; simpl in H2; [|discriminate].
  unfold bind at 1, print at 1 in H. unfold bind at 1, input at 1 in H. simpl in H.
  destruct (stdin w2) as [|line rest] eqn:Hin; [discriminate|].
  exists line. rewrite <- H1, <- H2. f_equal.
  destruct (String.eqb (PyStr.lower line) "q"); [discriminate|].
  match type of H with bind (deref r) _ ?v = _ => set (v0 := v) in * end.
  assert (Hstd : stdin w' = stdin v0).
  { match type of H with ?m v0 = _ =>
      assert (Hks : keeps_stdin m); [|specialize (Hks v0); rewrite H in Hks; exact Hks] end.
    apply keeps_stdin_bind; [apply keeps_stdin_deref|]. intros q.
    apply keeps_stdin_bind; [apply keeps_stdin_lift|]. intros c.
    apply keeps_stdin_bind.
    { destruct c; (apply keeps_stdin_bind; [apply keeps_stdin_print|]);
        intros; apply keeps_stdin_ret. }
    intros a. apply keeps_stdin_bind; [apply keeps_stdin_move_question|].
    intros m. apply keeps_stdin_ret. }
  rewrite Hstd. reflexivity.
Qed.

(** X12: every turn that continues consumes one typed line, so the loop
    ends, by completion, by quit or by an exception, after at most one turn
    more than there are lines to read; more fuel changes nothing. *)
Theorem session_ends_with_the_input (fuel : nat) (mgr : BoxManager) (w : World) :
  length (stdin w) < fuel ->
  fst (start_loop fuel mgr w) <> Ok None
  /\ start_loop fuel mgr w = start_loop (S (length (stdin w))) mgr w
  /\ fst (start fuel mgr w) <> Ok None.
Proof.
  assert (Hgen : forall f m v, length (stdin v) < f ->
            fst (start_loop f m v) <> Ok None
            /\ forall f', f <= f' -> start_loop f' m v = start_loop f m v).
  { induction f as [|f IH]; intros m v Hlen; [lia|].
    simpl. unfold bind at 1 2.
    destruct (start_turn m v) as [[[m1 [|]]|e] v1] eqn:Ht.
    - destruct (start_turn_reads_a_line _ _ _ _ Ht) as [line Hline].
      assert (Hlen1 : length (stdin v1) < f) by (rewrite Hline in Hlen; simpl in Hlen; lia).
      destruct (IH m1 v1 Hlen1) as [Hne Hmono]. split; [exact Hne|].
      intros [|f'] Hf'; [lia|]. simpl. unfold bind at 1. rewrite Ht. apply Hmono. lia.
    - split; [discriminate|]. intros [|f'] Hf'; [lia|]. simpl. unfold bind. rewrite Ht.
      reflexivity.
    - split; [discriminate|]. intros [|f'] Hf'; [lia|]. simpl. unfold bind. rewrite Ht.
      reflexivity. }
  intros Hlen. destruct (Hgen (S (length (stdin w))) mgr w) as [Hne Hmono]; [lia|].
  split; [rewrite Hmono by lia; exact Hne|]. split; [apply Hmono; lia|].
  unfold start, bind at 1, print at 1.
  destruct (Hgen fuel mgr (with_stdout (stdout w ++ ["Type 'q' at any time to quit the session."]) w))
    as [Hne' _]; [exact Hlen|].
  unfold bind. destruct (start_loop fuel mgr _) as [[[m|]|e] v]; simpl in *;
    [discriminate|contradiction|discriminate].
Qed.

Lemma session_ends_with_the_input_witness :
  fst (start_loop 3 Demo.manager (Demo.world Demo.heap3 ["the answer"; "Q"])) <> Ok None.
Proof.
  apply (session_ends_with_the_input 3 Demo.manager (Demo.world Demo.heap3 ["the answer"; "Q"])).
  simpl. lia.
Defined.

Lemma ask_run_text (r : ref) (q : Question) (w : World) :
  heap w !! r = Some q ->
  ask r w = (Ok (ask_text q),
             with_heap (<[r := with_last_asked (clock w (ticks w)) q]> (heap w))
                       (with_ticks (S (ticks w)) w)).
Proof.
  intros Hq. unfold ask. rewrite (bind_ok _ _ w w q (deref_ok r q w Hq)).
  unfold bind at 1, datetime_now at 1.
  unfold bind at 1, set_last_asked at 1. simpl. rewrite Hq.
  unfold ask_text. destruct (_class q); reflexivity.
Qed.

(** A turn in which a question is presented, step by step. *)
Lemma start_turn_presented (mgr : BoxManager) (r : ref) (q : Question) (w w1 : World) :
  get_next_question mgr w = (Ok (Some r), w1) ->
  heap w1 !! r = Some q ->
  let q' := with_last_asked (clock w1 (ticks w1)) q in
  let w2 := presented r q w1 in
  start_turn mgr w
  = match stdin w1 with
    | [] => (Raise EOFError, w2)
    | line :: rest =>
        let w3 := with_stdin rest w2 in
        if String.eqb (PyStr.lower line) "q" then (Ok (mgr, Break), w3)
        else match check_answer q' line with
             | Raise e => (Raise e, w3)
             | Ok c =>
                 bind (move_question mgr r c) (fun m => ret (m, Continue))
                      (with_stdout
                         (stdout w3 ++ [if c then "Correct!" else incorrect_feedback q']) w3)
             end
    end.
Proof.
  intros Hnext Hq q' w2. unfold start_turn. rewrite (bind_ok _ _ _ _ _ Hnext).
  rewrite (bind_ok _ _ _ _ _ (ask_run_text r q w1 Hq)).
  unfold bind at 1, print at 1. unfold bind at 1, input at 1. simpl.
  unfold w2, presented. rewrite <- app_assoc. simpl.
  destruct (stdin w1) as [|line rest]; [reflexivity|].
  destruct (String.eqb (PyStr.lower line) "q"); [reflexivity|].
  unfold bind at 1, deref at 1. simpl.
  rewrite list_lookup_insert_eq by (eapply lookup_lt_Some, Hq). fold q'.
  unfold bind at 1, lift at 1.
  destruct (check_answer q' line) as [c|e]; [|reflexivity].
  destruct c; reflexivity.
Qed.

(** X13: when a question is due but nothing is left to read, [input] raises
    [EOFError] and the session stops there: the question was presented and
    stamped, it is not moved, and the closing line is never printed. *)
Theorem session_without_input_raises_eof (mgr : BoxManager) (question : ref)
    (q : Question) (n fuel : nat) (w : World) :
  get_next_question mgr w = (Ok (Some question), with_ticks (ticks w + n) w) ->
  heap w !! question = Some q ->
  stdin w = [] ->
  let w' := presented question q (with_ticks (ticks w + n) w) in
  start_turn mgr w = (Raise EOFError, w')
  /\ start_loop (S fuel) mgr w = (Raise EOFError, w')
  /\ heap w' !! question = Some (with_last_asked (clock w (ticks w + n)) q)
  /\ stdout w' = stdout w ++ [ask_text q; "Your answer: "].
Proof.
  intros Hnext Hq Hin w'.
  pose proof (start_turn_presented mgr question q w _ Hnext Hq) as Hturn.
  simpl in Hturn. rewrite Hin in Hturn. fold w' in Hturn.
  split; [exact Hturn|]. split; [simpl; rewrite (bind_raise _ _ _ _ _ Hturn); reflexivity|].
  split; [|reflexivity].
  simpl. apply list_lookup_insert_eq. eapply lookup_lt_Some, Hq.
Qed.

Lemma session_without_input_raises_eof_witness :
  start_loop 1 Demo.manager (Demo.world Demo.heap3 [])
  = (Raise EOFError,
     presented 2 (mkQuestion 9%N (PStr "What is it?") (PStr "the answer") 62999999600000000%N
                    (ShortAnswer (PBool false)))
       (with_ticks 1 (Demo.world Demo.heap3 []))).
Proof.
  apply (session_without_input_raises_eof Demo.manager 2 _ 1 0 (Demo.world Demo.heap3 [])
           eq_refl eq_refl eq_refl).
Defined.

(** X14: a response to a true/false question that is neither the quit
    letter nor one of true, t, false, f makes [check_answer] raise
    [ValueError], which [start] does not catch: the session ends with that
    exception, the question stamped but not moved, no verdict printed. *)
Theorem unparseable_truefalse_response_ends_session (mgr : BoxManager) (question : ref)
    (q : Question) (e : pyval) (n fuel : nat) (line : string) (rest : list string)
    (w : World) :
  get_next_question mgr w = (Ok (Some question), with_ticks (ticks w + n) w) ->
  heap w !! question = Some q ->
  _class q = TrueFalse e ->
  stdin w = line :: rest ->
  PyStr.lower line <> "q" ->
  PyStr.in_list (PyStr.lower (PyStr.strip line)) ["true"; "t"; "false"; "f"] = false ->
  let w' := with_stdin rest (presented question q (with_ticks (ticks w + n) w)) in
  start_turn mgr w = (Raise (ValueError "Answer must be 'True' or 'False'."), w')
  /\ start_loop (S fuel) mgr w = (Raise (ValueError "Answer must be 'True' or 'False'."), w')
  /\ stdout w' = stdout w ++ [ask_text q; "Your answer: "].
Proof.
  intros Hnext Hq Hc Hin Hquit Htok w'.
  pose proof (start_turn_presented mgr question q w _ Hnext Hq) as Hturn.
  simpl in Hturn. rewrite Hin in Hturn.
  apply String.eqb_neq in Hquit. rewrite Hquit in Hturn.
  assert (Hraise : check_answer (with_last_asked (clock w (ticks w + n)) q) line
                   = Raise (ValueError "Answer must be 'True' or 'False'.")).
  { unfold check_answer. simpl. rewrite Hc.
    unfold PyStr.in_list in *. simpl in *.
    repeat (apply orb_false_iff in Htok as [? Htok]).
    repeat match goal with H : String.eqb _ _ = false |- _ => rewrite H; clear H end.
    reflexivity. }
  rewrite Hraise in Hturn. fold w' in Hturn.
  split; [exact Hturn|]. split; [simpl; rewrite (bind_raise _ _ _ _ _ Hturn); reflexivity|].
  reflexivity.
Qed.

Lemma unparseable_truefalse_response_ends_session_witness :
  exists w',
    start_loop 1 (mkBoxManager (<[1 := Demo.unasked]> (_boxes BoxManager_init))
                               {[ Uuid.str 8%N := 1 ]})
               (Demo.world Demo.heap3 ["yes"])
    = (Raise (ValueError "Answer must be 'True' or 'False'."), w').
Proof.
  eexists.
  refine (proj1 (proj2 (unparseable_truefalse_response_ends_session
           (mkBoxManager (<[1 := Demo.unasked]> (_boxes BoxManager_init))
                         {[ Uuid.str 8%N := 1 ]})
           1 Demo.sky (PStr EmptyString) 2 0 "yes" []
           (Demo.world Demo.heap3 ["yes"]) _ _ _ _ _ _))).
  - reflexivity.
  - reflexivity.
  - reflexivity.
  - reflexivity.
  - discriminate.
  - reflexivity.
Defined.

(** A short-answer record that has its prompt and its answer becomes a new
    object, whatever the answer is. *)
Lemma initialize_shortanswer (mgr : BoxManager) (q_data : gmap string pyval)
    (text answer : pyval) (b1 : Box) (w : World) :
  q_data !! "type" = Some (PStr "shortanswer") ->
  q_data !! "question" = Some text ->
  q_data !! "correct_answer" = Some answer ->
  _boxes mgr !! 1 = Some b1 ->
  let q' := mkQuestion (uuid4_src w (uuid4_calls w)) text answer datetime_min
              (ShortAnswer (record_get_default q_data "case_sensitive" (PBool false))) in
  let h' := heap w ++ [q'] in
  _initialize_question mgr q_data w
  = (Ok (mkBoxManager
           (<[1 := mkBox (_name b1) (added h' (_questions b1) (length (heap w)))
                         (_priority_interval b1)]> (_boxes mgr))
           (<[Uuid.str (_id q') := 1]> (_question_location mgr))),
     with_heap h' (with_uuid4_calls (S (uuid4_calls w)) w)).
Proof.
  intros Ht Hq Ha Hb1 q' h'.
  set (w1 := with_uuid4_calls (S (uuid4_calls w)) w).
  assert (Hadd : add_new_question mgr (length (heap w)) (with_heap h' w1)
    = (Ok (mkBoxManager
             (<[1 := mkBox (_name b1) (added h' (_questions b1) (length (heap w)))
                           (_priority_interval b1)]> (_boxes mgr))
             (<[Uuid.str (_id q') := 1]> (_question_location mgr))),
       with_heap h' w1)).
  { apply add_new_question_run; [|exact Hb1].
    unfold h'. simpl. rewrite lookup_app_r by lia. rewrite Nat.sub_diag. reflexivity. }
  unfold _initialize_question, try_except_KeyError.
  unfold record_get_default at 1. rewrite Ht. simpl default.
  change (py_eq (PStr "shortanswer") (PStr "shortanswer")) with true. cbv iota.
  unfold bind at 1 2, record_get at 1 2. rewrite Hq, Ha. unfold ret at 1 2.
  unfold bind at 1, new_ShortAnswer, bind at 1, Question_init, bind at 1, uuid4, ret, alloc.
  simpl. fold q' h' w1. rewrite Hadd. reflexivity.
Qed.

(** X15: the loader accepts a short-answer record whatever the type of its
    answer: the constructor of the controller, given such a record alone,
    succeeds without a diagnostic and puts one new [ShortAnswer] object with
    that answer into box 1, registered at index 1.  If the answer is not a
    string, every response to such a question makes [check_answer] raise
    [AttributeError], and in a session every response except the quit letter
    ends the session with that exception. *)
Theorem non_string_short_answer_ends_session (mgr : BoxManager) (question : ref)
    (q : Question) (cs : pyval) (n fuel : nat) (line : string) (rest : list string)
    (w : World) :
  get_next_question mgr w = (Ok (Some question), with_ticks (ticks w + n) w) ->
  heap w !! question = Some q ->
  _class q = ShortAnswer cs ->
  (forall s, _answer q <> PStr s) ->
  stdin w = line :: rest ->
  PyStr.lower line <> "q" ->
  (forall q_data text w0,
      q_data !! "type" = Some (PStr "shortanswer") ->
      q_data !! "question" = Some text ->
      q_data !! "correct_answer" = Some (_answer q) ->
      exists mgr1 w1 q',
        ARController_init [q_data] w0 = (Ok mgr1, w1)
        /\ heap w1 = heap w0 ++ [q']
        /\ stdout w1 = stdout w0
        /\ _question q' = text
        /\ _answer q' = _answer q
        /\ isinstance_ShortAnswer q' = true
        /\ _questions <$> _boxes mgr1 = [[]; [length (heap w0)]; []; []; []]
        /\ _question_location mgr1 !! Uuid.str (_id q') = Some 1
        /\ forall response, exists msg, check_answer q' response = Raise (AttributeError msg))
  /\ exists msg,
       check_answer q line = Raise (AttributeError msg)
       /\ start_loop (S fuel) mgr w
          = (Raise (AttributeError msg),
             with_stdin rest (presented question q (with_ticks (ticks w + n) w))).
Proof.
  intros Hnext Hq Hc Hns Hin Hquit. split.
  - intros q_data text w0 Ht Hqt Ha.
    pose proof (initialize_shortanswer BoxManager_init q_data text (_answer q)
                  (Box_init "Unasked Questions" (seconds 0)) w0 Ht Hqt Ha eq_refl) as Hload.
    cbv zeta in Hload. eexists _, _, _. split.
    { unfold ARController_init. simpl. rewrite (bind_ok _ _ _ _ _ Hload). reflexivity. }
    split; [reflexivity|]. split; [reflexivity|]. split; [reflexivity|].
    split; [reflexivity|]. split; [reflexivity|]. split; [reflexivity|].
    split; [apply lookup_insert_eq|].
    intros response. unfold check_answer. simpl.
    destruct (_answer q) as [| | |s] eqn:E; try (destruct (Hns s eq_refl));
      eexists; reflexivity.
  - pose proof (start_turn_presented mgr question q w _ Hnext Hq) as Hturn.
    simpl in Hturn. rewrite Hin in Hturn.
    apply String.eqb_neq in Hquit. rewrite Hquit in Hturn.
    unfold check_answer in *. simpl in Hturn. rewrite Hc in *.
    destruct (_answer q) as [| | |s] eqn:Ha; try (destruct (Hns s eq_refl));
      (eexists; split; [reflexivity|]);
      simpl; rewrite (bind_raise _ _ _ _ _ Hturn); reflexivity.
Qed.

Lemma non_string_short_answer_ends_session_witness :
  (exists mgr1 w1,
     ARController_init
       [{[ "type" := PStr "shortanswer"; "question" := PStr "2+2?";
           "correct_answer" := PInt 4 ]}] (Demo.world [] []) = (Ok mgr1, w1)
     /\ _questions <$> _boxes mgr1 = [[]; [0]; []; []; []])
  /\ exists msg w',
    start_loop 1 (mkBoxManager (<[1 := Demo.unasked]> (_boxes BoxManager_init)) ∅)
               (Demo.world [Demo.sky; mkQuestion 7%N (PStr "2+2?") (PInt 4) datetime_min
                                        (ShortAnswer (PBool false))] ["4"])
    = (Raise (AttributeError msg), w').
Proof.
  destruct (non_string_short_answer_ends_session
              (mkBoxManager (<[1 := Demo.unasked]> (_boxes BoxManager_init)) ∅)
              1 (mkQuestion 7%N (PStr "2+2?") (PInt 4) datetime_min (ShortAnswer (PBool false)))
              (PBool false) 2 0 "4" []
              (Demo.world [Demo.sky; mkQuestion 7%N (PStr "2+2?") (PInt 4) datetime_min
                                       (ShortAnswer (PBool false))] ["4"]))
    as (Hload & msg & _ & Hrun).
  - reflexivity.
  - reflexivity.
  - reflexivity.
  - intros s. discriminate.
  - reflexivity.
  - discriminate.
  - split.
    + destruct (Hload {[ "type" := PStr "shortanswer"; "question" := PStr "2+2?";
                         "correct_answer" := PInt 4 ]} (PStr "2+2?") (Demo.world [] []))
        as (mgr1 & w1 & q' & H1 & _ & _ & _ & _ & _ & H2 & _);
        [vm_compute; reflexivity|vm_compute; reflexivity|vm_compute; reflexivity|].
      exists mgr1, w1. split; [exact H1|exact H2].
    + eexists _, _. exact Hrun.
Defined.

Lemma check_answer_raises (q : Question) (s : string) (e : exn) :
  check_answer q s = Raise e ->
  (exists msg, e = ValueError msg) \/ (exists msg, e = AttributeError msg).
Proof.
  unfold check_answer. destruct (_class q).
  - destruct (_answer q); intros [= <-]; eauto.
  - destruct (PyStr.in_list _ ["true"; "t"]); [discriminate|].
    destruct (PyStr.in_list _ ["false"; "f"]); [discriminate|]. intros [= <-]. eauto.
Qed.

Lemma same_ids_refl (h : list Question) : same_ids h h.
Proof. intros x. reflexivity. Qed.

Lemma same_ids_trans (h1 h2 h3 : list Question) :
  same_ids h1 h2 -> same_ids h2 h3 -> same_ids h1 h3.
Proof. intros H12 H23 x. rewrite (H23 x). apply H12. Qed.

(** What a turn can do to a consistent manager. *)
Lemma start_turn_safe (mgr : BoxManager) (w : World) :
  heap_ok (heap w) -> consistent (heap w) mgr ->
  exists r w',
    start_turn mgr w = (r, w')
    /\ same_ids (heap w) (heap w')
    /\ match r with
       | Ok (mgr', _) => consistent (heap w') mgr'
       | Raise e => e = EOFError \/ (exists msg, e = ValueError msg)
                    \/ (exists msg, e = AttributeError msg)
       end.
Proof.
  intros Hh Hc.
  destruct (get_next_question_run mgr w) as (res & n & Hrun & _ & Hres).
  { intros k b _ Hb. eapply cons_valid; eauto. }
  destruct res as [r|].
  2:{ eexists _, _. split.
      - unfold start_turn. rewrite (bind_ok _ _ _ _ _ Hrun). reflexivity.
      - simpl. split; [apply same_ids_refl|exact Hc]. }
  destruct (Hres r eq_refl) as (k & b & _ & Hb & Hin & _).
  destruct (valid_refs_elem _ _ _ (cons_valid _ _ Hc k b Hb) Hin) as [q Hq].
  pose proof (cons_member _ _ Hc k b r q Hb Hin Hq) as Hloc.
  set (w1 := with_ticks (ticks w + n) w) in *.
  pose proof (start_turn_presented mgr r q w w1 Hrun Hq) as Hturn. cbv zeta in Hturn.
  set (q' := with_last_asked (clock w1 (ticks w1)) q) in *.
  assert (Hs : same_ids (heap w) (<[r := q']> (heap w))) by (apply insert_same_ids, Hq).
  assert (Hc' : consistent (<[r := q']> (heap w)) mgr) by (eapply consistent_same_ids; eauto).
  assert (Hh' : heap_ok (<[r := q']> (heap w))) by (eapply heap_ok_same_ids; eauto).
  destruct (stdin w1) as [|line rest].
  { eexists _, _. split; [exact Hturn|]. simpl. split; [exact Hs|auto]. }
  destruct (String.eqb (PyStr.lower line) "q").
  { eexists _, _. split; [exact Hturn|]. simpl. split; [exact Hs|exact Hc']. }
  destruct (check_answer q' line) as [c|e] eqn:Hcheck.
  2:{ eexists _, _. split; [exact Hturn|]. simpl. split; [exact Hs|].
      right. apply (check_answer_raises _ _ _ Hcheck). }
  match type of Hturn with _ = bind _ _ ?v => set (w4 := v) in * end.
  destruct (move_question_consistent mgr r q' c k w4) as (mgr' & out & Hmove & Hcm & _).
  - exact Hh'.
  - exact Hc'.
  - simpl. apply list_lookup_insert_eq. eapply lookup_lt_Some, Hq.
  - exact Hloc.
  - rewrite (bind_ok _ _ _ _ _ Hmove) in Hturn.
    eexists _, _. split; [exact Hturn|]. simpl. split; [exact Hs|exact Hcm].
Qed.

(** X16: a session on a consistent manager never fails with [KeyError] or
    [IndexError]: whatever is typed, the loop either is still running, or
    has ended with a manager for which the invariant holds, or was ended by
    [EOFError], [ValueError] or [AttributeError]; the objects keep their
    identifiers throughout. *)
Theorem session_is_safe (fuel : nat) (mgr : BoxManager) (w : World) :
  heap_ok (heap w) ->
  consistent (heap w) mgr ->
  exists r w',
    start_loop fuel mgr w = (r, w')
    /\ heap_ok (heap w')
    /\ same_ids (heap w) (heap w')
    /\ match r with
       | Ok (Some mgr') => consistent (heap w') mgr'
       | Ok None => True
       | Raise e => e = EOFError \/ (exists msg, e = ValueError msg)
                    \/ (exists msg, e = AttributeError msg)
       end.
Proof.
  revert mgr w. induction fuel as [|fuel IH]; intros mgr w Hh Hc.
  - exists (Ok None), w. split; [reflexivity|]. split; [exact Hh|].
    split; [apply same_ids_refl|exact I].
  - destruct (start_turn_safe mgr w Hh Hc) as (r & w1 & Hturn & Hs & Hr).
    pose proof (heap_ok_same_ids _ _ Hs Hh) as Hh1.
    simpl. unfold bind. rewrite Hturn. destruct r as [[mgr1 [|]]|e].
    + destruct (IH mgr1 w1 Hh1 Hr) as (r2 & w2 & Hloop & Hh2 & Hs2 & Hr2).
      exists r2, w2. split; [exact Hloop|]. split; [exact Hh2|].
      split; [eapply same_ids_trans; eauto|exact Hr2].
    + eexists _, _. split; [reflexivity|]. split; [exact Hh1|]. split; [exact Hs|exact Hr].
    + eexists _, _. split; [reflexivity|]. split; [exact Hh1|]. split; [exact Hs|exact Hr].
Qed.

Lemma session_is_safe_witness :
  exists r w',
    start_loop 3 Demo.manager (Demo.world Demo.heap3 ["the answer"; "Q"]) = (r, w')
    /\ heap_ok (heap w').
Proof.
  destruct (session_is_safe 3 Demo.manager (Demo.world Demo.heap3 ["the answer"; "Q"])
              demo_heap3_ok demo_manager_consistent) as (r & w' & Hrun & Hh & _).
  exists r, w'. split; [exact Hrun|exact Hh].
Defined.

(** X17: when boxes 0 to 3 hold no question (nothing was loaded, or every
    question has reached box 4) the session is over at once: the clock is
    read four times, the greeting, the completion line and the farewell are
    printed, nothing is read and the manager is returned as it was. *)
Theorem session_with_nothing_to_ask (fuel : nat) (mgr : BoxManager) (w : World) :
  length (_boxes mgr) = 5 ->
  (forall k b, k < 4 -> _boxes mgr !! k = Some b -> _questions b = []) ->
  start (S fuel) mgr w
  = (Ok (Some mgr),
     with_stdout (stdout w ++ ["Type 'q' at any time to quit the session.";
                               "All questions have been reviewed. Session complete!";
                               "Thank you, goodbye!"])
                 (with_ticks (ticks w + 4) w)).
Proof.
  intros Hlen Hempty.
  assert (Hlook : forall k b, all_but_last (_boxes mgr) !! k = Some b -> _questions b = []).
  { intros k b Hk. rewrite all_but_last_lookup, Hlen in Hk.
    destruct (decide (k < 5 - 1)); [|discriminate]. apply (Hempty k b); [lia|exact Hk]. }
  assert (Hgen : forall v, heap v = heap w ->
            get_next_question mgr v = (Ok None, with_ticks (ticks v + 4) v)).
  { intros v Hv.
    destruct (first_question_run (all_but_last (_boxes mgr)) v) as (res & n & Hrun & Hres).
    { apply Forall_lookup. intros k b Hk. rewrite (Hlook k b Hk). constructor. }
    destruct res as [q|].
    - destruct Hres as (k & b & Hk & _ & Hq & _). unfold query_at in Hq.
      destruct (get_next_priority_question_spec b (with_ticks (ticks v + k) v))
        as (r & Hr & Hspec); [rewrite (Hlook k b Hk); constructor|].
      rewrite Hr in Hq. simpl in Hq. injection Hq as ->.
      destruct Hspec as (Hin & _). rewrite (Hlook k b Hk) in Hin.
      apply elem_of_nil in Hin. contradiction.
    - destruct Hres as (-> & _). unfold get_next_question. rewrite Hrun.
      unfold all_but_last. rewrite length_take, Hlen. reflexivity. }
  set (w0 := with_stdout (stdout w ++ ["Type 'q' at any time to quit the session."]) w).
  assert (Hturn : start_turn mgr w0
                  = (Ok (mgr, Break),
                     with_stdout (stdout w0 ++ ["All questions have been reviewed. Session complete!"])
                                 (with_ticks (ticks w0 + 4) w0))).
  { unfold start_turn. rewrite (bind_ok _ _ _ _ _ (Hgen w0 eq_refl)). reflexivity. }
  assert (Hloop : start_loop (S fuel) mgr w0
                  = (Ok (Some mgr),
                     with_stdout (stdout w0 ++ ["All questions have been reviewed. Session complete!"])
                                 (with_ticks (ticks w0 + 4) w0))).
  { simpl. rewrite (bind_ok _ _ _ _ _ Hturn). reflexivity. }
  unfold start.
  rewrite (bind_ok (print "Type 'q' at any time to quit the session.") _ w w0 tt eq_refl).
  rewrite (bind_ok _ _ _ _ _ Hloop).
  unfold bind, print, ret, w0, with_stdout, with_ticks. simpl.
  rewrite <- !app_assoc. reflexivity.
Qed.

Lemma session_with_nothing_to_ask_witness :
  start 1 BoxManager_init (Demo.world [] ["never read"])
  = (Ok (Some BoxManager_init),
     with_stdout ["Type 'q' at any time to quit the session.";
                  "All questions have been reviewed. Session complete!";
                  "Thank you, goodbye!"]
                 (with_ticks 4 (Demo.world [] ["never read"]))).
Proof.
  apply (session_with_nothing_to_ask 0 BoxManager_init (Demo.world [] ["never read"])).
  - reflexivity.
  - intros k b Hk Hb. destruct k as [|[|[|[|k]]]]; simpl in Hb; try lia;
      injection Hb as <-; reflexivity.
Defined.

(** After a move the occupancy of every box is printed, in ladder order,
    as it is after the move. *)
Lemma move_question_prints_counts (mgr mgr' : BoxManager) (r : ref) (c : bool) (w w' : World) :
  move_question mgr r c w = (Ok mgr', w') ->
  w' = with_stdout (stdout w ++ (count_line <$> _boxes mgr')) w.
Proof.
  intros H. pose proof H as H0.
  apply move_question_inv in H as (q & i & bi & bj & Hq & Hi & Hbi & Hbj & _ & ->).
  unfold move_question in H0.
  rewrite (bind_ok _ _ w w q (deref_ok r q w Hq)) in H0.
  unfold dict_get in H0. rewrite Hi in H0. rewrite (bind_ok _ _ w w i eq_refl) in H0.
  unfold list_get at 1 in H0. rewrite Hbi in H0. rewrite (bind_ok _ _ w w bi eq_refl) in H0.
  rewrite (bind_ok _ _ w w _ (remove_question_run bi r w)) in H0. simpl in H0.
  unfold list_get in H0. rewrite Hbj in H0. rewrite (bind_ok _ _ w w bj eq_refl) in H0.
  rewrite (bind_ok _ _ w w _ (add_question_run bj r w)) in H0. simpl in H0.
  unfold _log_box_counts in H0.
  erewrite bind_ok in H0; [|apply for_each_print_run]. unfold ret in H0.
  injection H0 as <-. reflexivity.
Qed.

Lemma check_answer_ignores_last_asked (q : Question) (t : datetime) (s : string) :
  check_answer (with_last_asked t q) s = check_answer q s.
Proof. reflexivity. Qed.

(** The scan stops at the box of the question it returns: on a consistent
    manager a question registered in box [k] is served after [k + 1]
    readings of the clock. *)
Lemma get_next_question_readings (mgr : BoxManager) (question : ref) (q : Question)
    (k n : nat) (w : World) :
  consistent (heap w) mgr ->
  get_next_question mgr w = (Ok (Some question), with_ticks (ticks w + n) w) ->
  heap w !! question = Some q ->
  _question_location mgr !! Uuid.str (_id q) = Some k ->
  n = S k /\ k < 4.
Proof.
  intros Hc Hnext Hq Hk.
  assert (Hv : Forall (fun b => valid_refs (heap w) (_questions b)) (all_but_last (_boxes mgr))).
  { apply Forall_lookup. intros j b Hj. rewrite all_but_last_lookup in Hj.
    destruct (decide (j < length (_boxes mgr) - 1)); [|discriminate].
    eapply cons_valid; eauto. }
  destruct (first_question_run _ w Hv) as (res & n0 & Hrun & Hres).
  unfold get_next_question in Hnext. rewrite Hrun in Hnext.
  injection Hnext as -> Hw.
  destruct Hres as (j & b & Hj & -> & Hquery & _).
  rewrite all_but_last_lookup in Hj.
  destruct (decide (j < length (_boxes mgr) - 1)) as [Hlt|]; [|discriminate].
  rewrite (cons_five _ _ Hc) in Hlt.
  unfold query_at in Hquery.
  destruct (get_next_priority_question_spec b (with_ticks (ticks w + j) w))
    as (r & Hr & Hspec); [eapply cons_valid; eauto|].
  rewrite Hr in Hquery. simpl in Hquery. injection Hquery as ->.
  destruct Hspec as (Hin & _).
  pose proof (cons_member _ _ Hc j b question q Hj Hin Hq) as Hloc.
  rewrite Hk in Hloc. injection Hloc as ->. split; lia.
Qed.

(** X18: a turn in which the response is scored prints the verdict
    ("Correct!" or the question's feedback) and the five occupancy lines,
    moves the asked question to box 0 or up the ladder according to the
    verdict, keeps the invariant, and continues the loop.  The question is
    stamped by [ask] with a clock reading of its own, the one that follows
    the readings of the scan: for a question in box [k] the scan reads the
    clock [k + 1] times, so the stamp is reading [k + 1] counted from the
    start of the turn, and the turn takes [k + 2] readings in all. *)
Theorem scored_turn_moves_the_question (mgr : BoxManager) (question : ref) (q : Question)
    (k n : nat) (line : string) (rest : list string) (c : bool) (w : World) :
  heap_ok (heap w) ->
  consistent (heap w) mgr ->
  get_next_question mgr w = (Ok (Some question), with_ticks (ticks w + n) w) ->
  heap w !! question = Some q ->
  _question_location mgr !! Uuid.str (_id q) = Some k ->
  stdin w = line :: rest ->
  PyStr.lower line <> "q" ->
  check_answer q line = Ok c ->
  exists mgr' w',
    start_turn mgr w = (Ok (mgr', Continue), w')
    /\ _question_location mgr' !! Uuid.str (_id q) = Some (new_box_index k c 5)
    /\ consistent (heap w') mgr'
    /\ heap w' !! question = Some (with_last_asked (clock w (ticks w + n)) q)
    /\ stdin w' = rest
    /\ stdout w'
       = stdout w ++ [ask_text q; "Your answer: ";
                      if c then "Correct!" else incorrect_feedback q]
                  ++ (count_line <$> _boxes mgr')
    /\ n = S k
    /\ ticks w' = S (ticks w + n).
Proof.
  intros Hh Hc Hnext Hq Hk Hin Hquit Hcheck.
  destruct (get_next_question_readings mgr question q k n w Hc Hnext Hq Hk) as [Hn _].
  set (w1 := with_ticks (ticks w + n) w) in *.
  pose proof (start_turn_presented mgr question q w w1 Hnext Hq) as Hturn. cbv zeta in Hturn.
  change (stdin w1) with (stdin w) in Hturn. rewrite Hin in Hturn.
  apply String.eqb_neq in Hquit. rewrite Hquit in Hturn.
  rewrite check_answer_ignores_last_asked, Hcheck in Hturn.
  set (q' := with_last_asked (clock w1 (ticks w1)) q) in *.
  match type of Hturn with _ = bind _ _ ?v => set (w4 := v) in * end.
  assert (Hs : same_ids (heap w) (heap w4)) by (apply insert_same_ids, Hq).
  destruct (move_question_consistent mgr question q' c k w4) as (mgr' & out & Hmove & Hcm & Hloc).
  - eapply heap_ok_same_ids; eauto.
  - eapply consistent_same_ids; eauto.
  - simpl. apply list_lookup_insert_eq. eapply lookup_lt_Some, Hq.
  - exact Hk.
  - pose proof (move_question_prints_counts _ _ _ _ _ _ Hmove) as Hout.
    rewrite Hout in Hmove. rewrite (bind_ok _ _ _ _ _ Hmove) in Hturn.
    eexists _, _. split; [exact Hturn|]. simpl.
    split; [rewrite Hloc; apply lookup_insert_eq|]. split; [exact Hcm|].
    split; [apply list_lookup_insert_eq; eapply lookup_lt_Some, Hq|].
    split; [reflexivity|].
    split; [rewrite <- !app_assoc; simpl; reflexivity|].
    split; [exact Hn|reflexivity].
Qed.

Lemma scored_turn_moves_the_question_witness :
  exists mgr' w',
    start_turn Demo.manager (Demo.world Demo.heap3 ["The answer."]) = (Ok (mgr', Continue), w')
    /\ _question_location mgr' !! Uuid.str 9%N = Some 2.
Proof.
  destruct (scored_turn_moves_the_question Demo.manager 2
              (mkQuestion 9%N (PStr "What is it?") (PStr "the answer") 62999999600000000%N
                 (ShortAnswer (PBool false)))
              0 1 "The answer." [] true (Demo.world Demo.heap3 ["The answer."])
              demo_heap3_ok demo_manager_consistent)
    as (mgr' & w' & Hturn & Hloc & _).
  - reflexivity.
  - reflexivity.
  - vm_compute. reflexivity.
  - reflexivity.
  - discriminate.
  - reflexivity.
  - exists mgr', w'. split; [exact Hturn|exact Hloc].
Defined.

(** ** Loading and the invariant ([arcontroller.py]) *)

Lemma consistent_alloc (h : list Question) (q : Question) (mgr : BoxManager) :
  consistent h mgr ->
  _question_location mgr !! Uuid.str (_id q) = None ->
  consistent (h ++ [q]) mgr.
Proof.
  intros Hc Hnone. split.
  - apply Hc.
  - intros k b Hb. eapply Forall_impl; [eapply cons_valid; eauto|].
    intros x [y Hy]. exists y. apply lookup_app_l_Some, Hy.
  - apply Hc.
  - intros k b r p Hb Hr Hp.
    destruct (valid_refs_elem _ _ _ (cons_valid _ _ Hc k b Hb) Hr) as [p' Hp'].
    rewrite (lookup_app_l_Some _ _ _ _ Hp') in Hp. injection Hp as <-.
    eapply cons_member; eauto.
  - intros r p k Hp Hk. apply lookup_app_Some in Hp as [Hp|[_ Hp]].
    + eapply cons_located; eauto.
    + apply list_lookup_singleton_Some in Hp as [_ <-]. rewrite Hnone in Hk. discriminate.
Qed.

Lemma uuid4_fresh_skip (w w' : World) (n : nat) :
  uuid4_fresh w (S n) ->
  heap w' = heap w -> uuid4_src w' = uuid4_src w -> uuid4_calls w' = uuid4_calls w ->
  uuid4_fresh w' n.
Proof.
  intros (Hv & Hd & Hf) Hh Hs Hc. unfold uuid4_fresh. rewrite Hh, Hs, Hc.
  split; [|split].
  - intros a Ha. apply Hv. lia.
  - intros a b Ha Hb. apply Hd; lia.
  - intros a r q Ha. apply Hf. lia.
Qed.

Lemma uuid4_fresh_draw (w : World) (q : Question) (n : nat) :
  uuid4_fresh w (S n) ->
  _id q = uuid4_src w (uuid4_calls w) ->
  uuid4_fresh (with_heap (heap w ++ [q]) (with_uuid4_calls (S (uuid4_calls w)) w)) n.
Proof.
  intros (Hv & Hd & Hf) Hid. unfold uuid4_fresh. simpl. split; [|split].
  - intros a Ha. apply Hv. lia.
  - intros a b Ha Hb. apply Hd; lia.
  - intros a r p Ha Hp. apply lookup_app_Some in Hp as [Hp|[_ Hp]].
    + apply (Hf a r p); [lia|exact Hp].
    + apply list_lookup_singleton_Some in Hp as [_ <-]. rewrite Hid. apply Hd; lia.
Qed.

(** What one well-formed record does to a consistent manager. *)
Lemma initialize_well_formed_consistent (mgr : BoxManager) (q_data : gmap string pyval)
    (b1 : Box) (n : nat) (w : World) :
  well_formed q_data = true ->
  heap_ok (heap w) -> consistent (heap w) mgr -> keys_in_heap (heap w) mgr ->
  uuid4_fresh w (S n) ->
  _boxes mgr !! 1 = Some b1 ->
  exists mgr' w' q,
    _initialize_question mgr q_data w = (Ok mgr', w')
    /\ heap w' = heap w ++ [q]
    /\ built_from q_data q
    /\ stdout w' = stdout w /\ stdin w' = stdin w /\ ticks w' = ticks w /\ clock w' = clock w
    /\ heap_ok (heap w') /\ consistent (heap w') mgr' /\ keys_in_heap (heap w') mgr'
    /\ uuid4_fresh w' n
    /\ _boxes mgr'
       = <[1 := mkBox (_name b1) (_questions b1 ++ [length (heap w)]) (_priority_interval b1)]>
           (_boxes mgr).
Proof.
  intros Hwf Hh Hc Hk Hfresh Hb1.
  destruct (initialize_well_formed mgr q_data b1 w Hwf Hb1) as (q & Hrun & Hqt & Han & Hla & Hid).
  cbv zeta in Hrun.
  destruct Hfresh as (Hv & Hd & Hf).
  assert (Hnew : forall r p, heap w !! r = Some p -> _id p <> _id q).
  { intros r p Hp. rewrite Hid. apply (Hf _ r p); [lia|exact Hp]. }
  assert (Hvalid : Uuid.valid (_id q)) by (rewrite Hid; apply Hv; lia).
  assert (Hh' : heap_ok (heap w ++ [q])).
  { split.
    - apply alloc_distinct_ids; [apply Hh|exact Hnew].
    - intros r p Hp. apply lookup_app_Some in Hp as [Hp|[_ Hp]].
      + eapply heap_valid; eauto.
      + apply list_lookup_singleton_Some in Hp as [_ <-]. exact Hvalid. }
  assert (Hnone : _question_location mgr !! Uuid.str (_id q) = None).
  { destruct (_question_location mgr !! Uuid.str (_id q)) as [k|] eqn:E; [|reflexivity].
    destruct (Hk _ _ E) as (r & p & Hp & Hkey).
    apply UuidFacts.str_inj in Hkey; [|exact Hvalid|eapply (heap_valid _ Hh); exact Hp].
    destruct (Hnew r p Hp). congruence. }
  pose proof (consistent_alloc _ q _ Hc Hnone) as Hc1.
  set (w1 := with_heap (heap w ++ [q]) (with_uuid4_calls (S (uuid4_calls w)) w)) in *.
  assert (Hq : heap w1 !! length (heap w) = Some q).
  { simpl. rewrite lookup_app_r by lia. rewrite Nat.sub_diag. reflexivity. }
  destruct (add_new_question_consistent mgr (length (heap w)) q w1 Hh' Hc1 Hq Hnone)
    as (mgr' & Hadd & Hc' & Hloc).
  pose proof (add_new_question_run mgr (length (heap w)) q b1 w1 Hq Hb1) as Hadd'.
  rewrite Hadd in Hadd'. injection Hadd' as Hmgr'.
  assert (Hnotin : list_contains (heap w ++ [q]) (_questions b1) (length (heap w)) = false).
  { destruct (list_contains _ _ _) eqn:E; [|reflexivity].
    apply list_contains_iff in E;
      [| apply Hh' | exact (cons_valid _ _ Hc1 1 b1 Hb1) | exists q; exact Hq].
    destruct (valid_refs_elem _ _ _ (cons_valid _ _ Hc 1 b1 Hb1) E) as [p Hp].
    apply lookup_lt_Some in Hp. lia. }
  exists mgr', w1, q. split.
  { rewrite Hrun. rewrite Hmgr'. reflexivity. }
  split; [reflexivity|]. split; [exact (conj Hqt (conj Han Hla))|]. split; [reflexivity|].
  split; [reflexivity|]. split; [reflexivity|]. split; [reflexivity|].
  split; [exact Hh'|]. split; [exact Hc'|]. split; [|split].
  - intros key k Hkey. rewrite Hloc in Hkey.
    destruct (decide (key = Uuid.str (_id q))) as [->|Hne].
    + exists (length (heap w)), q. split; [exact Hq|reflexivity].
    + rewrite lookup_insert_ne in Hkey by congruence.
      destruct (Hk _ _ Hkey) as (r & p & Hp & ->). exists r, p.
      split; [apply lookup_app_l_Some, Hp|reflexivity].
  - apply uuid4_fresh_draw; [split; [|split]; assumption|exact Hid].
  - rewrite Hmgr'. simpl. unfold added. simpl in Hnotin. rewrite Hnotin. reflexivity.
Qed.

(** A record that is neither well-formed nor a non-boolean true/false record
    costs one line of diagnostics and nothing else. *)
Lemma initialize_skipped (mgr : BoxManager) (q_data : gmap string pyval) (w : World) :
  well_formed q_data = false -> non_boolean q_data = false ->
  exists line,
    _initialize_question mgr q_data w = (Ok mgr, with_stdout (stdout w ++ [line]) w).
Proof.
  unfold well_formed, non_boolean. intros Hwf Hnb.
  destruct (classify q_data) eqn:Ec; try discriminate.
  - destruct (classify_unknown_type q_data Ec) as [H1 H2].
    eexists. apply (initialize_unsupported_type mgr q_data w H1 H2).
  - destruct (classify_missing_field q_data Ec) as [H1 H2].
    destruct (initialize_missing_field mgr q_data w H1 H2) as (field & _ & _ & Hrun).
    eexists. exact Hrun.
Qed.

Lemma uuid4_fresh_print (w : World) (line : string) (n : nat) :
  uuid4_fresh w n -> uuid4_fresh (with_stdout (stdout w ++ [line]) w) n.
Proof. intros H. exact H. Qed.

Lemma insert_insert_box (boxes : list Box) (k : nat) (b b' : Box) :
  <[k := b']> (<[k := b]> boxes) = <[k := b']> boxes.
Proof.
  revert k. induction boxes as [|x boxes IH]; intros [|k]; simpl; try reflexivity.
  f_equal. apply IH.
Qed.

(** The loop of [_initialize_questions] on a consistent manager. *)
Lemma initialize_questions_consistent (rs : list (gmap string pyval)) (mgr : BoxManager)
    (b1 : Box) (w : World) :
  heap_ok (heap w) -> consistent (heap w) mgr -> keys_in_heap (heap w) mgr ->
  uuid4_fresh w (length (List.filter well_formed rs)) ->
  Forall (fun q_data => non_boolean q_data = false) rs ->
  _boxes mgr !! 1 = Some b1 ->
  exists mgr' w' objs,
    _initialize_questions mgr rs w = (Ok mgr', w')
    /\ heap w' = heap w ++ objs
    /\ length objs = length (List.filter well_formed rs)
    /\ Forall2 built_from (List.filter well_formed rs) objs
    /\ heap_ok (heap w') /\ consistent (heap w') mgr' /\ keys_in_heap (heap w') mgr'
    /\ stdin w' = stdin w /\ ticks w' = ticks w /\ clock w' = clock w
    /\ length (stdout w') + length objs = length (stdout w) + length rs
    /\ _boxes mgr'
       = <[1 := mkBox (_name b1) (_questions b1 ++ seq (length (heap w)) (length objs))
                      (_priority_interval b1)]> (_boxes mgr).
Proof.
  revert mgr b1 w. induction rs as [|d rs IH]; intros mgr b1 w Hh Hc Hk Hfresh Hok Hb1.
  - exists mgr, w, []. rewrite !app_nil_r. simpl.
    split; [reflexivity|]. split; [reflexivity|]. split; [reflexivity|].
    split; [constructor|]. split; [exact Hh|]. split; [exact Hc|]. split; [exact Hk|].
    split; [reflexivity|]. split; [reflexivity|]. split; [reflexivity|].
    split; [lia|].
    destruct b1. symmetry. apply list_insert_id. exact Hb1.
  - apply Forall_cons in Hok as [Hd Hok]. simpl in Hfresh |- *.
    destruct (well_formed d) eqn:Hwf.
    + simpl in Hfresh.
      destruct (initialize_well_formed_consistent mgr d b1 _ w Hwf Hh Hc Hk Hfresh Hb1)
        as (mgr1 & w1 & q & Hrun & Hheap1 & Hla & Hout1 & Hin1 & Hti1 & Hcl1 & Hh1 & Hc1
            & Hk1 & Hf1 & Hboxes1).
      rewrite (bind_ok _ _ _ _ _ Hrun).
      destruct (IH mgr1 (mkBox (_name b1) (_questions b1 ++ [length (heap w)])
                          (_priority_interval b1)) w1 Hh1 Hc1 Hk1 Hf1 Hok)
        as (mgr' & w' & objs & Hrest & Hheap & Hlen & Hall & Hh' & Hc' & Hk' & Hin & Hti
            & Hcl & Hout & Hboxes).
      { rewrite Hboxes1. apply list_lookup_insert_eq. eapply lookup_lt_Some, Hb1. }
      exists mgr', w', (q :: objs).
      split; [exact Hrest|].
      split; [rewrite Hheap, Hheap1, <- app_assoc; reflexivity|].
      split; [simpl; lia|]. split; [constructor; assumption|].
      split; [exact Hh'|]. split; [exact Hc'|]. split; [exact Hk'|].
      split; [congruence|]. split; [congruence|]. split; [congruence|].
      split; [rewrite Hout1 in Hout; simpl; lia|].
      rewrite Hboxes, Hboxes1, insert_insert_box. simpl.
      rewrite Hheap1, length_app, <- app_assoc. simpl.
      replace (length (heap w) + 1) with (S (length (heap w))) by lia. reflexivity.
    + destruct (initialize_skipped mgr d w Hwf Hd) as (line & Hrun).
      rewrite (bind_ok _ _ _ _ _ Hrun).
      destruct (IH mgr b1 (with_stdout (stdout w ++ [line]) w) Hh Hc Hk
                  (uuid4_fresh_print w line _ Hfresh) Hok Hb1)
        as (mgr' & w' & objs & Hrest & Hheap & Hlen & Hall & Hh' & Hc' & Hk' & Hin & Hti
            & Hcl & Hout & Hboxes).
      exists mgr', w', objs. simpl in *. rewrite length_app in Hout. simpl in Hout.
      split; [exact Hrest|]. split; [exact Hheap|]. split; [exact Hlen|].
      split; [exact Hall|]. split; [exact Hh'|]. split; [exact Hc'|]. split; [exact Hk'|].
      split; [exact Hin|]. split; [exact Hti|]. split; [exact Hcl|].
      split; [lia|exact Hboxes].
Qed.

Lemma keys_in_heap_init (h : list Question) : keys_in_heap h BoxManager_init.
Proof. intros key k H. simpl in H. rewrite lookup_empty in H. discriminate. Qed.

(** X19: loading a batch without a non-boolean true/false answer into a
    fresh controller, with [uuid4] returning fresh identifiers: every
    well-formed record becomes one new object, in the order of the file, all
    of them wait in box 1 in that order, the other boxes are empty, and the
    location index holds exactly the identifiers of the new objects, each
    at 1.  The heap and the manager satisfy the invariant afterwards. *)
Theorem loaded_questions_wait_in_box_1 (rs : list (gmap string pyval)) (w : World) :
  heap_ok (heap w) ->
  uuid4_fresh w (length (List.filter well_formed rs)) ->
  Forall (fun q_data => non_boolean q_data = false) rs ->
  exists mgr w' objs,
    ARController_init rs w = (Ok mgr, w')
    /\ heap w' = heap w ++ objs
    /\ Forall2 built_from (List.filter well_formed rs) objs
    /\ heap_ok (heap w') /\ consistent (heap w') mgr
    /\ _questions <$> _boxes mgr = [[]; seq (length (heap w)) (length objs); []; []; []]
    /\ (forall key k, _question_location mgr !! key = Some k <->
                      k = 1 /\ exists q, q ∈ objs /\ key = Uuid.str (_id q)).
Proof.
  intros Hh Hfresh Hok.
  destruct (initialize_questions_consistent rs BoxManager_init
              (Box_init "Unasked Questions" (seconds 0)) w Hh (consistent_init _)
              (keys_in_heap_init _) Hfresh Hok eq_refl)
    as (mgr & w' & objs & Hrun & Hheap & Hlen & Hall & Hh' & Hc' & Hk' & _ & _ & _ & _
        & Hboxes).
  exists mgr, w', objs. split; [exact Hrun|]. split; [exact Hheap|].
  split; [exact Hall|]. split; [exact Hh'|]. split; [exact Hc'|].
  assert (Hshape : _questions <$> _boxes mgr
                   = [[]; seq (length (heap w)) (length objs); []; []; []]).
  { rewrite Hboxes. reflexivity. }
  split; [exact Hshape|].
  assert (Hbox : forall k b, _boxes mgr !! k = Some b ->
                   _questions b = if decide (k = 1) then seq (length (heap w)) (length objs)
                                  else []).
  { intros k b Hb. apply (f_equal (fmap _questions)) in Hb.
    rewrite <- list_lookup_fmap, Hshape in Hb.
    destruct k as [|[|[|[|[|k]]]]]; simpl in Hb; try discriminate;
      injection Hb as <-; reflexivity. }
  intros key k. split.
  - intros Hkey. destruct (Hk' _ _ Hkey) as (r & p & Hp & ->).
    destruct (cons_located _ _ Hc' r p k Hp Hkey) as (b & Hb & Hin).
    rewrite (Hbox k b Hb) in Hin. destruct (decide (k = 1)) as [->|_].
    + split; [reflexivity|]. exists p. split; [|reflexivity].
      apply elem_of_seq in Hin. rewrite Hheap in Hp.
      rewrite lookup_app_r in Hp by lia. eapply list_elem_of_lookup_2, Hp.
    + apply elem_of_nil in Hin. contradiction.
  - intros (-> & q & Hq & ->). apply list_elem_of_lookup_1 in Hq as [i Hi].
    assert (Hb : exists b, _boxes mgr !! 1 = Some b).
    { apply lookup_lt_is_Some. rewrite (cons_five _ _ Hc'). lia. }
    destruct Hb as [b Hb].
    apply (cons_member _ _ Hc' 1 b (length (heap w) + i) q Hb).
    + rewrite (Hbox 1 b Hb). simpl. apply elem_of_seq.
      apply lookup_lt_Some in Hi. lia.
    + rewrite Hheap. rewrite lookup_app_r by lia.
      replace (length (heap w) + i - length (heap w)) with i by lia. exact Hi.
Qed.

Lemma heap_ok_nil : heap_ok [].
Proof. split; intros r; intros; rewrite lookup_nil in *; discriminate. Qed.

(** The identifier source of the demonstration world is fresh for an empty
    heap. *)
Lemma demo_uuid4_fresh (typed : list string) (n : nat) :
  n <= 1000 -> uuid4_fresh (Demo.world [] typed) n.
Proof.
  intros Hn. split; [|split]; simpl.
  - intros a Ha. unfold Uuid.valid.
    change (2 ^ 128)%N with 340282366920938463463374607431768211456%N. lia.
  - intros a b Ha Hb. lia.
  - intros a r q _ Hq. rewrite lookup_nil in Hq. discriminate.
Qed.

Lemma loaded_questions_wait_in_box_1_witness :
  exists mgr w' objs,
    ARController_init
      [Demo.unknown_type_record; Demo.good_record; Demo.missing_answer_record]
      (Demo.world [] []) = (Ok mgr, w')
    /\ heap w' = heap (Demo.world [] []) ++ objs
    /\ Forall2 built_from
         (List.filter well_formed
            [Demo.unknown_type_record; Demo.good_record; Demo.missing_answer_record]) objs
    /\ heap_ok (heap w') /\ consistent (heap w') mgr
    /\ _questions <$> _boxes mgr
       = [[]; seq (length (heap (Demo.world [] []))) (length objs); []; []; []]
    /\ (forall key k, _question_location mgr !! key = Some k <->
                      k = 1 /\ exists q, q ∈ objs /\ key = Uuid.str (_id q)).
Proof.
  refine (loaded_questions_wait_in_box_1
            [Demo.unknown_type_record; Demo.good_record; Demo.missing_answer_record]
            (Demo.world [] []) heap_ok_nil (demo_uuid4_fresh [] _ _) _).
  - assert (E : length (List.filter well_formed
                  [Demo.unknown_type_record; Demo.good_record; Demo.missing_answer_record])
                = 1) by reflexivity.
    rewrite E. lia.
  - repeat constructor.
Defined.

(** ** The first question of a session *)

Lemma sort_by_key_const {A} (t : datetime) (l : list (datetime * A)) :
  Forall (fun p => fst p = t) l -> sort_by_key l = l.
Proof.
  induction 1 as [|a l Ha Hl IH]; [reflexivity|].
  simpl. rewrite IH. destruct Hl as [|y l' Hy _]; [reflexivity|].
  simpl. rewrite Ha, Hy, N.leb_refl. reflexivity.
Qed.

Lemma fmap_snd_keyed (h : list Question) (l : list ref) :
  snd <$> ((fun r => (last_asked_of h r, r)) <$> l) = l.
Proof. induction l as [|a l IH]; [reflexivity|]. rewrite !fmap_cons, IH. reflexivity. Qed.

Lemma first_due_head (now : datetime) (interval : timedelta) (r : ref) (rest : list ref)
    (q : Question) (w : World) :
  heap w !! r = Some q ->
  (interval <= dt_sub now (_last_asked q))%Z ->
  first_due now interval (r :: rest) w = (Ok (Some r), w).
Proof.
  intros Hq Hd. simpl. rewrite (bind_ok _ _ w w q (deref_ok r q w Hq)).
  destruct (Z.geb_spec (dt_sub now (_last_asked q)) interval); [reflexivity|lia].
Qed.

(** A box whose members were never asked and whose interval is not positive
    returns its first member. *)
Lemma get_next_priority_question_never_asked (b : Box) (r : ref) (rest : list ref)
    (w : World) :
  _questions b = r :: rest ->
  Forall (fun x => exists q, heap w !! x = Some q /\ _last_asked q = datetime_min)
         (r :: rest) ->
  (_priority_interval b <= 0)%Z ->
  get_next_priority_question b w = (Ok (Some r), with_ticks (S (ticks w)) w).
Proof.
  intros Hb Hall Hi.
  assert (Hv : valid_refs (heap w) (_questions b)).
  { rewrite Hb. eapply Forall_impl; [exact Hall|]. intros x (q & Hq & _). exists q. exact Hq. }
  unfold get_next_priority_question.
  rewrite (bind_ok _ _ _ _ _ (sorted_by_last_asked_run _ w Hv)).
  rewrite (sort_by_key_const datetime_min).
  2:{ apply Forall_fmap. rewrite Hb. eapply Forall_impl; [exact Hall|].
      intros x (q & Hq & Hla). simpl. unfold last_asked_of. rewrite Hq. exact Hla. }
  rewrite fmap_snd_keyed, Hb.
  rewrite (bind_ok datetime_now _ w (with_ticks (S (ticks w)) w) (clock w (ticks w)) eq_refl).
  apply Forall_cons in Hall as [(q & Hq & Hla) _].
  apply (first_due_head _ _ r rest q); [exact Hq|].
  rewrite Hla. unfold dt_sub, datetime_min. lia.
Qed.

Lemma get_next_priority_question_empty (name : string) (interval : timedelta) (w : World) :
  get_next_priority_question (mkBox name [] interval) w
  = (Ok None, with_ticks (S (ticks w)) w).
Proof. reflexivity. Qed.

Lemma first_question_second (b0 b1 : Box) (bs : list Box) (r : ref) (w w1 w2 : World) :
  get_next_priority_question b0 w = (Ok None, w1) ->
  get_next_priority_question b1 w1 = (Ok (Some r), w2) ->
  first_question (b0 :: b1 :: bs) w = (Ok (Some r), w2).
Proof.
  intros H0 H1. simpl. rewrite (bind_ok _ _ _ _ _ H0).
  rewrite (bind_ok _ _ _ _ _ H1). reflexivity.
Qed.

(** X20: after loading a batch without a non-boolean true/false answer and
    with at least one well-formed record into a fresh controller, the first
    call of [get_next_question] returns the object built from the first
    well-formed record of the file, after two readings of the clock (the
    empty box of missed questions is scanned first). *)
Theorem first_record_is_asked_first (rs : list (gmap string pyval)) (w : World)
    (d : gmap string pyval) (ds : list (gmap string pyval)) :
  heap_ok (heap w) ->
  uuid4_fresh w (length (List.filter well_formed rs)) ->
  Forall (fun q_data => non_boolean q_data = false) rs ->
  List.filter well_formed rs = d :: ds ->
  exists mgr w' q,
    ARController_init rs w = (Ok mgr, w')
    /\ get_next_question mgr w'
       = (Ok (Some (length (heap w))), with_ticks (S (S (ticks w'))) w')
    /\ heap w' !! length (heap w) = Some q
    /\ built_from d q.
Proof.
  intros Hh Hfresh Hok Hd.
  destruct (initialize_questions_consistent rs BoxManager_init
              (Box_init "Unasked Questions" (seconds 0)) w Hh (consistent_init _)
              (keys_in_heap_init _) Hfresh Hok eq_refl)
    as (mgr & w' & objs & Hrun & Hheap & Hlen & Hall & _ & _ & _ & _ & _ & _ & _ & Hboxes).
  rewrite Hd in Hall. destruct objs as [|q objs]; [inversion Hall|].
  apply Forall2_cons in Hall as [Hq Hall].
  exists mgr, w', q. split; [exact Hrun|].
  assert (Hlook : forall i p, (q :: objs) !! i = Some p ->
                              heap w' !! (length (heap w) + i) = Some p).
  { intros i p Hp. rewrite Hheap, lookup_app_r by lia.
    replace (length (heap w) + i - length (heap w)) with i by lia. exact Hp. }
  split; [|split; [|exact Hq]].
  - unfold get_next_question. rewrite Hboxes.
    change (all_but_last _)
      with [Box_init "Missed Questions" (seconds 60);
            mkBox "Unasked Questions" (seq (length (heap w)) (length (q :: objs))) (seconds 0);
            Box_init "Correctly Answered Once" (seconds 180);
            Box_init "Correctly Answered Twice" (seconds 360)].
    eapply first_question_second.
    + apply get_next_priority_question_empty.
    + rewrite (get_next_priority_question_never_asked _ (length (heap w))
                 (seq (S (length (heap w))) (length objs)));
        [reflexivity|reflexivity| |unfold seconds; simpl; lia].
      simpl heap. apply Forall_forall. intros x Hx.
      change (length (heap w) :: seq (S (length (heap w))) (length objs))
        with (seq (length (heap w)) (length (q :: objs))) in Hx.
      apply elem_of_seq in Hx.
      destruct (lookup_lt_is_Some_2 (q :: objs) (x - length (heap w))) as [p Hp]; [lia|].
      exists p. split.
      * replace x with (length (heap w) + (x - length (heap w))) by lia. apply Hlook, Hp.
      * pose proof (Forall2_length _ _ _ Hall) as Hl.
        assert (Hb : Forall (fun p => _last_asked p = datetime_min) (q :: objs)).
        { constructor; [apply Hq|]. clear -Hall.
          induction Hall as [|? ? ? ? H ? IH]; constructor; [apply H|exact IH]. }
        rewrite Forall_forall in Hb. apply Hb. eapply list_elem_of_lookup_2, Hp.
  - rewrite <- (Nat.add_0_r (length (heap w))). apply Hlook. reflexivity.
Qed.

Lemma first_record_is_asked_first_witness :
  exists mgr w' q,
    ARController_init
      [Demo.unknown_type_record; Demo.good_record; Demo.missing_answer_record]
      (Demo.world [] []) = (Ok mgr, w')
    /\ get_next_question mgr w'
       = (Ok (Some (length (heap (Demo.world [] [])))), with_ticks (S (S (ticks w'))) w')
    /\ heap w' !! length (heap (Demo.world [] [])) = Some q
    /\ built_from Demo.good_record q.
Proof.
  refine (first_record_is_asked_first
            [Demo.unknown_type_record; Demo.good_record; Demo.missing_answer_record]
            (Demo.world [] []) Demo.good_record [] heap_ok_nil (demo_uuid4_fresh [] _ _) _ _).
  - assert (E : length (List.filter well_formed
                  [Demo.unknown_type_record; Demo.good_record; Demo.missing_answer_record])
                = 1) by reflexivity.
    rewrite E. lia.
  - repeat constructor.
  - reflexivity.
Defined.
